(** * The DRM/EGL presentation engine of mpv (video/out/opengl/context_drm_egl.c)

    A shallow embedding of the swapchain, the fence FIFO, the page-flip
    scheduler and the CRTC session of [context_drm_egl.c], and the
    properties of its specification checked against it.

    The C file talks to three outside parties: the kernel (libdrm), the
    buffer producer (GBM) and the GPU (EGL/GL).  Every call that leaves the
    file is recorded, in order, in a history of [event]s; what the outside
    answers is taken from a [platform], which may look at the whole history.
    All results are therefore proved for every behaviour of the outside. *)

From stdpp Require Import base option list gmap strings.
From Stdlib Require Import ZArith Lia.

Open Scope Z_scope.

(** ** Data *)

(** [struct gbm_bo *] and [GLsync]: opaque handles.  A NULL pointer is
    [None] wherever the C code can hold one. *)
Definition gbm_bo := nat.
Definition GLsync := nat.

(** [struct drm_vsync_tuple] (declared in drm_common.h). *)
Record drm_vsync_tuple := mk_vsync_tuple {
  ust : Z;
  msc : Z;
  sbc : Z
}.

(** [struct vo_vsync_info] (declared in vo.h). *)
Record vo_vsync_info := mk_vsync_info {
  vsync_duration : Z;
  skipped_vsyncs : Z;
  last_queue_display_time : Z
}.

(** [struct framebuffer]. *)
Record framebuffer := mk_framebuffer {
  fb_fd : Z;
  fb_width : Z;
  fb_height : Z;
  fb_id : Z
}.

(** [struct gbm_frame]: one entry of the swapchain. *)
Record gbm_frame := mk_frame {
  frame_bo : option gbm_bo;
  frame_vsync : drm_vsync_tuple
}.

(** The kernel objects a property can be set on. *)
Inductive drm_object := Connector | Crtc | DrawPlane.

(** [drmModeAtomicReq]: the property changes accumulated so far. *)
Definition drmModeAtomicReq := list (drm_object * string * Z).

(** [struct drm_pflip_cb_closure].  The C closure holds pointers; the three
    that point into [struct priv] are the state itself here, and the frame's
    vsync stamp is never written after [enqueue_bo], so it is held by value. *)
Record drm_pflip_cb_closure := mk_closure {
  closure_frame_vsync : drm_vsync_tuple
}.

(** What the kernel reports with a page-flip completion event. *)
Record pflip_event := mk_pflip_event {
  ev_msc : Z;
  ev_sec : Z;
  ev_usec : Z
}.

(** The constant part of [struct kms] the file reads. *)
Record kms := mk_kms {
  kms_fd : Z;
  crtc_id : Z;
  connector_id : Z;
  mode_hdisplay : Z;
  mode_vdisplay : Z
}.

(** [struct priv].  [gbm.num_bos] and [num_vsync_fences] are the lengths of
    the two arrays; [kms_request], [kms_old_state_saved] and
    [kms_mode_blob_id] are [kms->atomic_context->request],
    [kms->atomic_context->old_state.saved] and [kms->mode.blob_id]. *)
Record priv := mk_priv {
  gl_FenceSync : bool;
  p_kms : kms;
  kms_request : option drmModeAtomicReq;
  kms_old_state_saved : bool;
  kms_mode_blob_id : Z;
  gbm_bo_queue : list gbm_frame;
  fb : option framebuffer;
  vsync_fences : list GLsync;
  gbm_format : Z;
  gbm_modifiers : list Z;
  active : bool;
  waiting_for_flip : bool;
  vt_switcher_active : bool;
  still : bool;
  paused : bool;
  vsync : drm_vsync_tuple;
  vsync_info : vo_vsync_info;
  draw_surface_size : Z * Z
}.

Definition num_bos (p : priv) : nat := length (gbm_bo_queue p).
Definition num_vsync_fences (p : priv) : nat := length (vsync_fences p).
Definition num_gbm_modifiers (p : priv) : nat := length (gbm_modifiers p).

(** The options of [ctx->vo->opts] the file reads. *)
Record mp_vo_opts := mk_opts {
  swapchain_depth : Z;
  drm_vrr_enabled : Z;
  drm_format : Z;
  drm_draw_surface_size : option (Z * Z)
}.

(** ** The outside world *)

(** One constructor per call that leaves the file, with its arguments and
    its answer.  [EvAtomicCommit] also records the value [p->waiting_for_flip]
    has when the call is made (the closure handed to the kernel points at
    it).  Log output (MP_ERR and the like) is not recorded. *)
Inductive event :=
| EvFenceSync (r : option GLsync)
| EvClientWaitSync (f : GLsync)
| EvDeleteSync (f : GLsync)
| EvSwapBuffers
| EvLockFrontBuffer (r : option gbm_bo)
| EvHasFreeBuffers (r : bool)
| EvReleaseBuffer (b : gbm_bo)
| EvAddFB2 (b : gbm_bo) (with_modifiers : bool)
           (handles strides offsets modifiers : list Z) (r : Z) (id : Z)
| EvSaveOldState (r : bool)
| EvRestoreOldState (r : bool)
| EvEnsureBlob (r : option Z)
| EvAtomicAlloc (ok : bool)
| EvAtomicFree
| EvSetProperty (o : drm_object) (name : string) (v : Z) (r : Z)
| EvGetProperty (o : drm_object) (name : string) (r : option Z)
| EvAtomicCommit (flags : Z) (req : option drmModeAtomicReq)
                 (data : option drm_pflip_cb_closure)
                 (pending : bool) (r : Z)
| EvPoll (pollin : bool)
| EvHandleEvent (r : Z) (dispatched : bool)
| EvGetPlane (formats : option (list Z))
| EvKmsCreate (r : option kms)
| EvGetInFormats (blob : option (list Z * list (Z * Z * Z)))
| EvSetMaster (r : Z)
| EvDropMaster (r : Z)
| EvInitStep (name : string) (ok : bool).

Definition history := list event.

(** The answers of the outside.  Each may depend on everything that
    happened before. *)
Record platform := mk_platform {
  env_FenceSync : history → option GLsync;
  env_lock_front_buffer : history → option gbm_bo;
  env_has_free_buffers : history → bool;
  env_bo_width : gbm_bo → Z;
  env_bo_height : gbm_bo → Z;
  env_bo_modifier : gbm_bo → Z;
  env_bo_plane_count : gbm_bo → Z;
  env_bo_handle : gbm_bo → Z → Z;
  env_bo_stride : gbm_bo → Z → Z;
  env_bo_offset : gbm_bo → Z → Z;
  env_AddFB2 : history → Z * Z;
  env_save_old_state : history → bool * bool;
  env_restore_old_state : history → bool * bool;
  env_ensure_blob : history → option Z;
  env_AtomicAlloc : history → bool;
  env_set_property : history → drm_object → string → Z → Z;
  env_get_property : history → drm_object → string → option Z;
  env_AtomicCommit : history → Z → option drmModeAtomicReq → Z;
  env_poll : history → bool;
  env_HandleEvent : history → Z * option pflip_event;
  env_GetPlane : history → option (list Z);
  env_kms_create : history → option kms;
  env_GetInFormats : history → option (list Z * list (Z * Z * Z));
  env_SetMaster : history → Z;
  env_DropMaster : history → Z;
  env_init_step : history → string → bool
}.

(** [struct ra_ctx] as this file sees it: the private state, the options,
    what hangs off the context and the buffers (the closures allocated with
    [talloc(ctx, ...)] that are still alive, oldest first, and the user data
    attached to buffer objects), and the history of outside calls. *)
Record ra_ctx := mk_ctx {
  ctx_priv : priv;
  ctx_opts : mp_vo_opts;
  ctx_closures : list drm_pflip_cb_closure;
  ctx_bo_user_data : gmap gbm_bo framebuffer;
  ctx_history : history
}.

(** ** Field updates

    [set_f v p] is [p] after the assignment [p->f = v]. *)
Definition set_gl_FenceSync (v : bool) (p : priv) : priv :=
  mk_priv v (p_kms p) (kms_request p) (kms_old_state_saved p)
    (kms_mode_blob_id p) (gbm_bo_queue p) (fb p) (vsync_fences p)
    (gbm_format p) (gbm_modifiers p) (active p) (waiting_for_flip p)
    (vt_switcher_active p) (still p) (paused p) (vsync p) (vsync_info p)
    (draw_surface_size p).

Definition set_p_kms (v : kms) (p : priv) : priv :=
  mk_priv (gl_FenceSync p) v (kms_request p) (kms_old_state_saved p)
    (kms_mode_blob_id p) (gbm_bo_queue p) (fb p) (vsync_fences p)
    (gbm_format p) (gbm_modifiers p) (active p) (waiting_for_flip p)
    (vt_switcher_active p) (still p) (paused p) (vsync p) (vsync_info p)
    (draw_surface_size p).

Definition set_kms_request (v : option drmModeAtomicReq) (p : priv) : priv :=
  mk_priv (gl_FenceSync p) (p_kms p) v (kms_old_state_saved p)
    (kms_mode_blob_id p) (gbm_bo_queue p) (fb p) (vsync_fences p)
    (gbm_format p) (gbm_modifiers p) (active p) (waiting_for_flip p)
    (vt_switcher_active p) (still p) (paused p) (vsync p) (vsync_info p)
    (draw_surface_size p).

Definition set_kms_old_state_saved (v : bool) (p : priv) : priv :=
  mk_priv (gl_FenceSync p) (p_kms p) (kms_request p) v (kms_mode_blob_id p)
    (gbm_bo_queue p) (fb p) (vsync_fences p) (gbm_format p) (gbm_modifiers
    p) (active p) (waiting_for_flip p) (vt_switcher_active p) (still p)
    (paused p) (vsync p) (vsync_info p) (draw_surface_size p).

Definition set_kms_mode_blob_id (v : Z) (p : priv) : priv :=
  mk_priv (gl_FenceSync p) (p_kms p) (kms_request p) (kms_old_state_saved p)
    v (gbm_bo_queue p) (fb p) (vsync_fences p) (gbm_format p) (gbm_modifiers
    p) (active p) (waiting_for_flip p) (vt_switcher_active p) (still p)
    (paused p) (vsync p) (vsync_info p) (draw_surface_size p).

Definition set_gbm_bo_queue (v : list gbm_frame) (p : priv) : priv :=
  mk_priv (gl_FenceSync p) (p_kms p) (kms_request p) (kms_old_state_saved p)
    (kms_mode_blob_id p) v (fb p) (vsync_fences p) (gbm_format p)
    (gbm_modifiers p) (active p) (waiting_for_flip p) (vt_switcher_active p)
    (still p) (paused p) (vsync p) (vsync_info p) (draw_surface_size p).

Definition set_fb (v : option framebuffer) (p : priv) : priv :=
  mk_priv (gl_FenceSync p) (p_kms p) (kms_request p) (kms_old_state_saved p)
    (kms_mode_blob_id p) (gbm_bo_queue p) v (vsync_fences p) (gbm_format p)
    (gbm_modifiers p) (active p) (waiting_for_flip p) (vt_switcher_active p)
    (still p) (paused p) (vsync p) (vsync_info p) (draw_surface_size p).

Definition set_vsync_fences (v : list GLsync) (p : priv) : priv :=
  mk_priv (gl_FenceSync p) (p_kms p) (kms_request p) (kms_old_state_saved p)
    (kms_mode_blob_id p) (gbm_bo_queue p) (fb p) v (gbm_format p)
    (gbm_modifiers p) (active p) (waiting_for_flip p) (vt_switcher_active p)
    (still p) (paused p) (vsync p) (vsync_info p) (draw_surface_size p).

Definition set_gbm_format (v : Z) (p : priv) : priv :=
  mk_priv (gl_FenceSync p) (p_kms p) (kms_request p) (kms_old_state_saved p)
    (kms_mode_blob_id p) (gbm_bo_queue p) (fb p) (vsync_fences p) v
    (gbm_modifiers p) (active p) (waiting_for_flip p) (vt_switcher_active p)
    (still p) (paused p) (vsync p) (vsync_info p) (draw_surface_size p).

Definition set_gbm_modifiers (v : list Z) (p : priv) : priv :=
  mk_priv (gl_FenceSync p) (p_kms p) (kms_request p) (kms_old_state_saved p)
    (kms_mode_blob_id p) (gbm_bo_queue p) (fb p) (vsync_fences p)
    (gbm_format p) v (active p) (waiting_for_flip p) (vt_switcher_active p)
    (still p) (paused p) (vsync p) (vsync_info p) (draw_surface_size p).

Definition set_active (v : bool) (p : priv) : priv :=
  mk_priv (gl_FenceSync p) (p_kms p) (kms_request p) (kms_old_state_saved p)
    (kms_mode_blob_id p) (gbm_bo_queue p) (fb p) (vsync_fences p)
    (gbm_format p) (gbm_modifiers p) v (waiting_for_flip p)
    (vt_switcher_active p) (still p) (paused p) (vsync p) (vsync_info p)
    (draw_surface_size p).

Definition set_waiting_for_flip (v : bool) (p : priv) : priv :=
  mk_priv (gl_FenceSync p) (p_kms p) (kms_request p) (kms_old_state_saved p)
    (kms_mode_blob_id p) (gbm_bo_queue p) (fb p) (vsync_fences p)
    (gbm_format p) (gbm_modifiers p) (active p) v (vt_switcher_active p)
    (still p) (paused p) (vsync p) (vsync_info p) (draw_surface_size p).

Definition set_vt_switcher_active (v : bool) (p : priv) : priv :=
  mk_priv (gl_FenceSync p) (p_kms p) (kms_request p) (kms_old_state_saved p)
    (kms_mode_blob_id p) (gbm_bo_queue p) (fb p) (vsync_fences p)
    (gbm_format p) (gbm_modifiers p) (active p) (waiting_for_flip p) v
    (still p) (paused p) (vsync p) (vsync_info p) (draw_surface_size p).

Definition set_still (v : bool) (p : priv) : priv :=
  mk_priv (gl_FenceSync p) (p_kms p) (kms_request p) (kms_old_state_saved p)
    (kms_mode_blob_id p) (gbm_bo_queue p) (fb p) (vsync_fences p)
    (gbm_format p) (gbm_modifiers p) (active p) (waiting_for_flip p)
    (vt_switcher_active p) v (paused p) (vsync p) (vsync_info p)
    (draw_surface_size p).

Definition set_paused (v : bool) (p : priv) : priv :=
  mk_priv (gl_FenceSync p) (p_kms p) (kms_request p) (kms_old_state_saved p)
    (kms_mode_blob_id p) (gbm_bo_queue p) (fb p) (vsync_fences p)
    (gbm_format p) (gbm_modifiers p) (active p) (waiting_for_flip p)
    (vt_switcher_active p) (still p) v (vsync p) (vsync_info p)
    (draw_surface_size p).

Definition set_vsync (v : drm_vsync_tuple) (p : priv) : priv :=
  mk_priv (gl_FenceSync p) (p_kms p) (kms_request p) (kms_old_state_saved p)
    (kms_mode_blob_id p) (gbm_bo_queue p) (fb p) (vsync_fences p)
    (gbm_format p) (gbm_modifiers p) (active p) (waiting_for_flip p)
    (vt_switcher_active p) (still p) (paused p) v (vsync_info p)
    (draw_surface_size p).

Definition set_vsync_info (v : vo_vsync_info) (p : priv) : priv :=
  mk_priv (gl_FenceSync p) (p_kms p) (kms_request p) (kms_old_state_saved p)
    (kms_mode_blob_id p) (gbm_bo_queue p) (fb p) (vsync_fences p)
    (gbm_format p) (gbm_modifiers p) (active p) (waiting_for_flip p)
    (vt_switcher_active p) (still p) (paused p) (vsync p) v
    (draw_surface_size p).

Definition set_draw_surface_size (v : Z * Z) (p : priv) : priv :=
  mk_priv (gl_FenceSync p) (p_kms p) (kms_request p) (kms_old_state_saved p)
    (kms_mode_blob_id p) (gbm_bo_queue p) (fb p) (vsync_fences p)
    (gbm_format p) (gbm_modifiers p) (active p) (waiting_for_flip p)
    (vt_switcher_active p) (still p) (paused p) (vsync p) (vsync_info p) v.

Definition set_ctx_priv (v : priv) (c : ra_ctx) : ra_ctx :=
  mk_ctx v (ctx_opts c) (ctx_closures c) (ctx_bo_user_data c) (ctx_history c).

Definition set_ctx_closures (v : list drm_pflip_cb_closure) (c : ra_ctx) : ra_ctx :=
  mk_ctx (ctx_priv c) (ctx_opts c) v (ctx_bo_user_data c) (ctx_history c).

Definition set_ctx_bo_user_data (v : gmap gbm_bo framebuffer) (c : ra_ctx) : ra_ctx :=
  mk_ctx (ctx_priv c) (ctx_opts c) (ctx_closures c) v (ctx_history c).

Definition set_ctx_history (v : history) (c : ra_ctx) : ra_ctx :=
  mk_ctx (ctx_priv c) (ctx_opts c) (ctx_closures c) (ctx_bo_user_data c) v.

(** ** Constants of the headers *)

Definition DRM_MODE_PAGE_FLIP_EVENT : Z := 0x01.
Definition DRM_MODE_ATOMIC_NONBLOCK : Z := 0x0200.
Definition DRM_MODE_ATOMIC_ALLOW_MODESET : Z := 0x0400.
Definition DRM_FORMAT_MOD_INVALID : Z := 0x00ffffffffffffff.

Definition GBM_FORMAT_XRGB8888 : Z := 0x34325258.
Definition GBM_FORMAT_ARGB8888 : Z := 0x34325241.
Definition GBM_FORMAT_XBGR8888 : Z := 0x34324258.
Definition GBM_FORMAT_ABGR8888 : Z := 0x34324241.
Definition GBM_FORMAT_XRGB2101010 : Z := 0x30335258.
Definition GBM_FORMAT_ARGB2101010 : Z := 0x30335241.
Definition GBM_FORMAT_XBGR2101010 : Z := 0x30334258.
Definition GBM_FORMAT_ABGR2101010 : Z := 0x30334241.

Definition DRM_OPTS_FORMAT_XRGB8888 : Z := 0.
Definition DRM_OPTS_FORMAT_XRGB2101010 : Z := 1.
Definition DRM_OPTS_FORMAT_XBGR8888 : Z := 2.
Definition DRM_OPTS_FORMAT_XBGR2101010 : Z := 3.

(** Conversion of an [int] to [unsigned int], and of an [int] to [uint64_t]. *)
Definition to_unsigned (z : Z) : Z := z mod 2 ^ 32.
Definition to_uint64 (z : Z) : Z := z mod 2 ^ 64.

(** The value of an [int] expression: 32 bits, two's complement.  Where the
    result of [<<] does not fit, this is what the compiled code computes
    (C leaves it undefined). *)
Definition to_int (z : Z) : Z :=
  let w := z mod 2 ^ 32 in if w <? 2 ^ 31 then w else w - 2 ^ 32.

(** ** Running the code

    A function of the C file is a function from the context to an
    [outcome]: it finishes with a result and a new context, it is cut off
    because a loop was given too little fuel, or it faults (a read outside
    an array or through a NULL pointer: undefined behaviour in C). *)
Inductive outcome (A : Type) : Type :=
| Done (a : A)
| OutOfFuel
| Fault.
Arguments Done {A} a.
Arguments OutOfFuel {A}.
Arguments Fault {A}.

Definition M (A : Type) : Type := ra_ctx → outcome (A * ra_ctx).

Definition pure {A} (a : A) : M A := λ c, Done (a, c).

Definition bind {A B} (m : M A) (f : A → M B) : M B := λ c,
  match m c with
  | Done (a, c') => f a c'
  | OutOfFuel => OutOfFuel
  | Fault => Fault
  end.

Declare Scope engine_scope.
Delimit Scope engine_scope with engine.
Bind Scope engine_scope with M.
Notation "x ← y ; z" := (bind y (λ x, z))
  (at level 20, y at level 100, z at level 200, only parsing) : engine_scope.
Notation "' x ← y ; z" := (bind y (λ x, z))
  (at level 20, x pattern, y at level 100, z at level 200, only parsing)
  : engine_scope.
Notation "x ;; z" := (bind x (λ _, z))
  (at level 100, z at level 200, only parsing, right associativity)
  : engine_scope.
Open Scope engine_scope.

Definition fault {A} : M A := λ _, Fault.
Definition out_of_fuel {A} : M A := λ _, OutOfFuel.
Definition get_ctx : M ra_ctx := λ c, Done (c, c).
Definition get_priv : M priv := λ c, Done (ctx_priv c, c).
Definition get_opts : M mp_vo_opts := λ c, Done (ctx_opts c, c).
Definition modify_priv (f : priv → priv) : M unit :=
  λ c, Done (tt, set_ctx_priv (f (ctx_priv c)) c).
Definition modify_ctx (f : ra_ctx → ra_ctx) : M unit := λ c, Done (tt, f c).

(** A call to the outside: ask for the answer, then record the call. *)
Definition ask {A} (q : history → A) : M A := λ c, Done (q (ctx_history c), c).
Definition emit (e : event) : M unit :=
  λ c, Done (tt, set_ctx_history (ctx_history c ++ [e]) c).

(** The context an outcome ends in, if it finished. *)
Definition final {A} (o : outcome (A * ra_ctx)) : option ra_ctx :=
  match o with Done (_, c) => Some c | _ => None end.

(** Modelled from the spec: the talloc array macros [MP_TARRAY_APPEND] and
    [MP_TARRAY_REMOVE_AT] (ta/ta_talloc.h is not part of the sources).
    "enqueue ... appends to the tail"; "removes the head entry".  Removing
    at an index the array does not have is a fault. *)
Definition MP_TARRAY_APPEND {A} (l : list A) (x : A) : list A := l ++ [x].

Definition MP_TARRAY_REMOVE_AT {A} (l : list A) (at_ : nat) : option (list A) :=
  if (at_ <? length l)%nat then Some (delete at_ l) else None.

(** Modelled from the spec: the page-flip completion callback [drm_pflip_cb]
    (drm_common.c is not part of the sources).  "given the flipped entry's
    vsync stamp and the shared VsyncState, compute elapsed vsync count and
    timestamp delta, update skipped-vsync count, store last-display
    timestamp, and clear the pending flag." *)
Definition drm_pflip_cb (e : pflip_event) (data : drm_pflip_cb_closure)
    (p : priv) : priv :=
  let now_ust := ev_sec e * 1000000 + ev_usec e in
  let elapsed := to_unsigned (ev_msc e - msc (vsync p)) in
  let delta := now_ust - ust (closure_frame_vsync data) in
  set_waiting_for_flip false
    (set_vsync_info
       (mk_vsync_info (vsync_duration (vsync_info p)) (elapsed - 1)
          (ust (closure_frame_vsync data) + delta))
       (set_vsync (mk_vsync_tuple now_ust (ev_msc e) (sbc (vsync p))) p)).

(** ** The functions of context_drm_egl.c *)

Section Engine.

Variable K : platform.

(** *** Calls to the outside *)

Definition glFenceSync : M (option GLsync) :=
  r ← ask (env_FenceSync K); emit (EvFenceSync r);; pure r.

Definition glClientWaitSync (f : GLsync) : M unit := emit (EvClientWaitSync f).
Definition glDeleteSync (f : GLsync) : M unit := emit (EvDeleteSync f).
Definition eglSwapBuffers : M unit := emit EvSwapBuffers.

Definition gbm_surface_lock_front_buffer : M (option gbm_bo) :=
  r ← ask (env_lock_front_buffer K); emit (EvLockFrontBuffer r);; pure r.

Definition gbm_surface_has_free_buffers : M bool :=
  r ← ask (env_has_free_buffers K); emit (EvHasFreeBuffers r);; pure r.

Definition gbm_surface_release_buffer (b : gbm_bo) : M unit :=
  emit (EvReleaseBuffer b).

Definition gbm_bo_get_user_data (b : gbm_bo) : M (option framebuffer) :=
  c ← get_ctx; pure (ctx_bo_user_data c !! b).

Definition gbm_bo_set_user_data (b : gbm_bo) (f : framebuffer) : M unit :=
  modify_ctx (λ c, set_ctx_bo_user_data (<[b := f]> (ctx_bo_user_data c)) c).

(** [drmModeAddFB2] and [drmModeAddFB2WithModifiers]: the return code and
    the id the kernel writes to [fb->id]. *)
Definition drmModeAddFB2 (b : gbm_bo) (with_modifiers : bool)
    (handles strides offsets modifiers : list Z) : M (Z * Z) :=
  '(ret, id) ← ask (env_AddFB2 K);
  emit (EvAddFB2 b with_modifiers handles strides offsets modifiers ret id);;
  pure (ret, id).

(** [drmModeAtomicAlloc]: a fresh empty request, or NULL. *)
Definition drmModeAtomicAlloc : M (option drmModeAtomicReq) :=
  ok ← ask (env_AtomicAlloc K); emit (EvAtomicAlloc ok);;
  pure (if ok then Some [] else None).

Definition drmModeAtomicFree : M unit := emit EvAtomicFree.

(** [drmModeAtomicCommit(fd, request, flags, data)]. *)
Definition drmModeAtomicCommit (request : option drmModeAtomicReq) (flags : Z)
    (data : option drm_pflip_cb_closure) : M Z :=
  p ← get_priv;
  r ← ask (λ h, env_AtomicCommit K h flags request);
  emit (EvAtomicCommit flags request data (waiting_for_flip p) r);;
  pure r.

(** The request after [drm_object_set_property] returned [r]. *)
Definition request_after (r : Z) (request : option drmModeAtomicReq)
    (o : drm_object) (name : string) (v : Z) : option drmModeAtomicReq :=
  if r <? 0 then request
  else (λ l, MP_TARRAY_APPEND l (o, name, v)) <$> request.

(** [drm_object_set_property] (drm_atomic.c): a negative result when the
    property could not be set, and the change added to the request
    otherwise. *)
Definition drm_object_set_property (request : option drmModeAtomicReq)
    (o : drm_object) (name : string) (v : Z)
    : M (Z * option drmModeAtomicReq) :=
  r ← ask (λ h, env_set_property K h o name v);
  emit (EvSetProperty o name v r);;
  pure (r, request_after r request o name v).

(** [drm_object_get_property(object, name, &value)]: [value] is written
    only on success. *)
Definition drm_object_get_property (o : drm_object) (name : string) (value : Z)
    : M Z :=
  r ← ask (λ h, env_get_property K h o name);
  emit (EvGetProperty o name r);;
  pure (default value r).

(** [drm_atomic_save_old_state] and [drm_atomic_restore_old_state]
    (drm_atomic.c): the result, and what they leave in [old_state.saved]. *)
Definition drm_atomic_save_old_state : M bool :=
  '(ok, saved) ← ask (env_save_old_state K);
  emit (EvSaveOldState ok);;
  modify_priv (set_kms_old_state_saved saved);; pure ok.

Definition drm_atomic_restore_old_state : M bool :=
  '(ok, saved) ← ask (env_restore_old_state K);
  emit (EvRestoreOldState ok);;
  modify_priv (set_kms_old_state_saved saved);; pure ok.

(** [drm_mode_ensure_blob(fd, &mode)]: on success [mode.blob_id] is set. *)
Definition drm_mode_ensure_blob : M bool :=
  r ← ask (env_ensure_blob K); emit (EvEnsureBlob r);;
  match r with
  | Some id => modify_priv (set_kms_mode_blob_id id);; pure true
  | None => pure false
  end.

(** [poll] on the DRM fd: is [POLLIN] set in [revents]? *)
Definition poll_drm_fd : M bool :=
  r ← ask (env_poll K); emit (EvPoll r);; pure r.

(** [drmHandleEvent(fd, &p->ev)]: the kernel may deliver the completion
    event of the oldest flip whose closure it still holds; the handler
    [drm_pflip_cb] then runs before the call returns. *)
Definition drmHandleEvent : M Z :=
  '(ret, ev) ← ask (env_HandleEvent K);
  c ← get_ctx;
  match ev, ctx_closures c with
  | Some e, data :: rest =>
      emit (EvHandleEvent ret true);;
      modify_ctx (set_ctx_closures rest);;
      modify_priv (drm_pflip_cb e data);;
      pure ret
  | _, _ => emit (EvHandleEvent ret false);; pure ret
  end.

Definition drmSetMaster : M Z :=
  r ← ask (env_SetMaster K); emit (EvSetMaster r);; pure r.

Definition drmDropMaster : M Z :=
  r ← ask (env_DropMaster K); emit (EvDropMaster r);; pure r.

(** A step of initialisation that only succeeds or fails as far as this
    file is concerned (device, surface and context creation). *)
Definition init_step (name : string) : M bool :=
  r ← ask (λ h, env_init_step K h name); emit (EvInitStep name r);; pure r.

(** *** The swapchain *)

(** [p->gbm.bo_queue[i]]; reading past [num_bos] is a fault. *)
Definition bo_queue_at (i : nat) : M gbm_frame :=
  p ← get_priv;
  match gbm_bo_queue p !! i with
  | Some f => pure f
  | None => fault
  end.

Definition enqueue_bo (bo : option gbm_bo) : M unit :=
  modify_priv (λ p,
    set_vsync (mk_vsync_tuple (ust (vsync p)) (msc (vsync p))
                 (to_unsigned (sbc (vsync p) + 1))) p);;
  p ← get_priv;
  let new_frame := mk_frame bo (vsync p) in
  modify_priv (set_gbm_bo_queue (MP_TARRAY_APPEND (gbm_bo_queue p) new_frame)).

Definition dequeue_bo : M unit :=
  _ ← bo_queue_at 0;
  p ← get_priv;
  match MP_TARRAY_REMOVE_AT (gbm_bo_queue p) 0 with
  | Some q => modify_priv (set_gbm_bo_queue q)
  | None => fault
  end.

Definition swapchain_step : M unit :=
  p ← get_priv;
  if negb (0 <? num_bos p)%nat then pure tt
  else
    head ← bo_queue_at 0;
    match frame_bo head with
    | Some b => gbm_surface_release_buffer b
    | None => pure tt
    end;;
    dequeue_bo.

(** *** The fence FIFO *)

Definition new_fence : M unit :=
  p ← get_priv;
  if gl_FenceSync p then
    fence ← glFenceSync;
    match fence with
    | Some f => modify_priv (λ p, set_vsync_fences (MP_TARRAY_APPEND (vsync_fences p) f) p)
    | None => pure tt
    end
  else pure tt.

(** The loop of [wait_fence].  Every iteration removes a fence, so the
    number of fences at entry bounds the number of iterations. *)
Fixpoint wait_fence_loop (n : nat) : M unit :=
  p ← get_priv;
  if negb (num_vsync_fences p =? 0)%nat && (num_bos p <=? num_vsync_fences p)%nat
  then
    match n with
    | O => out_of_fuel
    | S n' =>
        f ← (match vsync_fences p with f :: _ => pure f | [] => fault end);
        glClientWaitSync f;;
        glDeleteSync f;;
        match MP_TARRAY_REMOVE_AT (vsync_fences p) 0 with
        | Some l => modify_priv (set_vsync_fences l)
        | None => fault
        end;;
        wait_fence_loop n'
    end
  else pure tt.

Definition wait_fence : M unit :=
  p ← get_priv; wait_fence_loop (num_vsync_fences p).

(** *** Framebuffers *)

(** The first [n] entries of a four-element array filled from [f], the rest
    left zero.  Writing a fifth entry is outside the array. *)
Definition fill4 (f : Z → Z) (n : Z) : list Z :=
  (λ i, if i <? n then f i else 0) <$> [0; 1; 2; 3].

(** [fb->id] after the add-framebuffer call: the kernel writes the id on
    success only, and the record was allocated zeroed. *)
Definition fb_id_written (ret id : Z) : Z := if ret =? 0 then id else 0.

Definition update_framebuffer_from_bo (bo : option gbm_bo) : M unit :=
  match bo with
  | None => fault
  | Some b =>
      cached ← gbm_bo_get_user_data b;
      match cached with
      | Some f => modify_priv (set_fb (Some f))
      | None =>
          p ← get_priv;
          let fd := kms_fd (p_kms p) in
          let width := env_bo_width K b in
          let height := env_bo_height K b in
          let modifier := env_bo_modifier K b in
          '(ret, id) ←
            (if (num_gbm_modifiers p =? 0)%nat || (modifier =? DRM_FORMAT_MOD_INVALID)
             then
               let stride := env_bo_stride K b 0 in
               let handle := env_bo_handle K b 0 in
               drmModeAddFB2 b false [handle; 0; 0; 0] [stride; 0; 0; 0]
                 [0; 0; 0; 0] []
             else
               let num_planes := env_bo_plane_count K b in
               if 4 <? num_planes then fault
               else
                 drmModeAddFB2 b true
                   (fill4 (env_bo_handle K b) num_planes)
                   (fill4 (env_bo_stride K b) num_planes)
                   (fill4 (env_bo_offset K b) num_planes)
                   (fill4 (λ _, modifier) num_planes));
          let f := mk_framebuffer fd width height (fb_id_written ret id) in
          gbm_bo_set_user_data b f;;
          modify_priv (set_fb (Some f))
      end
  end.

(** [p->fb->id]; [p->fb] must not be NULL. *)
Definition p_fb_id : M Z :=
  p ← get_priv;
  match fb p with
  | Some f => pure (fb_id f)
  | None => fault
  end.

(** *** The CRTC session *)

(** Ten plane properties set without looking at the result. *)
Fixpoint set_properties (request : option drmModeAtomicReq)
    (props : list (drm_object * string * Z)) : M (option drmModeAtomicReq) :=
  match props with
  | [] => pure request
  | (o, name, v) :: rest =>
      '(_, request) ← drm_object_set_property request o name v;
      set_properties request rest
  end.

Definition crtc_setup : M bool :=
  p ← get_priv;
  if active p then pure true
  else
    modify_priv (set_active true);;
    _ ← drm_atomic_save_old_state;
    request ← drmModeAtomicAlloc;
    match request with
    | None => pure false
    | Some _ =>
        '(r, request) ← drm_object_set_property request Connector "CRTC_ID"
                           (crtc_id (p_kms p));
        if r <? 0 then pure false
        else
          blob ← drm_mode_ensure_blob;
          if negb blob then drmModeAtomicFree;; pure false
          else
            p ← get_priv;
            '(r, request) ← drm_object_set_property request Crtc "MODE_ID"
                               (kms_mode_blob_id p);
            if r <? 0 then drmModeAtomicFree;; pure false
            else
              '(r, request) ← drm_object_set_property request Crtc "ACTIVE" 1;
              if r <? 0 then drmModeAtomicFree;; pure false
              else
                vrr_capable ← drm_object_get_property Connector "VRR_CAPABLE" 0;
                o ← get_opts;
                let vrr_requested := to_uint64 (drm_vrr_enabled o) in
                request ←
                  (if (vrr_requested =? 1)
                      || (negb (vrr_capable =? 0) && (vrr_requested =? to_uint64 (-1)))
                   then
                     '(_, request) ← drm_object_set_property request Crtc
                                        "VRR_ENABLED" 1;
                     pure request
                   else pure request);
                id ← p_fb_id;
                request ← set_properties request
                  [ (DrawPlane, "FB_ID", id);
                    (DrawPlane, "CRTC_ID", crtc_id (p_kms p));
                    (DrawPlane, "SRC_X", 0);
                    (DrawPlane, "SRC_Y", 0);
                    (DrawPlane, "SRC_W",
                     to_uint64 (to_int (Z.shiftl (draw_surface_size p).1 16)));
                    (DrawPlane, "SRC_H",
                     to_uint64 (to_int (Z.shiftl (draw_surface_size p).2 16)));
                    (DrawPlane, "CRTC_X", 0);
                    (DrawPlane, "CRTC_Y", 0);
                    (DrawPlane, "CRTC_W", mode_hdisplay (p_kms p));
                    (DrawPlane, "CRTC_H", mode_vdisplay (p_kms p)) ];
                ret ← drmModeAtomicCommit request DRM_MODE_ATOMIC_ALLOW_MODESET None;
                drmModeAtomicFree;;
                pure (ret =? 0)
    end.

(** The properties [drm_atomic_restore_old_state] adds to the request are
    the values the kernel reported when the state was saved; they are known
    to the outside only, so the request is passed on as it was allocated. *)
Definition crtc_release : M unit :=
  p ← get_priv;
  if negb (active p) then pure tt
  else
    modify_priv (set_active false);;
    if negb (kms_old_state_saved p) then pure tt
    else
      request ← drmModeAtomicAlloc;
      match request with
      | None => pure tt
      | Some _ =>
          _ ← drm_atomic_restore_old_state;
          _ ← drmModeAtomicCommit request DRM_MODE_ATOMIC_ALLOW_MODESET None;
          drmModeAtomicFree
      end.

Definition release_vt : M unit :=
  crtc_release;;
  _ ← drmDropMaster;
  pure tt.

Definition acquire_vt : M unit :=
  _ ← drmSetMaster;
  _ ← crtc_setup;
  pure tt.

(** *** Page flips *)

(** [talloc(ctx, struct drm_pflip_cb_closure)] and [talloc_free(data)] for
    the closure allocated last. *)
Definition talloc_closure (data : drm_pflip_cb_closure) : M unit :=
  modify_ctx (λ c, set_ctx_closures (ctx_closures c ++ [data]) c).

Definition talloc_free_closure : M unit :=
  modify_ctx (λ c, set_ctx_closures (removelast (ctx_closures c)) c).

(** [drm_object_set_property(atomic_ctx->request, ...)] on the live request. *)
Definition set_live_property (o : drm_object) (name : string) (v : Z) : M unit :=
  p ← get_priv;
  '(_, request) ← drm_object_set_property (kms_request p) o name v;
  modify_priv (set_kms_request request).

Definition queue_flip (frame : gbm_frame) : M unit :=
  update_framebuffer_from_bo (frame_bo frame);;
  let data := mk_closure (frame_vsync frame) in
  talloc_closure data;;
  p ← get_priv;
  id ← p_fb_id;
  set_live_property DrawPlane "FB_ID" id;;
  set_live_property DrawPlane "CRTC_ID" (crtc_id (p_kms p));;
  set_live_property DrawPlane "ZPOS" 1;;
  p ← get_priv;
  ret ← drmModeAtomicCommit (kms_request p)
          (Z.lor DRM_MODE_ATOMIC_NONBLOCK DRM_MODE_PAGE_FLIP_EVENT) (Some data);
  (if negb (ret =? 0) then talloc_free_closure else pure tt);;
  modify_priv (set_waiting_for_flip (ret =? 0));;
  drmModeAtomicFree;;
  request ← drmModeAtomicAlloc;
  modify_priv (set_kms_request request).

(** [wait_on_flip] polls for as long as the flag is set; nothing bounds the
    number of rounds, so the loop takes fuel. *)
Fixpoint wait_on_flip (fuel : nat) : M unit :=
  p ← get_priv;
  if waiting_for_flip p then
    match fuel with
    | O => out_of_fuel
    | S fuel' =>
        pollin ← poll_drm_fd;
        if pollin : bool then
          ret ← drmHandleEvent;
          if negb (ret =? 0) then pure tt
          else wait_on_flip fuel'
        else wait_on_flip fuel'
    end
  else pure tt.

(** *** The swapchain interface *)

Definition drm_egl_start_frame : M bool :=
  p ← get_priv;
  match kms_request p with
  | None => request ← drmModeAtomicAlloc; modify_priv (set_kms_request request)
  | Some _ => pure tt
  end;;
  init_step "ra_gl_ctx_start_frame".

Definition drm_egl_submit_frame (frame_still : bool) : M bool :=
  modify_priv (set_still frame_still);;
  init_step "ra_gl_ctx_submit_frame".

(** The condition of the loop of [drm_egl_swap_buffers]; [||] evaluates its
    right operand only when the left one is false. *)
Definition swap_condition (drain : bool) : M bool :=
  p ← get_priv;
  o ← get_opts;
  if drain || (to_unsigned (swapchain_depth o) <? Z.of_nat (num_bos p))
  then pure true
  else
    free ← gbm_surface_has_free_buffers;
    pure (negb free).

(** How an iteration of the loop ends: at its closing brace or a
    [continue], or at the [break]. *)
Inductive loop_exit := Continue | Break.

(** The first statement of the loop body: a pending flip is waited for and
    the head of the queue is retired. *)
Definition retire_flipped (fuel : nat) : M unit :=
  p ← get_priv;
  if waiting_for_flip p
  then wait_on_flip fuel;; swapchain_step
  else pure tt.

(** The rest of the loop body: stop with at most one entry left, step over
    a hole, or queue the flip to the second entry. *)
Definition flip_next : M loop_exit :=
  p ← get_priv;
  if (num_bos p <=? 1)%nat then pure Break
  else
    second ← bo_queue_at 1;
    match frame_bo second with
    | None => swapchain_step;; pure Continue
    | Some _ => queue_flip second;; pure Continue
    end.

Definition swap_body (fuel : nat) : M loop_exit :=
  retire_flipped fuel;; flip_next.

Fixpoint swap_loop (drain : bool) (fuel : nat) : M unit :=
  again ← swap_condition drain;
  if negb again then pure tt
  else
    match fuel with
    | O => out_of_fuel
    | S fuel' =>
        exit ← swap_body fuel;
        match exit with
        | Break => pure tt
        | Continue => swap_loop drain fuel'
        end
    end.

Definition drm_egl_swap_buffers (fuel : nat) : M unit :=
  p ← get_priv;
  let drain := paused p || still p in
  if negb (active p) then pure tt
  else
    wait_fence;;
    eglSwapBuffers;;
    new_bo ← gbm_surface_lock_front_buffer;
    match new_bo with
    | None => pure tt
    | Some b =>
        enqueue_bo (Some b);;
        new_fence;;
        swap_loop drain fuel
    end.

(** The loop of [drm_egl_uninit] that hands every buffer back; each round
    removes an entry, so the queue length bounds it. *)
Fixpoint release_all (n : nat) : M unit :=
  p ← get_priv;
  if negb (num_bos p =? 0)%nat then
    match n with
    | O => out_of_fuel
    | S n' => swapchain_step;; release_all n'
    end
  else pure tt.

Definition drm_egl_uninit : M unit :=
  p ← get_priv;
  _ ← drmModeAtomicCommit (kms_request p) 0 None;
  drmModeAtomicFree;;
  _ ← init_step "ra_gl_ctx_uninit";
  crtc_release;;
  p ← get_priv;
  release_all (num_bos p).

(** [drm_egl_control]: the two requests that change the state. *)
Inductive voctrl := VOCTRL_PAUSE | VOCTRL_RESUME.

Definition drm_egl_control (request : voctrl) : M unit :=
  match request with
  | VOCTRL_PAUSE => modify_priv (set_paused true)
  | VOCTRL_RESUME =>
      modify_priv (λ p,
        set_vsync (mk_vsync_tuple 0 0 (sbc (vsync p)))
          (set_vsync_info
             (mk_vsync_info (vsync_duration (vsync_info p)) 0 (-1))
             (set_paused false p)))
  end.

(** *** Format negotiation *)

(** [drmModeGetPlane]: the formats of the draw plane; NULL is dereferenced
    by the caller. *)
Definition drmModeGetPlane : M (list Z) :=
  r ← ask (env_GetPlane K); emit (EvGetPlane r);;
  match r with
  | Some formats => pure formats
  | None => fault
  end.

(** The loop of [probe_gbm_format] over the plane's formats, on the pair
    [(have_argb, have_xrgb)]. *)
Fixpoint scan_formats (argb_format xrgb_format : Z) (formats : list Z)
    (have : bool * bool) : bool * bool :=
  match formats with
  | [] => have
  | f :: rest =>
      scan_formats argb_format xrgb_format rest
        (if f =? argb_format then (true, have.2)
         else if f =? xrgb_format then (have.1, true)
         else have)
  end.

Definition probe_gbm_format (argb_format xrgb_format : Z) : M bool :=
  formats ← drmModeGetPlane;
  let have := scan_formats argb_format xrgb_format formats (false, false) in
  if have.1 then modify_priv (set_gbm_format argb_format);; pure true
  else if have.2 then modify_priv (set_gbm_format xrgb_format);; pure true
  else pure false.

(** The inner loop of [probe_gbm_modifiers] over the bits [k] of one
    modifier's format mask: does a set bit name the selected format?
    The code reads [fmts[k + mod->offset]] without looking at
    [count_formats], so [fmts] stands for the 32-bit words of the blob from
    [formats_offset] to its end: the formats first, then what the blob
    holds behind them.  [None] when [fmts] is read outside the blob. *)
Fixpoint modifier_has_format (fmts : list Z) (formats offset fmt : Z)
    (ks : list Z) : option bool :=
  match ks with
  | [] => Some false
  | k :: rest =>
      if Z.testbit formats k then
        match fmts !! Z.to_nat (k + offset) with
        | Some f =>
            if f =? fmt then Some true
            else modifier_has_format fmts formats offset fmt rest
        | None => None
        end
      else modifier_has_format fmts formats offset fmt rest
  end.

(** The outer loop, over the blob's modifiers [(formats, offset, modifier)]. *)
Fixpoint scan_modifiers (fmts : list Z) (mods : list (Z * Z * Z)) (fmt : Z)
    (acc : list Z) : option (list Z) :=
  match mods with
  | [] => Some acc
  | (formats, offset, modifier) :: rest =>
      match modifier_has_format fmts formats offset fmt (seqZ 0 64) with
      | Some true => scan_modifiers fmts rest fmt (MP_TARRAY_APPEND acc modifier)
      | Some false => scan_modifiers fmts rest fmt acc
      | None => None
      end
  end.

Definition probe_gbm_modifiers : M bool :=
  blob ← ask (env_GetInFormats K);
  emit (EvGetInFormats blob);;
  match blob with
  | None => pure false
  | Some (fmts, mods) =>
      p ← get_priv;
      match scan_modifiers fmts mods (gbm_format p) (gbm_modifiers p) with
      | Some l => modify_priv (set_gbm_modifiers l);; pure true
      | None => fault
      end
  end.

(** *** Initialisation *)

Definition init_gbm : M bool :=
  ok ← init_step "gbm_create_device";
  if negb ok then pure false
  else
    p ← get_priv;
    ok ← (if (num_gbm_modifiers p =? 0)%nat
          then init_step "gbm_surface_create"
          else init_step "gbm_surface_create_with_modifiers");
    pure ok.

Definition init_egl : M bool :=
  ok ← init_step "egl_get_display";
  if negb ok then pure false
  else
    ok ← init_step "eglInitialize";
    if negb ok then pure false
    else
      ok ← init_step "mpegl_create_context_cb";
      if negb ok then pure false
      else
        ok ← init_step "mpegl_create_window_surface";
        ok ← (if negb ok then init_step "eglCreateWindowSurface" else pure true);
        pure ok.

Definition kms_create : M bool :=
  r ← ask (env_kms_create K); emit (EvKmsCreate r);;
  match r with
  | Some k => modify_priv (set_p_kms k);; pure true
  | None => pure false
  end.

(** The pair of formats [drm_egl_init] tries for the [drm-format] option. *)
Definition formats_for (drm_format : Z) : Z * Z :=
  if drm_format =? DRM_OPTS_FORMAT_XRGB2101010
  then (GBM_FORMAT_ARGB2101010, GBM_FORMAT_XRGB2101010)
  else if drm_format =? DRM_OPTS_FORMAT_XBGR2101010
  then (GBM_FORMAT_ABGR2101010, GBM_FORMAT_XBGR2101010)
  else if drm_format =? DRM_OPTS_FORMAT_XBGR8888
  then (GBM_FORMAT_ABGR8888, GBM_FORMAT_XBGR8888)
  else (GBM_FORMAT_ARGB8888, GBM_FORMAT_XRGB8888).

(** [drm_egl_init], started on the zeroed [struct priv].  The render node,
    the native resources and the monitor aspect touch nothing modelled. *)
Definition drm_egl_init : M bool :=
  vt ← init_step "vt_switcher_init";
  modify_priv (set_vt_switcher_active vt);;
  ok ← kms_create;
  if negb ok then pure false
  else
    o ← get_opts;
    p ← get_priv;
    modify_priv (set_draw_surface_size
      (default (mode_hdisplay (p_kms p), mode_vdisplay (p_kms p))
         (drm_draw_surface_size o)));;
    let '(argb_format, xrgb_format) := formats_for (drm_format o) in
    ok ← probe_gbm_format argb_format xrgb_format;
    if negb ok then pure false
    else
      _ ← probe_gbm_modifiers;
      ok ← init_gbm;
      if negb ok then pure false
      else
        ok ← init_egl;
        if negb ok then pure false
        else
          ok ← init_step "eglMakeCurrent";
          if negb ok then pure false
          else
            sync ← init_step "mpegl_load_functions: glFenceSync";
            modify_priv (set_gl_FenceSync sync);;
            eglSwapBuffers;;
            new_bo ← gbm_surface_lock_front_buffer;
            match new_bo with
            | None => pure false
            | Some b =>
                enqueue_bo (Some b);;
                update_framebuffer_from_bo (Some b);;
                p ← get_priv;
                if negb (match fb p with
                         | Some f => negb (fb_id f =? 0)
                         | None => false
                         end)
                then pure false
                else
                  ok ← crtc_setup;
                  if negb ok then pure false
                  else
                    ok ← init_step "ra_gl_ctx_init";
                    if negb ok then pure false
                    else
                      modify_priv (set_vsync_info (mk_vsync_info 0 (-1) (-1)));;
                      pure true
            end.

(** *** Sequences of calls from the video output layer *)

Inductive call :=
| SwapBuffers
| StartFrame
| SubmitFrame (frame_still : bool)
| Control (request : voctrl)
| ReleaseVT
| AcquireVT.

Definition run_call (fuel : nat) (c : call) : M unit :=
  match c with
  | SwapBuffers => drm_egl_swap_buffers fuel
  | StartFrame => _ ← drm_egl_start_frame; pure tt
  | SubmitFrame frame_still => _ ← drm_egl_submit_frame frame_still; pure tt
  | Control request => drm_egl_control request
  | ReleaseVT => release_vt
  | AcquireVT => acquire_vt
  end.

Fixpoint run_calls (fuel : nat) (cs : list call) : M unit :=
  match cs with
  | [] => pure tt
  | c :: rest => run_call fuel c;; run_calls fuel rest
  end.

End Engine.

(** The zeroed context [drm_egl_init] starts from. *)
Definition priv_zero : priv :=
  mk_priv false (mk_kms 0 0 0 0 0) None false 0 [] None [] 0 [] false false
    false false false (mk_vsync_tuple 0 0 0) (mk_vsync_info 0 0 0) (0, 0).

Definition ctx_zero (o : mp_vo_opts) : ra_ctx := mk_ctx priv_zero o [] ∅ [].

(** A context is reachable when a successful [drm_egl_init] followed by
    calls of the video output layer ends in it. *)
Definition reachable (K : platform) (c : ra_ctx) : Prop :=
  ∃ o fuel calls c0,
    drm_egl_init K (ctx_zero o) = Done (true, c0)
    ∧ run_calls K fuel calls c0 = Done (tt, c).

(** The context a run of [init] and [calls] ends in. *)
Definition after_calls (K : platform) (o : mp_vo_opts) (fuel : nat)
    (calls : list call) : option ra_ctx :=
  match drm_egl_init K (ctx_zero o) with
  | Done (true, c0) => final (run_calls K fuel calls c0)
  | _ => None
  end.

(** ** Readings of a history and of the queue *)

(** The buffers handed back to the producer, in order. *)
Definition released (h : history) : list gbm_bo :=
  omap (λ e, match e with EvReleaseBuffer b => Some b | _ => None end) h.

(** The buffers the queue holds, oldest first (holes hold none). *)
Definition queued (c : ra_ctx) : list gbm_bo :=
  omap frame_bo (gbm_bo_queue (ctx_priv c)).

(** Is the event a commit with [DRM_MODE_ATOMIC_ALLOW_MODESET]? *)
Definition is_modeset_commit (e : event) : bool :=
  match e with
  | EvAtomicCommit flags _ _ _ _ => Z.testbit flags 10
  | _ => false
  end.

Definition modeset_commits (h : history) : nat :=
  length (List.filter is_modeset_commit h).

(** Is the event a page-flip commit issued while [waiting_for_flip] was set? *)
Definition flip_while_pending (e : event) : bool :=
  match e with
  | EvAtomicCommit flags _ _ pending _ => Z.testbit flags 0 && pending
  | _ => false
  end.

(** Did every [drmHandleEvent] of the history return 0? *)
Definition dispatch_ok (h : history) : Prop :=
  ∀ r d, EvHandleEvent r d ∈ h → r = 0.

(** Submissions to and retirements from the swapchain, in any order. *)
Inductive swapchain_op := Enqueue (b : gbm_bo) | Retire.

Definition run_op (op : swapchain_op) : M unit :=
  match op with
  | Enqueue b => enqueue_bo (Some b)
  | Retire => swapchain_step
  end.

Fixpoint run_ops (ops : list swapchain_op) : M unit :=
  match ops with
  | [] => pure tt
  | op :: rest => run_op op;; run_ops rest
  end.

Definition submitted (ops : list swapchain_op) : list gbm_bo :=
  omap (λ op, match op with Enqueue b => Some b | Retire => None end) ops.

(** ** Platforms and contexts for the examples *)

Definition is_lock (e : event) : bool :=
  match e with EvLockFrontBuffer _ => true | _ => false end.

Definition locks (h : history) : nat :=
  length (List.filter is_lock h).

(** A platform on which every call succeeds, but for the three answers
    given as arguments: what [drmHandleEvent] does, whether
    [drmModeAtomicAlloc] succeeds, and the formats of the draw plane.
    Buffers and fences are numbered as they are handed out. *)
Definition platform_with (handle_event : history → Z * option pflip_event)
    (alloc : history → bool) (plane : option (list Z)) : platform :=
  {| env_FenceSync := λ h, Some (length h);
     env_lock_front_buffer := λ h, Some (S (locks h));
     env_has_free_buffers := λ _, true;
     env_bo_width := λ _, 1920;
     env_bo_height := λ _, 1080;
     env_bo_modifier := λ _, DRM_FORMAT_MOD_INVALID;
     env_bo_plane_count := λ _, 1;
     env_bo_handle := λ b _, Z.of_nat b;
     env_bo_stride := λ _ _, 7680;
     env_bo_offset := λ _ _, 0;
     env_AddFB2 := λ h, (0, 100 + Z.of_nat (length h));
     env_save_old_state := λ _, (true, true);
     env_restore_old_state := λ _, (true, false);
     env_ensure_blob := λ _, Some 9;
     env_AtomicAlloc := alloc;
     env_set_property := λ _ _ _ _, 1;
     env_get_property := λ _ _ _, None;
     env_AtomicCommit := λ _ _ _, 0;
     env_poll := λ _, true;
     env_HandleEvent := handle_event;
     env_GetPlane := λ _, plane;
     env_kms_create := λ _, Some (mk_kms 3 41 77 1920 1080);
     env_GetInFormats := λ _, None;
     env_SetMaster := λ _, 0;
     env_DropMaster := λ _, 0;
     env_init_step := λ _ _, true |}.

(** Every flip completes at the first poll. *)
Definition cooperative : platform :=
  platform_with (λ h, (0, Some (mk_pflip_event (Z.of_nat (length h)) 0 0)))
    (λ _, true) (Some [GBM_FORMAT_XRGB8888; GBM_FORMAT_ARGB8888]).

(** [drmHandleEvent] fails (its [read] returns an error), no event is
    dispatched. *)
Definition dispatch_fails : platform :=
  platform_with (λ _, (-1, None)) (λ _, true)
    (Some [GBM_FORMAT_XRGB8888; GBM_FORMAT_ARGB8888]).

(** [drmModeAtomicAlloc] returns NULL once the session is set up (from the
    fortieth outside call on). *)
Definition alloc_fails_later : platform :=
  platform_with (λ h, (0, Some (mk_pflip_event (Z.of_nat (length h)) 0 0)))
    (λ h, (length h <? 40)%nat) (Some [GBM_FORMAT_XRGB8888; GBM_FORMAT_ARGB8888]).

Definition default_opts : mp_vo_opts := mk_opts 3 (-1) DRM_OPTS_FORMAT_XRGB8888 None.

(** ** Formats and EGL configurations *)

(** [gbm_format_to_string]: the name of a format, for the log. *)
Definition gbm_format_to_string (format : Z) : string :=
  if format =? GBM_FORMAT_XRGB8888 then "GBM_FORMAT_XRGB8888"
  else if format =? GBM_FORMAT_ARGB8888 then "GBM_FORMAT_ARGB8888"
  else if format =? GBM_FORMAT_XBGR8888 then "GBM_FORMAT_XBGR8888"
  else if format =? GBM_FORMAT_ABGR8888 then "GBM_FORMAT_ABGR8888"
  else if format =? GBM_FORMAT_XRGB2101010 then "GBM_FORMAT_XRGB2101010"
  else if format =? GBM_FORMAT_ARGB2101010 then "GBM_FORMAT_ARGB2101010"
  else if format =? GBM_FORMAT_XBGR2101010 then "GBM_FORMAT_XBGR2101010"
  else if format =? GBM_FORMAT_ABGR2101010 then "GBM_FORMAT_ABGR2101010"
  else "UNKNOWN".

(** [fallback_format_for]: the format with the alpha channel added or
    removed; 0 for a format the file does not use. *)
Definition fallback_format_for (format : Z) : Z :=
  if format =? GBM_FORMAT_XRGB8888 then GBM_FORMAT_ARGB8888
  else if format =? GBM_FORMAT_ARGB8888 then GBM_FORMAT_XRGB8888
  else if format =? GBM_FORMAT_XBGR8888 then GBM_FORMAT_ABGR8888
  else if format =? GBM_FORMAT_ABGR8888 then GBM_FORMAT_XBGR8888
  else if format =? GBM_FORMAT_XRGB2101010 then GBM_FORMAT_ARGB2101010
  else if format =? GBM_FORMAT_ARGB2101010 then GBM_FORMAT_XRGB2101010
  else if format =? GBM_FORMAT_XBGR2101010 then GBM_FORMAT_ABGR2101010
  else if format =? GBM_FORMAT_ABGR2101010 then GBM_FORMAT_XBGR2101010
  else 0.

(** The cast [(EGLint)] of a [uint32_t]: [EGLint] is a 32-bit signed
    integer. *)
Definition to_EGLint (z : Z) : Z :=
  let w := z mod 2 ^ 32 in if w <? 2 ^ 31 then w else w - 2 ^ 32.

(** The inner loop of [match_config_to_visual], from index [j] on.  An entry
    of [configs] is what [eglGetConfigAttrib] gives for that configuration:
    its [EGL_NATIVE_VISUAL_ID], or nothing when the call fails (the loop
    then goes on to the next configuration). *)
Fixpoint find_config (visual : Z) (configs : list (option Z)) (j : Z) : option Z :=
  match configs with
  | [] => None
  | attrib :: rest =>
      match attrib with
      | Some id =>
          if visual =? id then Some j else find_config visual rest (j + 1)
      | None => find_config visual rest (j + 1)
      end
  end.

(** The outer loop, over [visual_id[]] up to its first zero entry. *)
Fixpoint try_visuals (visual_id : list Z) (configs : list (option Z)) : Z :=
  match visual_id with
  | [] => -1
  | v :: rest =>
      if v =? 0 then -1
      else
        match find_config v configs 0 with
        | Some j => j
        | None => try_visuals rest configs
        end
  end.

(** [match_config_to_visual(user_data, configs, num_configs)]: the index of
    the configuration chosen for the probed format, or -1. *)
Definition match_config_to_visual (p : priv) (configs : list (option Z)) : Z :=
  try_visuals
    [to_EGLint (gbm_format p); to_EGLint (fallback_format_for (gbm_format p)); 0]
    configs.

(** ** Definitions used by the proofs *)

(** The context after one more outside call. *)
Definition log (e : event) (c : ra_ctx) : ra_ctx :=
  set_ctx_history (ctx_history c ++ [e]) c.

(** The context after [swapchain_step]: the head, if there is one, is
    handed back (unless it is a hole) and removed. *)
Definition retire_head (c : ra_ctx) : ra_ctx :=
  match gbm_bo_queue (ctx_priv c) with
  | [] => c
  | f :: q =>
      set_ctx_priv (set_gbm_bo_queue q (ctx_priv c))
        (match frame_bo f with
         | Some b => log (EvReleaseBuffer b) c
         | None => c
         end)
  end.

(** The vsync stamp [enqueue_bo] gives the next frame. *)
Definition next_vsync (p : priv) : drm_vsync_tuple :=
  mk_vsync_tuple (ust (vsync p)) (msc (vsync p)) (to_unsigned (sbc (vsync p) + 1)).

(** No event of the history is a page-flip commit issued while a flip was
    pending. *)
Definition never_pending (evs : history) : Prop :=
  Forall (λ e, flip_while_pending e = false) evs.

(** Events other than commits, event dispatches and buffer locks. *)
Definition plain (e : event) : bool :=
  match e with
  | EvHandleEvent _ _ | EvLockFrontBuffer _ | EvAtomicCommit _ _ _ _ _ => false
  | _ => true
  end.

Definition all_plain (evs : history) : Prop := Forall (λ e, plain e = true) evs.

Declare Reduction engine_run :=
  cbv beta iota zeta delta
      [bind pure get_ctx get_priv get_opts modify_priv modify_ctx ask emit
       fault out_of_fuel
       glClientWaitSync glDeleteSync eglSwapBuffers
       gbm_surface_release_buffer gbm_bo_get_user_data gbm_bo_set_user_data
       drmModeAtomicFree bo_queue_at p_fb_id
       talloc_closure talloc_free_closure set_live_property
       num_bos num_vsync_fences num_gbm_modifiers].

Declare Reduction engine_proj :=
  cbn [ctx_priv ctx_opts ctx_closures ctx_bo_user_data ctx_history
       set_ctx_priv set_ctx_closures set_ctx_bo_user_data set_ctx_history
       gl_FenceSync p_kms kms_request kms_old_state_saved kms_mode_blob_id
       gbm_bo_queue fb vsync_fences gbm_format gbm_modifiers active
       waiting_for_flip vt_switcher_active still paused vsync vsync_info
       draw_surface_size
       set_gl_FenceSync set_p_kms set_kms_request set_kms_old_state_saved
       set_kms_mode_blob_id set_gbm_bo_queue set_fb set_vsync_fences
       set_gbm_format set_gbm_modifiers set_active set_waiting_for_flip
       set_vt_switcher_active set_still set_paused set_vsync set_vsync_info
       set_draw_surface_size drm_pflip_cb log
       frame_bo frame_vsync closure_frame_vsync fst snd].

(** Simplify projections of updated records, in the goal, in a hypothesis
    and everywhere. *)
Ltac engine_fields :=
  match goal with |- ?G => let G' := eval engine_proj in G in change G' end.

Ltac engine_fields_in H :=
  let T := type of H in let T' := eval engine_proj in T in change T' in H.

Ltac engine_fields_all :=
  repeat match goal with
         | H : ?T |- _ =>
             let T' := eval engine_proj in T in progress change T' in H
         end;
  engine_fields.

(** Run the monadic code of a hypothesis or of the goal as far as it goes. *)
Ltac engine_cbv :=
  match goal with |- ?G => let G' := eval engine_run in G in change G' end;
  engine_fields.

Ltac engine_cbv_in H :=
  let T := type of H in let T' := eval engine_run in T in change T' in H;
  engine_fields_in H.

Ltac break_hyps :=
  repeat match goal with
         | H : ∃ _, _ |- _ => destruct H
         | H : _ ∧ _ |- _ => destruct H
         | u : unit |- _ => destruct u
         end.

(** [exec H with spec]: symbolic execution of [H : m c = Done r].  Every
    stuck [match] is split on its scrutinee; when that is a call of a
    function left folded, [spec] is given the equation of its result. *)
Ltac exec_with H spec :=
  repeat (engine_cbv_in H;
          match type of H with
          | Done _ = Done _ => fail 1
          | Fault = Done _ => discriminate H
          | OutOfFuel = Done _ => discriminate H
          | context [match ?x with _ => _ end] =>
              lazymatch x with
              | context [match _ with _ => _ end] => fail
              | _ =>
                  let E := fresh "E" in
                  destruct x eqn:E;
                  try (lazymatch type of E with
                       | _ = Done ?p => is_var p; destruct p
                       end);
                  try (lazymatch type of E with
                       | _ = Done (?a, _) =>
                           is_var a;
                           lazymatch type of a with
                           | (_ * _)%type => destruct a
                           | unit => destruct a
                           end
                       end);
                  try (lazymatch type of E with
                       | _ = Done (_, _) =>
                           spec E;
                           try (lazymatch type of E with
                                | _ ∨ _ => destruct E as [E|E]
                                end);
                           break_hyps; subst
                       end)
              end
          end;
          break_hyps);
  try engine_cbv_in H;
  try (lazymatch type of H with
       | Done _ = Done _ => fail
       | _ = Done (_, _) => spec H; break_hyps; subst
       end).

(** [apply_any (l1, ..., ln) E]: the first of the lemmas that applies in [E]. *)
Ltac apply_any ls E :=
  lazymatch ls with
  | (?rest, ?l) => first [ apply l in E | apply_any rest E ]
  | ?l => apply l in E
  end.

Ltac no_spec E := idtac.

Ltac unnegb :=
  repeat match goal with
         | E : negb _ = true |- _ => apply negb_true_iff in E
         | E : negb _ = false |- _ => apply negb_false_iff in E
         end.

Ltac exec H := exec_with H no_spec.

(** [run H with (l1, ..., ln)]: as [exec H], with the meaning of the calls
    left folded taken from the lemmas. *)
Tactic Notation "run" hyp(H) "with" constr(ls) :=
  exec_with H ltac:(fun E => apply_any ls E).

Ltac history_ext :=
  repeat rewrite <- app_assoc; simpl; try reflexivity;
  try (symmetry; apply app_nil_r).

(** ** Contexts of the examples *)

(** The context a run ends in (the zeroed context if it does not end). *)
Definition ctx_after (K : platform) (fuel : nat) (calls : list call) : ra_ctx :=
  default (ctx_zero default_opts) (after_calls K default_opts fuel calls).

(** Two frames were presented, then playback was paused. *)
Definition paused_calls : list call :=
  [StartFrame; SwapBuffers; Control VOCTRL_PAUSE].

(** Three frames were presented: the queue is full and a flip is pending. *)
Definition steady_calls : list call :=
  [StartFrame; SwapBuffers; SwapBuffers; SwapBuffers].

(** The same, then the VT was switched away and playback paused. *)
Definition switched_away_calls : list call :=
  steady_calls ++ [ReleaseVT; Control VOCTRL_PAUSE].

(** A queue whose second entry has no buffer. *)
Definition hole_ctx : ra_ctx :=
  mk_ctx
    (set_gbm_bo_queue
       [ mk_frame (Some 1%nat) (mk_vsync_tuple 0 0 1);
         mk_frame None (mk_vsync_tuple 0 0 2);
         mk_frame (Some 3%nat) (mk_vsync_tuple 0 0 3) ]
       (set_active true priv_zero))
    default_opts [] ∅ [].

(** The session was set up, and the VT switched away. *)
Definition released_calls : list call := [ReleaseVT].

(** The context an outcome ends in (the zeroed context if it does not end). *)
Definition result_ctx {A} (o : outcome (A * ra_ctx)) : ra_ctx :=
  default (ctx_zero default_opts) (final o).

(** The session of the examples: inactive after a VT switch-away, set up
    again, torn down again. *)
Definition inactive_ctx : ra_ctx := ctx_after cooperative 10 released_calls.
Definition set_up_ctx : ra_ctx := result_ctx (crtc_setup cooperative inactive_ctx).
Definition torn_down_ctx : ra_ctx := result_ctx (crtc_release cooperative set_up_ctx).

(** Two buffers are queued and no flip is pending: the context a flip is
    queued from in the examples, and its second entry. *)
Definition two_queued_calls : list call := [StartFrame; SwapBuffers].
Definition second_frame : gbm_frame := mk_frame (Some 2%nat) (mk_vsync_tuple 0 0 2).

(** Goals about event lists. *)
Create HintDb plain.
Create Rewrite HintDb commits.

Ltac solve_plain :=
  unfold all_plain in *;
  repeat (first [ assumption | apply Forall_nil_2
                | apply Forall_cons_2; [reflexivity|]
                | apply Forall_app_2 ]).

Ltac solve_never_pending :=
  unfold never_pending in *;
  repeat (first [ assumption | apply Forall_nil_2
                | apply Forall_cons_2; [reflexivity|]
                | apply Forall_app_2
                | solve [auto with plain] ]).

(** Count the modeset commits of a history written as a sequence of [log]s. *)
Ltac count_commits :=
  engine_fields; autorewrite with commits; simpl; try lia.

(** ** Readings used by the properties of single functions *)

(** The calls [wait_fence] makes for the fences [fs]. *)
Definition fence_events (fs : list GLsync) : history :=
  flat_map (λ f, [EvClientWaitSync f; EvDeleteSync f]) fs.

(** Does bit [k] of a modifier's format mask name the format [fmt]? *)
Definition mask_names (fmts : list Z) (formats offset fmt : Z) (k : Z) : bool :=
  Z.testbit formats k && bool_decide (fmts !! Z.to_nat (k + offset) = Some fmt).

(** Does an entry [(formats, offset, modifier)] of the IN_FORMATS blob
    support [fmt]? *)
Definition modifier_supports (fmts : list Z) (fmt : Z) (m : Z * Z * Z) : bool :=
  existsb (mask_names fmts m.1.1 m.1.2 fmt) (seqZ 0 64).

(** Every format index a modifier's mask names lies inside [fmts]: no read
    leaves the blob. *)
Definition blob_in_bounds (fmts : list Z) (mods : list (Z * Z * Z)) : Prop :=
  Forall (λ m, Forall (λ k, Z.testbit m.1.1 k = true →
                            is_Some (fmts !! Z.to_nat (k + m.1.2)))
                 (seqZ 0 64)) mods.

(** The modifiers of the blob that support [fmt], in the blob's order. *)
Definition supported_modifiers (fmts : list Z) (mods : list (Z * Z * Z))
    (fmt : Z) : list Z :=
  snd <$> List.filter (modifier_supports fmts fmt) mods.

(** ** Readings used by the properties of the engine *)

(** The buffers locked from the producer, in order. *)
Definition locked (h : history) : list gbm_bo :=
  omap (λ e, match e with EvLockFrontBuffer r => r | _ => None end) h.

(** Calls that hand a buffer over, in one direction or the other. *)
Definition is_traffic (e : event) : bool :=
  match e with
  | EvReleaseBuffer _ | EvLockFrontBuffer _ => true
  | _ => false
  end.

Definition quiet (evs : history) : Prop := Forall (λ e, is_traffic e = false) evs.

(** The buffers the engine has been given and has handed back or still
    holds, oldest first. *)
Definition in_flight (c : ra_ctx) : list gbm_bo :=
  released (ctx_history c) ++ queued c.

(** No entry of the queue lacks its buffer. *)
Definition no_holes (c : ra_ctx) : Prop :=
  Forall (λ f, is_Some (frame_bo f)) (gbm_bo_queue (ctx_priv c)).

Ltac solve_quiet :=
  unfold quiet in *;
  repeat (first [ assumption | apply Forall_nil_2
                | apply Forall_cons_2; [reflexivity|]
                | apply Forall_app_2 ]).

(** A goal [c' = mk_ctx ...] after a run: both sides are brought to a
    constructor, and the fields are compared one by one. *)
Ltac hnf_eq :=
  match goal with
  | |- ?a = ?b =>
      let a' := eval hnf in a in
      let b' := eval hnf in b in
      change (a' = b')
  end.

Ltac ctx_eq :=
  hnf_eq; f_equal;
  try (match goal with |- @eq priv _ _ => hnf_eq; f_equal end);
  engine_fields; repeat rewrite <- app_assoc;
  try reflexivity; try (symmetry; apply app_nil_r).

(** [c'] is [c] after the [k] oldest entries of the queue were retired:
    their buffers were handed back in order, no buffer was locked, and no
    entry was added or reordered. *)
Definition retires (k : nat) (c c' : ra_ctx) : Prop :=
  gbm_bo_queue (ctx_priv c') = drop k (gbm_bo_queue (ctx_priv c))
  ∧ ctx_opts c' = ctx_opts c
  ∧ (is_Some (fb (ctx_priv c)) → is_Some (fb (ctx_priv c')))
  ∧ ∃ evs, ctx_history c' = ctx_history c ++ evs
           ∧ locked evs = []
           ∧ released evs = omap frame_bo (take k (gbm_bo_queue (ctx_priv c))).

(** Symbolic execution from a context given by its fields: the context stays
    a constructor applied to its fields all along, which keeps long runs
    small. *)
Declare Reduction engine_flat :=
  cbv beta iota zeta delta
      [bind pure get_ctx get_priv get_opts modify_priv modify_ctx ask emit
       fault out_of_fuel
       glClientWaitSync glDeleteSync eglSwapBuffers
       gbm_surface_release_buffer gbm_bo_get_user_data gbm_bo_set_user_data
       drmModeAtomicFree bo_queue_at p_fb_id
       talloc_closure talloc_free_closure set_live_property
       num_bos num_vsync_fences num_gbm_modifiers
       ctx_priv ctx_opts ctx_closures ctx_bo_user_data ctx_history
       set_ctx_priv set_ctx_closures set_ctx_bo_user_data set_ctx_history
       gl_FenceSync p_kms kms_request kms_old_state_saved kms_mode_blob_id
       gbm_bo_queue fb vsync_fences gbm_format gbm_modifiers active
       waiting_for_flip vt_switcher_active still paused vsync vsync_info
       draw_surface_size
       set_gl_FenceSync set_p_kms set_kms_request set_kms_old_state_saved
       set_kms_mode_blob_id set_gbm_bo_queue set_fb set_vsync_fences
       set_gbm_format set_gbm_modifiers set_active set_waiting_for_flip
       set_vt_switcher_active set_still set_paused set_vsync set_vsync_info
       set_draw_surface_size drm_pflip_cb log next_vsync
       frame_bo frame_vsync closure_frame_vsync].

Ltac engine_flat_in H :=
  let T := type of H in let T' := eval engine_flat in T in change T' in H.

Ltac engine_flat_all :=
  repeat match goal with
         | H : ?T |- _ =>
             let T' := eval engine_flat in T in progress change T' in H
         end;
  match goal with |- ?G => let G' := eval engine_flat in G in change G' end.

Ltac exec_flat H spec :=
  repeat (engine_flat_in H;
          match type of H with
          | Done _ = Done _ => fail 1
          | Fault = Done _ => discriminate H
          | OutOfFuel = Done _ => discriminate H
          | context [match ?x with _ => _ end] =>
              lazymatch x with
              | context [match _ with _ => _ end] => fail
              | _ =>
                  let E := fresh "E" in
                  destruct x eqn:E;
                  try (lazymatch type of E with
                       | _ = Done ?p => is_var p; destruct p
                       end);
                  try (lazymatch type of E with
                       | _ = Done (?a, _) =>
                           is_var a;
                           lazymatch type of a with
                           | (_ * _)%type => destruct a
                           | unit => destruct a
                           end
                       end);
                  try (lazymatch type of E with
                       | _ = Done (_, _) =>
                           spec E;
                           try (lazymatch type of E with
                                | _ ∨ _ => destruct E as [E|E]
                                end);
                           break_hyps; subst
                       end)
              end
          end;
          break_hyps);
  try engine_flat_in H;
  try (lazymatch type of H with
       | Done _ = Done _ => fail
       | _ = Done (_, _) => spec H; break_hyps; subst
       end).

Tactic Notation "run_flat" hyp(H) "with" constr(ls) :=
  exec_flat H ltac:(fun E => apply_any ls E).

(** What holds of the swapchain in every reachable context: every buffer
    locked from the producer has been handed back or is queued, in lock
    order; no queue entry lacks its buffer; the queue is not empty; and
    [p->fb] is set. *)
Definition swapchain_inv (c : ra_ctx) : Prop :=
  in_flight c = locked (ctx_history c)
  ∧ no_holes c
  ∧ (1 ≤ num_bos (ctx_priv c))%nat
  ∧ is_Some (fb (ctx_priv c)).

(** Running the code forwards, in the goal: the outside calls are replaced
    by their answers. *)
Create Rewrite HintDb calls.

Ltac fwd := repeat (engine_cbv; autorewrite with calls); engine_cbv.

(** One more step forwards: split on what the code looks at next. *)
Ltac fwd_split :=
  fwd;
  match goal with
  | |- context [match ?x with _ => _ end] =>
      lazymatch x with
      | context [match _ with _ => _ end] => fail
      | _ => let E := fresh "E" in destruct x eqn:E
      end
  end.

(** ** More platforms for the examples *)

(** [K] with one of its answers replaced. *)
Definition with_env_poll (v : history → bool)
    (K : platform) : platform :=
  mk_platform (env_FenceSync K) (env_lock_front_buffer K)
    (env_has_free_buffers K) (env_bo_width K) (env_bo_height K)
    (env_bo_modifier K) (env_bo_plane_count K) (env_bo_handle K)
    (env_bo_stride K) (env_bo_offset K) (env_AddFB2 K) (env_save_old_state
    K) (env_restore_old_state K) (env_ensure_blob K) (env_AtomicAlloc K)
    (env_set_property K) (env_get_property K) (env_AtomicCommit K) v
    (env_HandleEvent K) (env_GetPlane K) (env_kms_create K)
    (env_GetInFormats K) (env_SetMaster K) (env_DropMaster K) (env_init_step
    K).

Definition with_env_AtomicCommit (v : history → Z → option drmModeAtomicReq → Z)
    (K : platform) : platform :=
  mk_platform (env_FenceSync K) (env_lock_front_buffer K)
    (env_has_free_buffers K) (env_bo_width K) (env_bo_height K)
    (env_bo_modifier K) (env_bo_plane_count K) (env_bo_handle K)
    (env_bo_stride K) (env_bo_offset K) (env_AddFB2 K) (env_save_old_state
    K) (env_restore_old_state K) (env_ensure_blob K) (env_AtomicAlloc K)
    (env_set_property K) (env_get_property K) v (env_poll K)
    (env_HandleEvent K) (env_GetPlane K) (env_kms_create K)
    (env_GetInFormats K) (env_SetMaster K) (env_DropMaster K) (env_init_step
    K).

Definition with_env_set_property (v : history → drm_object → string → Z → Z)
    (K : platform) : platform :=
  mk_platform (env_FenceSync K) (env_lock_front_buffer K)
    (env_has_free_buffers K) (env_bo_width K) (env_bo_height K)
    (env_bo_modifier K) (env_bo_plane_count K) (env_bo_handle K)
    (env_bo_stride K) (env_bo_offset K) (env_AddFB2 K) (env_save_old_state
    K) (env_restore_old_state K) (env_ensure_blob K) (env_AtomicAlloc K) v
    (env_get_property K) (env_AtomicCommit K) (env_poll K) (env_HandleEvent
    K) (env_GetPlane K) (env_kms_create K) (env_GetInFormats K)
    (env_SetMaster K) (env_DropMaster K) (env_init_step K).

Definition with_env_GetInFormats (v : history → option (list Z * list (Z * Z * Z)))
    (K : platform) : platform :=
  mk_platform (env_FenceSync K) (env_lock_front_buffer K)
    (env_has_free_buffers K) (env_bo_width K) (env_bo_height K)
    (env_bo_modifier K) (env_bo_plane_count K) (env_bo_handle K)
    (env_bo_stride K) (env_bo_offset K) (env_AddFB2 K) (env_save_old_state
    K) (env_restore_old_state K) (env_ensure_blob K) (env_AtomicAlloc K)
    (env_set_property K) (env_get_property K) (env_AtomicCommit K) (env_poll
    K) (env_HandleEvent K) (env_GetPlane K) (env_kms_create K) v
    (env_SetMaster K) (env_DropMaster K) (env_init_step K).

(** The DRM device never becomes readable. *)
Definition never_readable : platform := with_env_poll (λ _, false) cooperative.

(** Every page-flip commit is refused; the modeset commits succeed. *)
Definition flips_refused : platform :=
  with_env_AtomicCommit (λ _ flags _, if Z.testbit flags 0 then -22 else 0)
    cooperative.

(** The connector does not take the CRTC_ID property. *)
Definition connector_refuses : platform :=
  with_env_set_property
    (λ _ o _ _, match o with Connector => -22 | _ => 1 end) cooperative.

(** A draw plane with an IN_FORMATS blob: two formats and three modifiers,
    of which the first supports the second format only, the second both and
    the third the first only. *)
Definition in_formats_blob : list Z * list (Z * Z * Z) :=
  ([GBM_FORMAT_ARGB8888; GBM_FORMAT_XRGB8888],
   [(2, 0, 0); (3, 0, 0x0100000000000001); (1, 0, 0x0100000000000002)]).

Definition with_in_formats : platform :=
  with_env_GetInFormats (λ _, Some in_formats_blob) cooperative.

(** A round of [wait_on_flip] after which it goes on waiting: a poll, or a
    dispatch that returned 0. *)
Definition waiting_round (e : event) : bool :=
  match e with
  | EvPoll _ => true
  | EvHandleEvent r _ => r =? 0
  | _ => false
  end.

(** Atomic requests allocated and freed in a history. *)
Definition is_alloc (e : event) : bool :=
  match e with EvAtomicAlloc true => true | _ => false end.

Definition is_free (e : event) : bool :=
  match e with EvAtomicFree => true | _ => false end.

Definition allocated (h : history) : nat := length (List.filter is_alloc h).
Definition freed (h : history) : nat := length (List.filter is_free h).

(** Did the connector refuse a property? *)
Definition is_connector_refusal (e : event) : bool :=
  match e with
  | EvSetProperty Connector _ _ r => r <? 0
  | _ => false
  end.

Definition connector_refused (h : history) : bool := existsb is_connector_refusal h.

(** Events that set a property of the draw plane. *)
Definition is_plane_property (e : event) : bool :=
  match e with EvSetProperty DrawPlane _ _ _ => true | _ => false end.

(** A bound on the rounds the loop of [drm_egl_swap_buffers] still needs:
    one for each queued entry, and one or two more. *)
Definition rounds_left (c : ra_ctx) : nat :=
  num_bos (ctx_priv c) + (if waiting_for_flip (ctx_priv c) then 1 else 2).

(** * Properties *)

(** ** The outside calls *)

Section Calls.

Variable K : platform.

Lemma glFenceSync_spec c r c' :
  glFenceSync K c = Done (r, c') → c' = log (EvFenceSync r) c.
Proof. intros H. unfold glFenceSync in H. exec H. by simplify_eq. Qed.

Lemma lock_front_buffer_spec c r c' :
  gbm_surface_lock_front_buffer K c = Done (r, c') →
  c' = log (EvLockFrontBuffer r) c.
Proof. intros H. unfold gbm_surface_lock_front_buffer in H. exec H. by simplify_eq. Qed.

Lemma has_free_buffers_spec c r c' :
  gbm_surface_has_free_buffers K c = Done (r, c') →
  c' = log (EvHasFreeBuffers r) c.
Proof. intros H. unfold gbm_surface_has_free_buffers in H. exec H. by simplify_eq. Qed.

Lemma drmModeAddFB2_spec b m hs ss os ms c ret id c' :
  drmModeAddFB2 K b m hs ss os ms c = Done ((ret, id), c') →
  c' = log (EvAddFB2 b m hs ss os ms ret id) c.
Proof. intros H. unfold drmModeAddFB2 in H. exec H. by simplify_eq. Qed.

Lemma drmModeAtomicAlloc_spec c r c' :
  drmModeAtomicAlloc K c = Done (r, c') →
  ∃ ok, r = (if ok : bool then Some [] else None) ∧ c' = log (EvAtomicAlloc ok) c.
Proof.
  intros H. unfold drmModeAtomicAlloc in H. engine_cbv_in H. simplify_eq. eauto.
Qed.

Lemma drmModeAtomicCommit_spec req flags data c r c' :
  drmModeAtomicCommit K req flags data c = Done (r, c') →
  c' = log (EvAtomicCommit flags req data (waiting_for_flip (ctx_priv c)) r) c.
Proof. intros H. unfold drmModeAtomicCommit in H. exec H. by simplify_eq. Qed.

Lemma drm_object_set_property_spec req o name v c r req' c' :
  drm_object_set_property K req o name v c = Done ((r, req'), c') →
  req' = request_after r req o name v ∧ c' = log (EvSetProperty o name v r) c.
Proof. intros H. unfold drm_object_set_property in H. exec H. by simplify_eq. Qed.

Lemma drm_object_get_property_spec o name v c r c' :
  drm_object_get_property K o name v c = Done (r, c') →
  ∃ x, c' = log (EvGetProperty o name x) c.
Proof. intros H. unfold drm_object_get_property in H. exec H. simplify_eq. eauto. Qed.

Lemma save_old_state_spec c r c' :
  drm_atomic_save_old_state K c = Done (r, c') →
  ∃ saved, c' = set_ctx_priv (set_kms_old_state_saved saved (ctx_priv c))
                  (log (EvSaveOldState r) c).
Proof. intros H. unfold drm_atomic_save_old_state in H. exec H. simplify_eq. eauto. Qed.

Lemma restore_old_state_spec c r c' :
  drm_atomic_restore_old_state K c = Done (r, c') →
  ∃ saved, c' = set_ctx_priv (set_kms_old_state_saved saved (ctx_priv c))
                  (log (EvRestoreOldState r) c).
Proof. intros H. unfold drm_atomic_restore_old_state in H. exec H. simplify_eq. eauto. Qed.

Lemma ensure_blob_spec c r c' :
  drm_mode_ensure_blob K c = Done (r, c') →
  ∃ x id, c' = set_ctx_priv (set_kms_mode_blob_id id (ctx_priv c))
                 (log (EvEnsureBlob x) c).
Proof.
  intros H. unfold drm_mode_ensure_blob in H. exec H; simplify_eq.
  - eauto.
  - exists None, (kms_mode_blob_id (ctx_priv c)). by destruct c as [[] ? ? ? ?].
Qed.

Lemma poll_spec c r c' :
  poll_drm_fd K c = Done (r, c') → c' = log (EvPoll r) c.
Proof. intros H. unfold poll_drm_fd in H. exec H. by simplify_eq. Qed.

Lemma drmHandleEvent_spec c r c' :
  drmHandleEvent K c = Done (r, c') →
  c' = log (EvHandleEvent r false) c
  ∨ ∃ e data rest,
      ctx_closures c = data :: rest
      ∧ c' = set_ctx_priv (drm_pflip_cb e data (ctx_priv c))
               (set_ctx_closures rest (log (EvHandleEvent r true) c)).
Proof.
  intros H. unfold drmHandleEvent in H. exec H; simplify_eq; eauto 10.
Qed.

End Calls.

(** ** The swapchain *)

Lemma swapchain_step_total c : swapchain_step c = Done (tt, retire_head c).
Proof.
  destruct c as [[? ? ? ? ? q0 ? ? ? ? ? ? ? ? ? ? ? ?] o cl ud h].
  unfold retire_head, log. simpl.
  destruct q0 as [|[[b|] v] q]; reflexivity.
Qed.

Lemma swapchain_step_inv c c' :
  swapchain_step c = Done (tt, c') → c' = retire_head c.
Proof. rewrite swapchain_step_total. by intros [= <-]. Qed.

Lemma enqueue_bo_total bo c :
  enqueue_bo bo c =
  Done (tt, set_ctx_priv
              (set_gbm_bo_queue
                 (gbm_bo_queue (ctx_priv c) ++ [mk_frame bo (next_vsync (ctx_priv c))])
                 (set_vsync (next_vsync (ctx_priv c)) (ctx_priv c))) c).
Proof. reflexivity. Qed.

Lemma enqueue_bo_inv bo c c' :
  enqueue_bo bo c = Done (tt, c') →
  c' = set_ctx_priv
         (set_gbm_bo_queue
            (gbm_bo_queue (ctx_priv c) ++ [mk_frame bo (next_vsync (ctx_priv c))])
            (set_vsync (next_vsync (ctx_priv c)) (ctx_priv c))) c.
Proof. rewrite enqueue_bo_total. by intros [= <-]. Qed.

Lemma retire_head_num_bos c :
  num_bos (ctx_priv (retire_head c)) = Nat.pred (num_bos (ctx_priv c)).
Proof.
  unfold retire_head, num_bos.
  destruct (gbm_bo_queue (ctx_priv c)) as [|f q] eqn:Hq; [by rewrite Hq|].
  by destruct (frame_bo f).
Qed.

Lemma retire_head_frame c :
  vsync_fences (ctx_priv (retire_head c)) = vsync_fences (ctx_priv c)
  ∧ waiting_for_flip (ctx_priv (retire_head c)) = waiting_for_flip (ctx_priv c)
  ∧ ctx_opts (retire_head c) = ctx_opts c
  ∧ ctx_closures (retire_head c) = ctx_closures c
  ∧ kms_request (ctx_priv (retire_head c)) = kms_request (ctx_priv c).
Proof.
  unfold retire_head.
  destruct (gbm_bo_queue (ctx_priv c)) as [|f q]; [done|].
  by destruct (frame_bo f).
Qed.

Lemma retire_head_history c :
  ∃ evs, ctx_history (retire_head c) = ctx_history c ++ evs ∧ all_plain evs.
Proof.
  unfold retire_head.
  destruct (gbm_bo_queue (ctx_priv c)) as [|f q].
  - exists []. rewrite app_nil_r. split; [done|constructor].
  - destruct (frame_bo f) as [b|].
    + exists [EvReleaseBuffer b]. split; [done|by repeat constructor].
    + exists []. engine_fields. rewrite app_nil_r. split; [done|constructor].
Qed.

(** *** First in, first out *)

Lemma released_app h1 h2 : released (h1 ++ h2) = released h1 ++ released h2.
Proof. apply omap_app. Qed.

Lemma retire_head_fifo c :
  released (ctx_history (retire_head c)) ++ queued (retire_head c)
  = released (ctx_history c) ++ queued c.
Proof.
  unfold retire_head, queued.
  destruct (gbm_bo_queue (ctx_priv c)) as [|[[b|] v] q] eqn:Hq; engine_fields;
    rewrite ?Hq; try reflexivity.
  rewrite released_app. simpl. by rewrite <- app_assoc.
Qed.

Lemma run_ops_fifo ops : ∀ c,
  ∃ c', run_ops ops c = Done (tt, c')
        ∧ released (ctx_history c') ++ queued c'
          = released (ctx_history c) ++ queued c ++ submitted ops.
Proof.
  induction ops as [|op ops IH]; intros c.
  - exists c. split; [reflexivity|]. simpl. by rewrite app_nil_r.
  - destruct op as [b|]; simpl; unfold bind.
    + rewrite enqueue_bo_total.
      edestruct IH as (c' & -> & E). eexists. split; [reflexivity|].
      rewrite E. unfold queued. engine_fields.
      rewrite omap_app. simpl. by rewrite <- !app_assoc.
    + rewrite swapchain_step_total.
      edestruct IH as (c' & -> & E). eexists. split; [reflexivity|].
      rewrite E. rewrite app_assoc, retire_head_fifo. by rewrite <- app_assoc.
Qed.

Lemma release_all_spec n : ∀ c,
  (num_bos (ctx_priv c) ≤ n)%nat →
  ∃ c', release_all n c = Done (tt, c')
        ∧ gbm_bo_queue (ctx_priv c') = []
        ∧ released (ctx_history c') = released (ctx_history c) ++ queued c.
Proof.
  induction n as [|n IH]; intros c Hn; cbn [release_all]; engine_cbv;
    unfold num_bos, queued in *.
  - destruct (gbm_bo_queue (ctx_priv c)) as [|f q] eqn:Hq; [|simpl in Hn; lia].
    exists c. by rewrite app_nil_r.
  - destruct (gbm_bo_queue (ctx_priv c)) as [|f q] eqn:Hq.
    + exists c. by rewrite app_nil_r.
    + cbn [length Nat.eqb negb]. rewrite swapchain_step_total.
      destruct (IH (retire_head c)) as (c' & E & Hq' & Hr).
      { pose proof (retire_head_num_bos c) as Hp. unfold num_bos in Hp.
        rewrite Hp, Hq. simpl in *. lia. }
      exists c'. split; [exact E|]. split; [exact Hq'|].
      rewrite Hr, retire_head_fifo. unfold queued. by rewrite Hq.
Qed.

(** C7.  Buffers go back to the producer surface in the order they were
    submitted.  Any sequence of enqueues and retirements runs to the end,
    and at every point the buffers released so far followed by those still
    queued are the buffers submitted so far, in submission order: an enqueue
    appends at the tail and a retirement releases the head.  Releasing what
    is left, as [drm_egl_uninit] does, empties the queue, and the buffers
    released over the whole run are then exactly the submitted ones, in
    order. *)
Theorem buffers_released_in_submission_order (ops : list swapchain_op) (c : ra_ctx) :
  ∃ c' c'',
    run_ops ops c = Done (tt, c')
    ∧ released (ctx_history c') ++ queued c'
      = released (ctx_history c) ++ queued c ++ submitted ops
    ∧ release_all (num_bos (ctx_priv c')) c' = Done (tt, c'')
    ∧ gbm_bo_queue (ctx_priv c'') = []
    ∧ released (ctx_history c'')
      = released (ctx_history c) ++ queued c ++ submitted ops.
Proof.
  destruct (run_ops_fifo ops c) as (c' & Hrun & Hfifo).
  destruct (release_all_spec (num_bos (ctx_priv c')) c') as (c'' & Hrel & Hq & Hr);
    [lia|].
  exists c', c''. repeat split; try assumption. by rewrite Hr.
Qed.

(** C10.  [swapchain_step] on an empty queue returns and leaves the whole
    context as it was: no entry is read and no buffer is released.  On any
    queue it returns, and the queue is one entry shorter or still empty, so
    every sequence of enqueues and retirements from an empty queue runs to
    the end without reading outside the queue. *)
Theorem swapchain_step_on_empty_queue (c : ra_ctx) (ops : list swapchain_op) :
  gbm_bo_queue (ctx_priv c) = [] →
  swapchain_step c = Done (tt, c)
  ∧ (∀ c0, ∃ c1, swapchain_step c0 = Done (tt, c1)
                 ∧ num_bos (ctx_priv c1) = Nat.pred (num_bos (ctx_priv c0)))
  ∧ ∃ c', run_ops ops c = Done (tt, c').
Proof.
  intros Hq. split; [|split].
  - rewrite swapchain_step_total. unfold retire_head. by rewrite Hq.
  - intros c0. exists (retire_head c0). split; [apply swapchain_step_total|].
    apply retire_head_num_bos.
  - destruct (run_ops_fifo ops c) as (c' & Hrun & _). eauto.
Qed.

(** ** The fence FIFO *)

Lemma MP_TARRAY_REMOVE_AT_head {A} (x : A) l :
  MP_TARRAY_REMOVE_AT (x :: l) 0 = Some l.
Proof. reflexivity. Qed.

Lemma wait_fence_loop_spec n : ∀ c,
  (num_vsync_fences (ctx_priv c) ≤ n)%nat →
  ∃ c' evs,
    wait_fence_loop n c = Done (tt, c')
    ∧ c' = set_ctx_priv (set_vsync_fences (vsync_fences (ctx_priv c')) (ctx_priv c))
             (set_ctx_history (ctx_history c ++ evs) c)
    ∧ (num_vsync_fences (ctx_priv c') = 0
       ∨ num_vsync_fences (ctx_priv c') < num_bos (ctx_priv c'))%nat
    ∧ all_plain evs.
Proof.
  induction n as [|n IH]; intros c Hn; cbn [wait_fence_loop]; engine_cbv;
    unfold num_vsync_fences, num_bos in *.
  - destruct (vsync_fences (ctx_priv c)) as [|f fs] eqn:Hf; [|simpl in Hn; lia].
    exists c, []. cbn [length Nat.eqb negb andb]. engine_cbv. rewrite Hf, app_nil_r.
    repeat split; auto; try constructor; try apply Forall_nil_2.
    by destruct c as [[] ? ? ? ?]; simpl in *; subst.
  - destruct (vsync_fences (ctx_priv c)) as [|f fs] eqn:Hf.
    + exists c, []. cbn [length Nat.eqb negb andb]. engine_cbv. rewrite Hf, app_nil_r.
      repeat split; auto; try constructor; try apply Forall_nil_2.
      by destruct c as [[] ? ? ? ?]; simpl in *; subst.
    + destruct (Nat.leb_spec (length (gbm_bo_queue (ctx_priv c))) (length (f :: fs)))
        as [Hle|Hlt]; cbn [length Nat.eqb negb andb]; engine_cbv.
      * rewrite MP_TARRAY_REMOVE_AT_head. engine_cbv.
        match goal with |- context [wait_fence_loop n ?c1] =>
          destruct (IH c1) as (c' & evs & E & Hc & Hb & Hp) end.
        { engine_fields. simpl in Hn. lia. }
        engine_fields_in Hc.
        exists c', (EvClientWaitSync f :: EvDeleteSync f :: evs).
        split; [exact E|]. split.
        { rewrite Hc at 1. engine_fields. rewrite <- !app_assoc. reflexivity. }
        split; [exact Hb|]. by repeat constructor.
      * exists c, []. rewrite Hf, app_nil_r.
        repeat split; auto; try constructor; try apply Forall_nil_2;
          try (by destruct c as [[] ? ? ? ?]; simpl in *; subst);
          try (right; simpl in *; lia).
Qed.

Lemma wait_fence_spec c :
  ∃ c' evs,
    wait_fence c = Done (tt, c')
    ∧ c' = set_ctx_priv (set_vsync_fences (vsync_fences (ctx_priv c')) (ctx_priv c))
             (set_ctx_history (ctx_history c ++ evs) c)
    ∧ (num_vsync_fences (ctx_priv c') = 0
       ∨ num_vsync_fences (ctx_priv c') < num_bos (ctx_priv c'))%nat
    ∧ all_plain evs.
Proof.
  unfold wait_fence. engine_cbv. apply wait_fence_loop_spec.
  unfold num_vsync_fences. lia.
Qed.

Lemma new_fence_spec K c c' :
  new_fence K c = Done (tt, c') →
  c' = c
  ∨ (∃ r, c' = log (EvFenceSync r) c)
  ∨ (∃ f, c' = set_ctx_priv
                 (set_vsync_fences (vsync_fences (ctx_priv c) ++ [f]) (ctx_priv c))
                 (log (EvFenceSync (Some f)) c)).
Proof.
  intros H. unfold new_fence in H. run H with glFenceSync_spec; simplify_eq.
  all: first [ by left | right; left; eexists; reflexivity
             | right; right; eexists; reflexivity ].
Qed.

Lemma new_fence_total K c : ∃ c', new_fence K c = Done (tt, c').
Proof.
  unfold new_fence, glFenceSync. engine_cbv.
  destruct (gl_FenceSync (ctx_priv c)); [|eauto].
  destruct (env_FenceSync K (ctx_history c)); eauto.
Qed.

(** ** Readings of event lists *)

Lemma dispatch_ok_nil : dispatch_ok [].
Proof. intros r d Hin. inversion Hin. Qed.

Lemma dispatch_ok_cons e evs : dispatch_ok (e :: evs) → dispatch_ok evs.
Proof. intros H r d Hin. apply (H r d). by apply list_elem_of_further. Qed.

Lemma dispatch_ok_app h1 h2 :
  dispatch_ok (h1 ++ h2) → dispatch_ok h1 ∧ dispatch_ok h2.
Proof.
  intros H. split; intros r d Hin; apply (H r d); apply elem_of_app; auto.
Qed.

Lemma dispatch_ok_skip e evs :
  (∀ r d, e ≠ EvHandleEvent r d) → dispatch_ok evs → dispatch_ok (e :: evs).
Proof.
  intros He H r d Hin. apply elem_of_cons in Hin as [Hin|Hin]; [|by apply (H r d)].
  by destruct (He r d).
Qed.

Lemma dispatch_ok_failed z d evs :
  negb (z =? 0) = true → EvHandleEvent z d ∈ evs → ¬ dispatch_ok evs.
Proof. intros Hz Hin Hd. apply Hd in Hin. subst. discriminate. Qed.

Lemma snoc3 {A} (l : list A) a b c : ((l ++ [a]) ++ [b]) ++ [c] = l ++ [a; b; c].
Proof. by rewrite <- !app_assoc. Qed.

Lemma history_split {A} (h X evs L : list A) :
  X = h ++ evs → X ++ L = h ++ evs ++ L.
Proof. intros ->. by rewrite app_assoc. Qed.

Lemma all_plain_never_pending evs :
  all_plain evs → Forall (λ e, flip_while_pending e = false) evs.
Proof.
  intros H. eapply Forall_impl; [exact H|]. by intros [].
Qed.

#[export] Hint Resolve all_plain_never_pending : plain.

Lemma all_plain_dispatch_ok evs : all_plain evs → dispatch_ok evs.
Proof.
  intros H r d Hin. eapply Forall_forall in H; [|exact Hin]. discriminate.
Qed.

Lemma all_plain_no_lock evs : all_plain evs → ∀ r, EvLockFrontBuffer r ∉ evs.
Proof.
  intros H r Hin. eapply Forall_forall in H; [|exact Hin]. discriminate.
Qed.

(** ** Framebuffers and page flips *)

Lemma update_framebuffer_spec K bo c c' :
  update_framebuffer_from_bo K bo c = Done (tt, c') →
  ∃ evs f ud,
    c' = mk_ctx (set_fb (Some f) (ctx_priv c)) (ctx_opts c) (ctx_closures c) ud
           (ctx_history c ++ evs)
    ∧ all_plain evs.
Proof.
  intros H. unfold update_framebuffer_from_bo in H.
  run H with drmModeAddFB2_spec; simplify_eq.
  all: destruct c as [p o cl ud h]; engine_fields.
  all: eexists _, _, _; split;
    [unfold set_ctx_priv, set_ctx_bo_user_data, set_ctx_history; engine_fields;
     f_equal; try (symmetry; apply app_nil_r)|].
  all: solve_plain.
Qed.

Lemma queue_flip_spec K frame c c' :
  queue_flip K frame c = Done (tt, c') →
  ∃ evs req ret ok,
    ctx_history c' =
      ctx_history c ++ evs ++
        [EvAtomicCommit (Z.lor DRM_MODE_ATOMIC_NONBLOCK DRM_MODE_PAGE_FLIP_EVENT)
           req (Some (mk_closure (frame_vsync frame)))
           (waiting_for_flip (ctx_priv c)) ret;
         EvAtomicFree; EvAtomicAlloc ok]
    ∧ all_plain evs
    ∧ gbm_bo_queue (ctx_priv c') = gbm_bo_queue (ctx_priv c)
    ∧ vsync_fences (ctx_priv c') = vsync_fences (ctx_priv c)
    ∧ ctx_opts c' = ctx_opts c
    ∧ waiting_for_flip (ctx_priv c') = (ret =? 0)
    ∧ kms_request (ctx_priv c') = (if ok : bool then Some [] else None)
    ∧ ctx_closures c' =
        (if ret =? 0 then ctx_closures c ++ [mk_closure (frame_vsync frame)]
         else ctx_closures c).
Proof.
  intros H. unfold queue_flip in H.
  run H with (update_framebuffer_spec, drm_object_set_property_spec,
              drmModeAtomicCommit_spec, drmModeAtomicAlloc_spec); simplify_eq.
  all: engine_fields_all.
  all: match goal with Hnp : all_plain ?evs |- _ =>
         eexists (evs ++ _), _, _, _; split;
           [rewrite snoc3; apply history_split; history_ext|]
       end.
  all: split; [solve_plain|].
  all: repeat split.
  all: try match goal with
           | Hz : negb (?z =? 0) = _ |- context [if ?z' =? 0 then _ else _] =>
               change z' with z; destruct (z =? 0); try discriminate Hz
           end.
  all: try apply removelast_last.
  all: try reflexivity.
Qed.

Lemma wait_on_flip_spec K fuel : ∀ c c',
  wait_on_flip K fuel c = Done (tt, c') →
  ∃ evs, ctx_history c' = ctx_history c ++ evs
         ∧ gbm_bo_queue (ctx_priv c') = gbm_bo_queue (ctx_priv c)
         ∧ vsync_fences (ctx_priv c') = vsync_fences (ctx_priv c)
         ∧ ctx_opts c' = ctx_opts c
         ∧ never_pending evs
         ∧ (∀ r, EvLockFrontBuffer r ∉ evs)
         ∧ (dispatch_ok evs → waiting_for_flip (ctx_priv c') = false).
Proof.
  induction fuel as [|fuel IH]; intros c c' H; cbn [wait_on_flip] in H.
  - exec H. simplify_eq. exists []. rewrite app_nil_r.
    repeat split; auto; try apply Forall_nil_2. intros; apply not_elem_of_nil.
  - run H with (drmHandleEvent_spec, poll_spec); simplify_eq.
    all: try match goal with E : wait_on_flip _ _ _ = Done _ |- _ =>
           apply IH in E; destruct E as (evs & Eh & Eq & Ef & Eo & Enp & El & Ed)
         end.
    all: engine_fields_all.
    all: eexists; split; [rewrite ?Eh; history_ext|].
    all: repeat split; try congruence; try solve_never_pending.
    all: try (intros; rewrite ?not_elem_of_cons; repeat split;
              first [discriminate | apply not_elem_of_nil | apply El]).
    all: try (intros Hd; apply Ed; repeat apply dispatch_ok_cons in Hd; exact Hd).
    all: try (intros Hd; exfalso; revert Hd; eapply dispatch_ok_failed; [eassumption|];
              repeat constructor).
Qed.

(** ** The loop of [drm_egl_swap_buffers] *)

Lemma swap_condition_spec K drain c again c' :
  swap_condition K drain c = Done (again, c') →
  ∃ evs, ctx_history c' = ctx_history c ++ evs
         ∧ all_plain evs
         ∧ ctx_priv c' = ctx_priv c
         ∧ ctx_opts c' = ctx_opts c
         ∧ (drain = true → again = true).
Proof.
  intros H. unfold swap_condition in H.
  run H with has_free_buffers_spec; simplify_eq; engine_fields_all.
  - exists []. rewrite app_nil_r. repeat split; try constructor.
  - eexists. split; [reflexivity|]. repeat split; [solve_plain|].
    intros ->. discriminate.
Qed.

Lemma retire_flipped_spec K fuel c c' :
  retire_flipped K fuel c = Done (tt, c') →
  ∃ evs, ctx_history c' = ctx_history c ++ evs
         ∧ vsync_fences (ctx_priv c') = vsync_fences (ctx_priv c)
         ∧ ctx_opts c' = ctx_opts c
         ∧ never_pending evs
         ∧ (∀ r, EvLockFrontBuffer r ∉ evs)
         ∧ (dispatch_ok evs → waiting_for_flip (ctx_priv c') = false).
Proof.
  intros H. unfold retire_flipped in H. run H with swapchain_step_inv.
  - match goal with E : wait_on_flip _ _ _ = Done _ |- _ =>
      apply wait_on_flip_spec in E;
      destruct E as (evs & Eh & Eq & Ef & Eo & Enp & El & Ed) end.
    simplify_eq.
    destruct (retire_head_history r) as (evs' & Eh' & Hp').
    destruct (retire_head_frame r) as (Hf & Hw & Ho & _).
    exists (evs ++ evs'). rewrite Eh', Eh, app_assoc.
    repeat split; try congruence.
    + solve_never_pending.
    + intros x Hin. apply elem_of_app in Hin as [Hin|Hin]; [by apply (El x)|].
      by apply (all_plain_no_lock _ Hp' x).
    + intros Hd. rewrite Hw. apply Ed. by apply dispatch_ok_app in Hd as [? _].
  - simplify_eq. exists []. rewrite app_nil_r.
    repeat split; auto; try apply Forall_nil_2. intros; apply not_elem_of_nil.
Qed.

Lemma flip_next_spec K c exit c' :
  flip_next K c = Done (exit, c') →
  ∃ evs, ctx_history c' = ctx_history c ++ evs
         ∧ vsync_fences (ctx_priv c') = vsync_fences (ctx_priv c)
         ∧ ctx_opts c' = ctx_opts c
         ∧ (∀ r, EvLockFrontBuffer r ∉ evs)
         ∧ (waiting_for_flip (ctx_priv c) = false → never_pending evs)
         ∧ dispatch_ok evs
         ∧ (exit = Break →
            (num_bos (ctx_priv c') ≤ 1)%nat
            ∧ waiting_for_flip (ctx_priv c') = waiting_for_flip (ctx_priv c)).
Proof.
  intros H. unfold flip_next in H. run H with swapchain_step_inv.
  - simplify_eq. exists []. rewrite app_nil_r.
    repeat split; auto; try apply Forall_nil_2; try apply dispatch_ok_nil;
      try (intros; apply not_elem_of_nil); try (unfold num_bos; by apply Nat.leb_le);
      try (intros; apply Forall_nil_2).
  - match goal with E : queue_flip _ _ _ = Done _ |- _ =>
      apply queue_flip_spec in E;
      destruct E as (evs & req & ret & ok & Eh & Hp & Eq & Ef & Eo & _) end.
    simplify_eq. eexists. split; [exact Eh|].
    repeat split; try congruence.
    + intros x Hin. apply elem_of_app in Hin as [Hin|Hin];
        [by apply (all_plain_no_lock _ Hp x)|].
      repeat (apply elem_of_cons in Hin as [?|Hin]; [discriminate|]).
      by apply not_elem_of_nil in Hin.
    + intros Hw. rewrite Hw. solve_never_pending.
    + intros r d Hin. apply elem_of_app in Hin as [Hin|Hin];
        [by apply (all_plain_dispatch_ok _ Hp r d)|].
      repeat (apply elem_of_cons in Hin as [?|Hin]; [discriminate|]).
      by apply not_elem_of_nil in Hin.
  - simplify_eq.
    destruct (retire_head_history c) as (evs' & Eh' & Hp').
    destruct (retire_head_frame c) as (Hf & Hw & Ho & _).
    exists evs'. repeat split; try congruence.
    + by apply all_plain_no_lock.
    + intros _. by apply all_plain_never_pending.
    + by apply all_plain_dispatch_ok.
Qed.

Lemma swap_loop_spec K drain fuel : ∀ c c',
  swap_loop K drain fuel c = Done (tt, c') →
  ∃ evs, ctx_history c' = ctx_history c ++ evs
         ∧ vsync_fences (ctx_priv c') = vsync_fences (ctx_priv c)
         ∧ ctx_opts c' = ctx_opts c
         ∧ (∀ r, EvLockFrontBuffer r ∉ evs)
         ∧ (dispatch_ok evs → never_pending evs)
         ∧ (drain = true →
            (num_bos (ctx_priv c') ≤ 1)%nat
            ∧ (dispatch_ok evs → waiting_for_flip (ctx_priv c') = false)).
Proof.
  induction fuel as [|fuel IH]; intros c c' H; cbn [swap_loop] in H;
    unfold swap_body in H; exec H.
  all: match goal with E : swap_condition _ _ _ = Done _ |- _ =>
         apply swap_condition_spec in E;
         destruct E as (evs0 & Eh0 & Hp0 & Ep0 & Eo0 & Hd0) end.
  all: simplify_eq.
  1, 2: exists evs0; rewrite Ep0;
        split; [done|]; split; [done|]; split; [done|];
        split; [by apply all_plain_no_lock|];
        split; [intros _; by apply all_plain_never_pending|];
        intros ->; specialize (Hd0 eq_refl); subst; discriminate.
  all: match goal with E : retire_flipped _ _ _ = Done _ |- _ =>
         apply retire_flipped_spec in E;
         destruct E as (evs1 & Eh1 & Ef1 & Eo1 & Hnp1 & Hl1 & Hd1) end.
  all: match goal with E : flip_next _ _ = Done _ |- _ =>
         apply flip_next_spec in E;
         destruct E as (evs2 & Eh2 & Ef2 & Eo2 & Hl2 & Hnp2 & Hd2 & Hb2) end.
  - (* the loop goes round *)
    apply IH in H. destruct H as (evs3 & Eh3 & Ef3 & Eo3 & Hl3 & Hnp3 & Hb3).
    exists (evs0 ++ evs1 ++ evs2 ++ evs3).
    split; [rewrite Eh3, Eh2, Eh1, Eh0; by rewrite <- !app_assoc|].
    split; [rewrite Ef3, Ef2, Ef1; by rewrite Ep0|].
    split; [congruence|].
    split.
    { intros x Hin. repeat (apply elem_of_app in Hin as [Hin|Hin]);
        [by apply (all_plain_no_lock _ Hp0 x)|by apply (Hl1 x)|by apply (Hl2 x)
        |by apply (Hl3 x)]. }
    split.
    { intros Hd. apply dispatch_ok_app in Hd as [_ Hd].
      apply dispatch_ok_app in Hd as [Hd1' Hd]. apply dispatch_ok_app in Hd as [_ Hd3'].
      unfold never_pending. repeat apply Forall_app_2; auto.
      - by apply all_plain_never_pending.
      - apply Hnp2; auto.
      - by apply Hnp3. }
    intros Hdrain. destruct (Hb3 Hdrain) as [Hn Hw]. split; [exact Hn|].
    intros Hd. apply Hw. repeat (apply dispatch_ok_app in Hd as [_ Hd]). exact Hd.
  - (* the break *)
    destruct (Hb2 eq_refl) as [Hn Hw].
    exists (evs0 ++ evs1 ++ evs2).
    split; [rewrite Eh2, Eh1, Eh0; by rewrite <- !app_assoc|].
    split; [rewrite Ef2, Ef1; by rewrite Ep0|].
    split; [congruence|].
    split.
    { intros x Hin. repeat (apply elem_of_app in Hin as [Hin|Hin]);
        [by apply (all_plain_no_lock _ Hp0 x)|by apply (Hl1 x)|by apply (Hl2 x)]. }
    split.
    { intros Hd. apply dispatch_ok_app in Hd as [_ Hd].
      apply dispatch_ok_app in Hd as [Hd1' _].
      unfold never_pending. repeat apply Forall_app_2; auto.
      - by apply all_plain_never_pending.
      - apply Hnp2; auto. }
    intros _. split; [exact Hn|].
    intros Hd. rewrite Hw. apply Hd1.
    apply dispatch_ok_app in Hd as [_ Hd]. by apply dispatch_ok_app in Hd as [? _].
Qed.

(** ** [drm_egl_swap_buffers] *)

Lemma swap_buffers_inactive K fuel c :
  active (ctx_priv c) = false → drm_egl_swap_buffers K fuel c = Done (tt, c).
Proof.
  intros Ha. unfold drm_egl_swap_buffers. engine_cbv. by rewrite Ha.
Qed.

Lemma swap_buffers_spec K fuel c c' :
  active (ctx_priv c) = true →
  drm_egl_swap_buffers K fuel c = Done (tt, c') →
  ∃ evs, ctx_history c' = ctx_history c ++ evs
         ∧ (dispatch_ok evs → never_pending evs)
         ∧ (EvLockFrontBuffer None ∉ evs →
            paused (ctx_priv c) || still (ctx_priv c) = true →
            (num_bos (ctx_priv c') ≤ 1)%nat
            ∧ (dispatch_ok evs → waiting_for_flip (ctx_priv c') = false)).
Proof.
  intros Ha H. unfold drm_egl_swap_buffers in H.
  destruct (wait_fence_spec c) as (c1 & evs1 & Ew & Ec1 & _ & Hp1).
  assert (ctx_history c1 = ctx_history c ++ evs1) as Eh1 by (by rewrite Ec1).
  clear Ec1.
  engine_cbv_in H. rewrite Ha in H. cbn [negb] in H. rewrite Ew in H.
  run H with (lock_front_buffer_spec, enqueue_bo_inv).
  - (* a buffer was locked *)
    match goal with E : new_fence _ _ = Done _ |- _ =>
      apply new_fence_spec in E; rename E into Hnf end.
    apply swap_loop_spec in H.
    destruct H as (evs3 & Eh3 & _ & _ & Hl3 & Hnp3 & Hb3).
    match type of Eh3 with ctx_history _ = ctx_history ?r ++ _ =>
      assert (∃ evs2, ctx_history r = ctx_history c ++ evs1 ++
                        [EvSwapBuffers; EvLockFrontBuffer (Some g)] ++ evs2
                      ∧ all_plain evs2) as (evs2 & Eh2 & Hp2)
    end.
    { destruct Hnf as [->|[[x ->]| [f ->]]]; engine_fields; rewrite Eh1.
      - exists []. split; [history_ext|constructor].
      - exists [EvFenceSync x]. split; [history_ext|by repeat constructor].
      - exists [EvFenceSync (Some f)]. split; [history_ext|by repeat constructor]. }
    exists (evs1 ++ [EvSwapBuffers; EvLockFrontBuffer (Some g)] ++ evs2 ++ evs3).
    split; [rewrite Eh3, Eh2; by rewrite <- !app_assoc|].
    assert (dispatch_ok
              (evs1 ++ [EvSwapBuffers; EvLockFrontBuffer (Some g)] ++ evs2 ++ evs3)
            → dispatch_ok evs3) as Hd3.
    { intros Hd. apply dispatch_ok_app in Hd as [_ Hd].
      apply dispatch_ok_app in Hd as [_ Hd]. by apply dispatch_ok_app in Hd as [_ Hd]. }
    split.
    + intros Hd. unfold never_pending. repeat apply Forall_app_2.
      * by apply all_plain_never_pending.
      * by repeat constructor.
      * by apply all_plain_never_pending.
      * apply Hnp3, Hd3, Hd.
    + intros _ Hdrain. destruct (Hb3 Hdrain) as [Hn Hw]. split; [exact Hn|].
      intros Hd. apply Hw, Hd3, Hd.
  - (* no buffer: the frame is dropped *)
    simplify_eq. engine_fields.
    exists (evs1 ++ [EvSwapBuffers; EvLockFrontBuffer None]).
    split; [rewrite Eh1; history_ext|].
    split.
    + intros _. unfold never_pending. apply Forall_app_2;
        [by apply all_plain_never_pending|by repeat constructor].
    + intros Hno. exfalso. apply Hno. apply elem_of_app. right. by repeat constructor.
Qed.

(** ** The CRTC session *)

Lemma modeset_commits_snoc h e :
  modeset_commits (h ++ [e])
  = (modeset_commits h + if is_modeset_commit e then 1 else 0)%nat.
Proof.
  unfold modeset_commits. rewrite List.filter_app, length_app. f_equal.
  simpl. by destruct (is_modeset_commit e).
Qed.

Lemma modeset_commits_plain h evs :
  all_plain evs → modeset_commits (h ++ evs) = modeset_commits h.
Proof.
  intros Hp. unfold modeset_commits. rewrite List.filter_app, length_app.
  replace (List.filter is_modeset_commit evs) with (@nil event); [simpl; lia|].
  induction Hp as [|e evs He _ IH]; [done|]. simpl.
  destruct e; try discriminate He; exact IH.
Qed.

#[export] Hint Rewrite modeset_commits_snoc : commits.
#[export] Hint Rewrite modeset_commits_plain using assumption : commits.

Lemma set_properties_spec K props : ∀ req c req' c',
  set_properties K req props c = Done (req', c') →
  ∃ evs, c' = set_ctx_history (ctx_history c ++ evs) c ∧ all_plain evs.
Proof.
  induction props as [|[[o name] v] props IH]; intros req c req' c' H;
    cbn [set_properties] in H.
  - engine_cbv_in H. simplify_eq. exists []. rewrite app_nil_r.
    split; [|constructor]. by match goal with |- ?x = _ => destruct x end.
  - run H with drm_object_set_property_spec. apply IH in H as (evs & -> & Hp).
    exists (EvSetProperty o name v z :: evs). engine_fields.
    split; [by rewrite <- app_assoc|by constructor].
Qed.

Lemma crtc_setup_spec K c r c' :
  crtc_setup K c = Done (r, c') →
  active (ctx_priv c') = true
  ∧ (modeset_commits (ctx_history c') ≤ S (modeset_commits (ctx_history c)))%nat
  ∧ (active (ctx_priv c) = true → c' = c)
  ∧ (active (ctx_priv c) = false → r = true →
     modeset_commits (ctx_history c') = S (modeset_commits (ctx_history c))).
Proof.
  intros H. unfold crtc_setup in H.
  run H with (save_old_state_spec, drmModeAtomicAlloc_spec,
              drm_object_set_property_spec, ensure_blob_spec,
              drm_object_get_property_spec, set_properties_spec,
              drmModeAtomicCommit_spec); simplify_eq.
  all: split; [engine_fields; try reflexivity; assumption|].
  all: split; [count_commits|].
  all: split; [intros; try reflexivity; congruence|].
  all: intros Hf Hr; try congruence; count_commits.
Qed.

Lemma crtc_setup_active K c :
  active (ctx_priv c) = true → crtc_setup K c = Done (true, c).
Proof. intros Ha. unfold crtc_setup. engine_cbv. by rewrite Ha. Qed.

Lemma crtc_release_spec K c c' :
  crtc_release K c = Done (tt, c') →
  active (ctx_priv c') = false
  ∧ (modeset_commits (ctx_history c') ≤ S (modeset_commits (ctx_history c)))%nat.
Proof.
  intros H. unfold crtc_release in H.
  run H with (drmModeAtomicAlloc_spec, restore_old_state_spec,
              drmModeAtomicCommit_spec); simplify_eq; unnegb.
  all: split; [engine_fields; try reflexivity; assumption|count_commits].
Qed.

Lemma crtc_release_inactive K c :
  active (ctx_priv c) = false → crtc_release K c = Done (tt, c).
Proof. intros Ha. unfold crtc_release. engine_cbv. by rewrite Ha. Qed.

(** The calls of a [crtc_release] that restores the old state: the request
    is allocated, filled by [drm_atomic_restore_old_state], committed with
    [DRM_MODE_ATOMIC_ALLOW_MODESET] and freed. *)
Lemma crtc_release_restores K c c' :
  crtc_release K c = Done (tt, c') →
  active (ctx_priv c) = true →
  kms_old_state_saved (ctx_priv c) = true →
  env_AtomicAlloc K (ctx_history c) = true →
  ∃ ok ret,
    ctx_history c'
    = ctx_history c
      ++ [EvAtomicAlloc true; EvRestoreOldState ok;
          EvAtomicCommit DRM_MODE_ATOMIC_ALLOW_MODESET (Some []) None
            (waiting_for_flip (ctx_priv c)) ret;
          EvAtomicFree].
Proof.
  intros H Ha Hs Hal.
  unfold crtc_release, drmModeAtomicAlloc, drm_atomic_restore_old_state,
    drmModeAtomicCommit in H.
  engine_cbv_in H. rewrite Ha in H. cbn [negb] in H. engine_cbv_in H.
  rewrite Hs in H. cbn [negb] in H. engine_cbv_in H. rewrite Hal in H.
  engine_cbv_in H.
  destruct (env_restore_old_state K _) as [ok saved].
  engine_cbv_in H. simplify_eq. eexists _, _. engine_fields.
  rewrite <- !app_assoc. reflexivity.
Qed.

(** Without a session, a saved state or a request there is no commit. *)
Lemma crtc_release_no_restore K c c' :
  crtc_release K c = Done (tt, c') →
  active (ctx_priv c) && kms_old_state_saved (ctx_priv c)
    && env_AtomicAlloc K (ctx_history c) = false →
  modeset_commits (ctx_history c') = modeset_commits (ctx_history c).
Proof.
  intros H Hno.
  unfold crtc_release, drmModeAtomicAlloc in H. engine_cbv_in H.
  destruct (active (ctx_priv c)); cbn [negb] in H; engine_cbv_in H;
    [|by simplify_eq].
  destruct (kms_old_state_saved (ctx_priv c)); cbn [negb] in H;
    engine_cbv_in H; [|by simplify_eq].
  cbn [andb] in Hno. rewrite Hno in H. engine_cbv_in H. simplify_eq.
  count_commits.
Qed.

(** ** Format negotiation *)

Lemma scan_formats_fst x y fs : ∀ have,
  (scan_formats x y fs have).1 = have.1 || bool_decide (x ∈ fs).
Proof.
  induction fs as [|f fs IH]; intros [a b]; simpl.
  - by rewrite orb_false_r.
  - rewrite IH. destruct (Z.eqb_spec f x) as [->|Hne]; simpl.
    + rewrite bool_decide_eq_true_2 by apply list_elem_of_here.
      by rewrite orb_true_r.
    + destruct (f =? y); simpl; f_equal; apply bool_decide_ext;
        rewrite elem_of_cons; (split; [by right|by intros [?|?]]).
Qed.

Lemma scan_formats_snd x y fs : ∀ have,
  x ∉ fs → (scan_formats x y fs have).2 = have.2 || bool_decide (y ∈ fs).
Proof.
  induction fs as [|f fs IH]; intros [a b] Hx; simpl.
  - by rewrite orb_false_r.
  - apply not_elem_of_cons in Hx as [Hne Hx]. rewrite IH by done.
    destruct (Z.eqb_spec f x) as [->|_]; [done|].
    destruct (Z.eqb_spec f y) as [->|Hne']; simpl.
    + rewrite bool_decide_eq_true_2 by apply list_elem_of_here.
      by rewrite orb_true_r.
    + f_equal. apply bool_decide_ext. rewrite elem_of_cons.
      split; [by right|by intros [?|?]].
Qed.

Lemma after_calls_reachable K o fuel calls c :
  after_calls K o fuel calls = Some c → reachable K c.
Proof.
  unfold after_calls, reachable. intros H.
  destruct (drm_egl_init K (ctx_zero o)) as [[[] c0]| |] eqn:Hinit; try discriminate.
  destruct (run_calls K fuel calls c0) as [[[] c1]| |] eqn:Hrun; try discriminate.
  simpl in H. simplify_eq. eauto 10.
Qed.

(** * The claims *)



(** C2 (as amended).  When the second-oldest entry examined by the loop has
    no buffer, the oldest entry (the head) is the one retired: it is handed
    back to the producer and removed, the hole becomes the new head, no call
    but that release is made (so no flip is attempted), and the loop goes on
    to its next iteration. *)
Theorem hole_retires_the_head (K : platform) (c : ra_ctx)
    (head hole : gbm_frame) (rest : list gbm_frame) :
  gbm_bo_queue (ctx_priv c) = head :: hole :: rest →
  frame_bo hole = None →
  ∃ c', flip_next K c = Done (Continue, c')
        ∧ gbm_bo_queue (ctx_priv c') = hole :: rest
        ∧ ctx_history c'
          = ctx_history c ++ (match frame_bo head with
                              | Some b => [EvReleaseBuffer b]
                              | None => []
                              end)
        ∧ waiting_for_flip (ctx_priv c') = waiting_for_flip (ctx_priv c)
        ∧ kms_request (ctx_priv c') = kms_request (ctx_priv c)
        ∧ ctx_closures c' = ctx_closures c.
Proof.
  intros Hq Hhole. exists (retire_head c).
  destruct (retire_head_frame c) as (_ & Hw & _ & Hcl & Hreq).
  split; [|split; [|split; [|by rewrite Hw, Hreq, Hcl]]].
  - unfold flip_next. engine_cbv. rewrite Hq. cbn [length Nat.leb].
    engine_cbv. rewrite Hq.
    change ((head :: hole :: rest) !! 1%nat) with (Some hole). cbv beta iota.
    rewrite Hhole. by rewrite swapchain_step_total.
  - unfold retire_head. rewrite Hq. by destruct (frame_bo head).
  - unfold retire_head. rewrite Hq.
    destruct (frame_bo head); engine_fields; [done|by rewrite app_nil_r].
Qed.

(** C2, a queue to apply the theorem to: buffer 1, a hole, buffer 3. *)
Lemma hole_retires_the_head_witness :
  ∃ c', flip_next cooperative hole_ctx = Done (Continue, c')
        ∧ gbm_bo_queue (ctx_priv c')
          = [mk_frame None (mk_vsync_tuple 0 0 2);
             mk_frame (Some 3%nat) (mk_vsync_tuple 0 0 3)]
        ∧ ctx_history c' = ctx_history hole_ctx ++ [EvReleaseBuffer 1%nat]
        ∧ waiting_for_flip (ctx_priv c') = waiting_for_flip (ctx_priv hole_ctx)
        ∧ kms_request (ctx_priv c') = kms_request (ctx_priv hole_ctx)
        ∧ ctx_closures c' = ctx_closures hole_ctx.
Proof.
  exact (hole_retires_the_head cooperative hole_ctx
           (mk_frame (Some 1%nat) (mk_vsync_tuple 0 0 1))
           (mk_frame None (mk_vsync_tuple 0 0 2))
           [mk_frame (Some 3%nat) (mk_vsync_tuple 0 0 3)] eq_refl eq_refl).
Defined.

(** C2, counterexample: with buffer 1, a hole and buffer 3 queued, the
    iteration hands buffer 1 back and removes it; the hole is still in the
    queue afterwards. *)
Lemma hole_is_not_the_entry_retired :
  ∃ c', flip_next cooperative hole_ctx = Done (Continue, c')
        ∧ ctx_history c' = [EvReleaseBuffer 1%nat]
        ∧ gbm_bo_queue (ctx_priv c') !! 0%nat
          = Some (mk_frame None (mk_vsync_tuple 0 0 2))
        ∧ num_bos (ctx_priv c') = 2%nat.
Proof.
  eexists. split; [vm_compute; reflexivity|]. by vm_compute.
Qed.

(** C3 (as amended).  A call of swap-buffers with drain requested on an
    active session, during which the front buffer is locked, returns only
    with at most one buffer queued; the flip-pending flag is then clear
    provided no [drmHandleEvent] of the call failed. *)
Theorem drain_leaves_at_most_one_buffer (K : platform) (fuel : nat)
    (c c' : ra_ctx) :
  active (ctx_priv c) = true →
  paused (ctx_priv c) || still (ctx_priv c) = true →
  drm_egl_swap_buffers K fuel c = Done (tt, c') →
  ∃ evs, ctx_history c' = ctx_history c ++ evs
         ∧ (EvLockFrontBuffer None ∉ evs →
            (num_bos (ctx_priv c') ≤ 1)%nat
            ∧ (dispatch_ok evs → waiting_for_flip (ctx_priv c') = false)).
Proof.
  intros Ha Hdrain H.
  destruct (swap_buffers_spec K fuel c c' Ha H) as (evs & Eh & _ & Hc).
  exists evs. split; [exact Eh|]. intros Hno. exact (Hc Hno Hdrain).
Qed.

(** C3, a run to apply the theorem to: two frames are presented, playback
    is paused, and the next swap drains the queue. *)
Lemma drain_leaves_at_most_one_buffer_witness :
  ∃ evs,
    ctx_history (ctx_after cooperative 10 (paused_calls ++ [SwapBuffers]))
    = ctx_history (ctx_after cooperative 10 paused_calls) ++ evs
    ∧ (EvLockFrontBuffer None ∉ evs →
       (num_bos (ctx_priv (ctx_after cooperative 10 (paused_calls ++ [SwapBuffers])))
        ≤ 1)%nat
       ∧ (dispatch_ok evs →
          waiting_for_flip
            (ctx_priv (ctx_after cooperative 10 (paused_calls ++ [SwapBuffers])))
          = false)).
Proof.
  apply (drain_leaves_at_most_one_buffer cooperative 10
           (ctx_after cooperative 10 paused_calls)).
  - vm_compute. reflexivity.
  - vm_compute. reflexivity.
  - vm_compute. reflexivity.
Defined.

(** C3, counterexample: three frames are presented, the VT is switched away
    and playback is paused.  The swap that follows is asked to drain, and
    returns at once with three buffers queued and the flip still pending. *)
Lemma drain_skipped_when_inactive :
  ∃ c, reachable cooperative c
       ∧ paused (ctx_priv c) || still (ctx_priv c) = true
       ∧ drm_egl_swap_buffers cooperative 10 c = Done (tt, c)
       ∧ num_bos (ctx_priv c) = 3%nat
       ∧ waiting_for_flip (ctx_priv c) = true.
Proof.
  exists (ctx_after cooperative 10 switched_away_calls).
  split; [|split; [|split; [|split]]]; [|vm_compute; reflexivity..].
  apply (after_calls_reachable _ default_opts 10 switched_away_calls).
  vm_compute. reflexivity.
Qed.

(** C4, the failing run: three frames are presented while every
    [drmHandleEvent] fails.  The third swap queues a flip, waits for it, is
    cut short by the failed dispatch with the flag still set, retires the
    head and queues the next flip: a page-flip commit issued while
    [waiting_for_flip] is set. *)
Lemma flip_queued_while_pending :
  ∃ c e, reachable dispatch_fails c
         ∧ e ∈ ctx_history c
         ∧ flip_while_pending e = true.
Proof.
  exists (ctx_after dispatch_fails 10 steady_calls).
  eexists. split; [|split].
  - apply (after_calls_reachable _ default_opts 10 steady_calls).
    vm_compute. reflexivity.
  - apply list_elem_of_lookup. exists 62%nat. vm_compute. reflexivity.
  - reflexivity.
Qed.

(** X1.  During a call of swap-buffers in which every [drmHandleEvent]
    returns 0, no page-flip commit is issued while [waiting_for_flip] is
    set. *)
Theorem no_flip_while_pending_if_dispatch_ok (K : platform) (fuel : nat)
    (c c' : ra_ctx) :
  drm_egl_swap_buffers K fuel c = Done (tt, c') →
  ∃ evs, ctx_history c' = ctx_history c ++ evs
         ∧ (dispatch_ok evs → never_pending evs).
Proof.
  intros H. destruct (active (ctx_priv c)) eqn:Ha.
  - destruct (swap_buffers_spec K fuel c c' Ha H) as (evs & Eh & Hnp & _). eauto.
  - rewrite swap_buffers_inactive in H by done. simplify_eq.
    exists []. rewrite app_nil_r. split; [done|]. intros _. constructor.
Qed.


(** A call to apply the theorem to: the third swap of a steady run, which
    waits for the pending flip and queues the next. *)
Lemma no_flip_while_pending_if_dispatch_ok_witness :
  ∃ evs,
    ctx_history (ctx_after cooperative 10 steady_calls)
    = ctx_history (ctx_after cooperative 10 [StartFrame; SwapBuffers; SwapBuffers])
      ++ evs
    ∧ (dispatch_ok evs → never_pending evs).
Proof.
  apply (no_flip_while_pending_if_dispatch_ok cooperative 10
           (ctx_after cooperative 10 [StartFrame; SwapBuffers; SwapBuffers])).
  vm_compute. reflexivity.
Defined.

(** C5.  A second [crtc_setup] without a teardown in between returns at
    once: no outside call is made and the context is unchanged, so the two
    calls together make the modeset commit of the first call alone, which is
    at most one (exactly one when the first call starts from an inactive
    session and succeeds).  Likewise a second [crtc_release] without a
    setup in between returns at once with the context unchanged, so the two
    calls together make the restore commit of the first alone.  That is
    exactly one commit when the first call finds the session active, the old
    state saved and a request to allocate: the request is allocated, filled
    by [drm_atomic_restore_old_state], committed with
    [DRM_MODE_ATOMIC_ALLOW_MODESET] and freed.  It is no commit when the
    session is inactive, no state was saved or the allocation fails. *)
Theorem session_setup_and_teardown_idempotent (K : platform)
    (c c1 d d1 : ra_ctx) (r : bool) :
  crtc_setup K c = Done (r, c1) →
  crtc_release K d = Done (tt, d1) →
  (crtc_setup K c1 = Done (true, c1)
   ∧ (modeset_commits (ctx_history c1) ≤ S (modeset_commits (ctx_history c)))%nat
   ∧ (active (ctx_priv c) = false → r = true →
      modeset_commits (ctx_history c1) = S (modeset_commits (ctx_history c))))
  ∧ (crtc_release K d1 = Done (tt, d1)
     ∧ (modeset_commits (ctx_history d1) ≤ S (modeset_commits (ctx_history d)))%nat
     ∧ (active (ctx_priv d) = true →
        kms_old_state_saved (ctx_priv d) = true →
        env_AtomicAlloc K (ctx_history d) = true →
        modeset_commits (ctx_history d1) = S (modeset_commits (ctx_history d))
        ∧ ∃ ok ret,
            ctx_history d1
            = ctx_history d
              ++ [EvAtomicAlloc true; EvRestoreOldState ok;
                  EvAtomicCommit DRM_MODE_ATOMIC_ALLOW_MODESET (Some []) None
                    (waiting_for_flip (ctx_priv d)) ret;
                  EvAtomicFree])
     ∧ (active (ctx_priv d) && kms_old_state_saved (ctx_priv d)
          && env_AtomicAlloc K (ctx_history d) = false →
        modeset_commits (ctx_history d1) = modeset_commits (ctx_history d))).
Proof.
  intros Hs Hr.
  apply crtc_setup_spec in Hs as (Ha & Hn & _ & Hone).
  pose proof (crtc_release_restores K d d1 Hr) as Hrestore.
  pose proof (crtc_release_no_restore K d d1 Hr) as Hnone.
  apply crtc_release_spec in Hr as (Hi & Hm).
  split; [split; [|split]|split; [|split; [|split]]]; auto.
  - by apply crtc_setup_active.
  - by apply crtc_release_inactive.
  - intros Hact Hsaved Halloc.
    destruct (Hrestore Hact Hsaved Halloc) as (ok & ret & Hh).
    split; [|by exists ok, ret].
    rewrite Hh. unfold modeset_commits.
    rewrite List.filter_app, List.length_app. cbn. lia.
Qed.

(** C5, a run to apply the theorem to: after a VT switch-away the session is
    set up again, and torn down.  The setup starts from an inactive session
    and succeeds; the teardown finds the session active, the old state saved
    and a request to allocate. *)
Lemma session_setup_and_teardown_idempotent_witness :
  (crtc_setup cooperative set_up_ctx = Done (true, set_up_ctx)
   ∧ modeset_commits (ctx_history set_up_ctx)
     = S (modeset_commits (ctx_history inactive_ctx)))
  ∧ (crtc_release cooperative torn_down_ctx = Done (tt, torn_down_ctx)
     ∧ modeset_commits (ctx_history torn_down_ctx)
       = S (modeset_commits (ctx_history set_up_ctx))
     ∧ ∃ ok ret,
         ctx_history torn_down_ctx
         = ctx_history set_up_ctx
           ++ [EvAtomicAlloc true; EvRestoreOldState ok;
               EvAtomicCommit DRM_MODE_ATOMIC_ALLOW_MODESET (Some []) None
                 (waiting_for_flip (ctx_priv set_up_ctx)) ret;
               EvAtomicFree]).
Proof.
  destruct (session_setup_and_teardown_idempotent cooperative
              inactive_ctx set_up_ctx set_up_ctx torn_down_ctx true)
    as [(Hsetup & _ & Hone) (Hrelease & _ & Hrestore & _)].
  - vm_compute. reflexivity.
  - vm_compute. reflexivity.
  - split; [split; [exact Hsetup|]|split; [exact Hrelease|]].
    + apply Hone; reflexivity.
    + apply Hrestore; vm_compute; reflexivity.
Defined.

(** C6 (as amended).  A [queue_flip] that returns has made exactly one
    commit, non-blocking and with the page-flip-event flag, followed by the
    release of the live request and a fresh allocation.  If the commit
    failed the closure is freed and the flag is false; if it succeeded the
    closure is kept for the kernel and the flag is true.  In both cases the
    live request is what the fresh allocation returned: an empty request
    when it succeeded, none when it failed. *)
Theorem queue_flip_outcome (K : platform) (frame : gbm_frame) (c c' : ra_ctx) :
  queue_flip K frame c = Done (tt, c') →
  ∃ evs req ret ok,
    ctx_history c' =
      ctx_history c ++ evs ++
        [EvAtomicCommit (Z.lor DRM_MODE_ATOMIC_NONBLOCK DRM_MODE_PAGE_FLIP_EVENT)
           req (Some (mk_closure (frame_vsync frame)))
           (waiting_for_flip (ctx_priv c)) ret;
         EvAtomicFree; EvAtomicAlloc ok]
    ∧ all_plain evs
    ∧ waiting_for_flip (ctx_priv c') = (ret =? 0)
    ∧ ctx_closures c' =
        (if ret =? 0 then ctx_closures c ++ [mk_closure (frame_vsync frame)]
         else ctx_closures c)
    ∧ kms_request (ctx_priv c') = (if ok : bool then Some [] else None).
Proof.
  intros H. apply queue_flip_spec in H.
  destruct H as (evs & req & ret & ok & Eh & Hp & _ & _ & _ & Hw & Hreq & Hcl).
  exists evs, req, ret, ok. auto.
Qed.

(** C6, a call to apply the theorem to: two buffers are queued and the flip
    to the second is queued. *)
Lemma queue_flip_outcome_witness :
  ∃ evs req ret ok,
    ctx_history
      (result_ctx (queue_flip cooperative second_frame
                     (ctx_after cooperative 10 two_queued_calls))) =
      ctx_history (ctx_after cooperative 10 two_queued_calls) ++ evs ++
        [EvAtomicCommit (Z.lor DRM_MODE_ATOMIC_NONBLOCK DRM_MODE_PAGE_FLIP_EVENT)
           req (Some (mk_closure (frame_vsync second_frame)))
           (waiting_for_flip (ctx_priv (ctx_after cooperative 10 two_queued_calls)))
           ret;
         EvAtomicFree; EvAtomicAlloc ok]
    ∧ all_plain evs
    ∧ waiting_for_flip
        (ctx_priv (result_ctx (queue_flip cooperative second_frame
                                 (ctx_after cooperative 10 two_queued_calls))))
      = (ret =? 0)
    ∧ ctx_closures
        (result_ctx (queue_flip cooperative second_frame
                       (ctx_after cooperative 10 two_queued_calls)))
      = (if ret =? 0
         then ctx_closures (ctx_after cooperative 10 two_queued_calls)
              ++ [mk_closure (frame_vsync second_frame)]
         else ctx_closures (ctx_after cooperative 10 two_queued_calls))
    ∧ kms_request
        (ctx_priv (result_ctx (queue_flip cooperative second_frame
                                 (ctx_after cooperative 10 two_queued_calls))))
      = (if ok : bool then Some [] else None).
Proof.
  apply (queue_flip_outcome cooperative second_frame
           (ctx_after cooperative 10 two_queued_calls)).
  vm_compute. reflexivity.
Defined.

(** C6, counterexample: the kernel cannot allocate a request any more.  The
    flip to the second queued buffer is committed, the request is freed,
    and [queue_flip] returns with no live request at all. *)
Lemma queue_flip_can_leave_no_request :
  ∃ c',
    gbm_bo_queue (ctx_priv (ctx_after alloc_fails_later 10 two_queued_calls))
      !! 1%nat = Some second_frame
    ∧ kms_request (ctx_priv (ctx_after alloc_fails_later 10 two_queued_calls))
      = Some []
    ∧ queue_flip alloc_fails_later second_frame
        (ctx_after alloc_fails_later 10 two_queued_calls) = Done (tt, c')
    ∧ waiting_for_flip (ctx_priv c') = true
    ∧ kms_request (ctx_priv c') = None.
Proof.
  exists (result_ctx (queue_flip alloc_fails_later second_frame
                        (ctx_after alloc_fails_later 10 two_queued_calls))).
  split; [|split; [|split; [|split]]]; vm_compute; reflexivity.
Qed.

(** C8.  Given the formats of the draw plane, [probe_gbm_format] selects the
    alpha format and succeeds when the plane has it, selects the opaque
    format and succeeds when the plane has only that, and fails, leaving
    [gbm_format] as it was, when the plane has neither. *)
Theorem probe_gbm_format_selection (K : platform) (c : ra_ctx)
    (formats : list Z) (argb_format xrgb_format : Z) :
  env_GetPlane K (ctx_history c) = Some formats →
  (argb_format ∈ formats →
     probe_gbm_format K argb_format xrgb_format c
     = Done (true, set_ctx_priv (set_gbm_format argb_format (ctx_priv c))
                     (log (EvGetPlane (Some formats)) c)))
  ∧ (argb_format ∉ formats → xrgb_format ∈ formats →
     probe_gbm_format K argb_format xrgb_format c
     = Done (true, set_ctx_priv (set_gbm_format xrgb_format (ctx_priv c))
                     (log (EvGetPlane (Some formats)) c)))
  ∧ (argb_format ∉ formats → xrgb_format ∉ formats →
     probe_gbm_format K argb_format xrgb_format c
     = Done (false, log (EvGetPlane (Some formats)) c)).
Proof.
  intros Hplane.
  assert (probe_gbm_format K argb_format xrgb_format c
          = (let have := scan_formats argb_format xrgb_format formats (false, false) in
             if have.1
             then Done (true, set_ctx_priv (set_gbm_format argb_format (ctx_priv c))
                                (log (EvGetPlane (Some formats)) c))
             else if have.2
             then Done (true, set_ctx_priv (set_gbm_format xrgb_format (ctx_priv c))
                                (log (EvGetPlane (Some formats)) c))
             else Done (false, log (EvGetPlane (Some formats)) c))) as Hrun.
  { unfold probe_gbm_format, drmModeGetPlane. engine_cbv.
    rewrite Hplane. engine_cbv.
    destruct (scan_formats argb_format xrgb_format formats (false, false)) as [[] []];
      reflexivity. }
  cbv zeta in Hrun.
  split; [|split].
  - intros Hin. rewrite Hrun, scan_formats_fst. simpl.
    by rewrite bool_decide_eq_true_2.
  - intros Hni Hin. rewrite Hrun, scan_formats_fst, scan_formats_snd by done. simpl.
    rewrite bool_decide_eq_false_2 by done. by rewrite bool_decide_eq_true_2.
  - intros Hni Hni'. rewrite Hrun, scan_formats_fst, scan_formats_snd by done. simpl.
    by rewrite !bool_decide_eq_false_2.
Qed.

(** C8, a plane to apply the theorem to: it has XRGB8888 and ARGB8888, and
    ARGB8888 is selected. *)
Lemma probe_gbm_format_selection_witness :
  probe_gbm_format cooperative GBM_FORMAT_ARGB8888 GBM_FORMAT_XRGB8888
    (ctx_zero default_opts)
  = Done (true,
          set_ctx_priv (set_gbm_format GBM_FORMAT_ARGB8888 priv_zero)
            (log (EvGetPlane (Some [GBM_FORMAT_XRGB8888; GBM_FORMAT_ARGB8888]))
               (ctx_zero default_opts))).
Proof.
  apply (probe_gbm_format_selection cooperative (ctx_zero default_opts)
           [GBM_FORMAT_XRGB8888; GBM_FORMAT_ARGB8888]
           GBM_FORMAT_ARGB8888 GBM_FORMAT_XRGB8888 eq_refl).
  apply list_elem_of_further, list_elem_of_here.
Defined.

(** C9.  On an inactive session [drm_egl_swap_buffers] returns at once:
    the context, history of outside calls included, is unchanged. *)
Theorem swap_buffers_inactive_is_noop (K : platform) (fuel : nat) (c : ra_ctx) :
  active (ctx_priv c) = false →
  drm_egl_swap_buffers K fuel c = Done (tt, c).
Proof. apply swap_buffers_inactive. Qed.

(** C9, a context to apply the theorem to: the VT was switched away. *)
Lemma swap_buffers_inactive_is_noop_witness :
  drm_egl_swap_buffers cooperative 10 inactive_ctx = Done (tt, inactive_ctx).
Proof.
  apply (swap_buffers_inactive_is_noop cooperative 10 inactive_ctx).
  vm_compute. reflexivity.
Defined.

(** C10, a context to apply the theorem to: the zeroed context, whose queue
    is empty, and a sequence that retires more often than it enqueues. *)
Lemma swapchain_step_on_empty_queue_witness :
  swapchain_step (ctx_zero default_opts) = Done (tt, ctx_zero default_opts)
  ∧ (∀ c0, ∃ c1, swapchain_step c0 = Done (tt, c1)
                 ∧ num_bos (ctx_priv c1) = Nat.pred (num_bos (ctx_priv c0)))
  ∧ ∃ c', run_ops [Retire; Enqueue 1%nat; Retire; Retire] (ctx_zero default_opts)
          = Done (tt, c').
Proof.
  exact (swapchain_step_on_empty_queue (ctx_zero default_opts)
           [Retire; Enqueue 1%nat; Retire; Retire] eq_refl).
Defined.

(** * Further properties of the code *)

(** ** Formats *)

Lemma find_config_bounds v cs : ∀ j0 j,
  find_config v cs j0 = Some j →
  j0 ≤ j < j0 + Z.of_nat (length cs)
  ∧ cs !! Z.to_nat (j - j0) = Some (Some v)
  ∧ ∀ i, (i < Z.to_nat (j - j0))%nat → cs !! i ≠ Some (Some v).
Proof.
  induction cs as [|a cs IH]; intros j0 j H; simpl in H; [done|].
  assert (Hrest : find_config v cs (j0 + 1) = Some j →
          j0 ≤ j < j0 + Z.of_nat (length (a :: cs))
          ∧ (a :: cs) !! Z.to_nat (j - j0) = Some (Some v)
          ∧ ∀ i, (i < Z.to_nat (j - j0))%nat → (a :: cs) !! i ≠ Some (Some v)
            ∨ a = Some v).
  { intros H'. apply IH in H' as (Hb & Hl & Hf).
    replace (Z.to_nat (j - j0)) with (S (Z.to_nat (j - (j0 + 1)))) by lia.
    simpl length. split; [lia|]. split; [exact Hl|].
    intros [|i] Hi; [|left; simpl; apply Hf; lia].
    destruct (decide (a = Some v)); [by right|left; simpl; congruence]. }
  destruct a as [id|].
  - destruct (v =? id) eqn:E.
    + apply Z.eqb_eq in E. simplify_eq. simpl length.
      replace (j - j) with 0 by lia. split; [lia|]. split; [done|]. intros i Hi. simpl in Hi. lia.
    + apply Z.eqb_neq in E. destruct (Hrest H) as (Hb & Hl & Hf).
      split; [exact Hb|]. split; [exact Hl|].
      intros i Hi. destruct (Hf i Hi) as [?|?]; [done|congruence].
  - destruct (Hrest H) as (Hb & Hl & Hf).
    split; [exact Hb|]. split; [exact Hl|].
    intros i Hi. destruct (Hf i Hi) as [?|?]; [done|congruence].
Qed.

Lemma find_config_None v cs : ∀ j0,
  find_config v cs j0 = None → Some v ∉ cs.
Proof.
  induction cs as [|a cs IH]; intros j0 H; simpl in H; [by apply not_elem_of_nil|].
  apply not_elem_of_cons. destruct a as [id|].
  - destruct (v =? id) eqn:E; [done|]. apply Z.eqb_neq in E.
    split; [congruence|by eapply IH].
  - split; [done|by eapply IH].
Qed.

Lemma find_config_is_Some v cs j0 :
  Some v ∈ cs → is_Some (find_config v cs j0).
Proof.
  intros Hin. destruct (find_config v cs j0) eqn:E; [eauto|].
  by apply find_config_None in E.
Qed.

Lemma fallback_format_for_cases f :
  (f = GBM_FORMAT_XRGB8888 ∨ f = GBM_FORMAT_ARGB8888
   ∨ f = GBM_FORMAT_XBGR8888 ∨ f = GBM_FORMAT_ABGR8888
   ∨ f = GBM_FORMAT_XRGB2101010 ∨ f = GBM_FORMAT_ARGB2101010
   ∨ f = GBM_FORMAT_XBGR2101010 ∨ f = GBM_FORMAT_ABGR2101010)
  ∨ (fallback_format_for f = 0 ∧ gbm_format_to_string f = "UNKNOWN").
Proof.
  unfold fallback_format_for, gbm_format_to_string.
  repeat (match goal with
          | |- context [?a =? ?b] =>
              destruct (Z.eqb_spec a b); [left; tauto|]
          end).
  by right.
Qed.

(** X2.  [fallback_format_for] exchanges the two members of each of the four
    format pairs: on a format the file uses, applying it twice gives the
    format back and the result is never the format itself; on any other
    format it gives 0, and those are exactly the formats
    [gbm_format_to_string] calls UNKNOWN. *)
Theorem fallback_format_for_exchanges_pairs (f : Z) :
  (fallback_format_for f ≠ 0 ∧ fallback_format_for f ≠ f
   ∧ fallback_format_for (fallback_format_for f) = f
   ∧ gbm_format_to_string f ≠ "UNKNOWN"
   ∧ gbm_format_to_string (fallback_format_for f) ≠ "UNKNOWN")
  ∨ (fallback_format_for f = 0 ∧ gbm_format_to_string f = "UNKNOWN").
Proof.
  destruct (fallback_format_for_cases f) as [H|H]; [left|by right].
  repeat (destruct H as [->|H]); try subst f; by vm_compute.
Qed.

(** X3.  Whatever the [drm-format] option is, the two formats
    [drm_egl_init] probes the draw plane for are each other's fallback: the
    EGL configuration looked for when the probed format has none is the one
    of the other format of the pair. *)
Theorem init_formats_are_fallbacks (drm_format : Z) :
  fallback_format_for (formats_for drm_format).1 = (formats_for drm_format).2
  ∧ fallback_format_for (formats_for drm_format).2 = (formats_for drm_format).1.
Proof.
  unfold formats_for.
  repeat (match goal with
          | |- context [?a =? ?b] => destruct (a =? b)
          end); by vm_compute.
Qed.

(** ** The EGL configuration matched to the format *)

Lemma try_visuals_two v1 v2 cs :
  try_visuals [v1; v2; 0] cs =
  if v1 =? 0 then -1
  else match find_config v1 cs 0 with
       | Some j => j
       | None =>
           if v2 =? 0 then -1
           else match find_config v2 cs 0 with
                | Some j => j
                | None => -1
                end
       end.
Proof.
  simpl. destruct (v1 =? 0); [done|]. destruct (find_config v1 cs 0); [done|].
  destruct (v2 =? 0); [done|]. by destruct (find_config v2 cs 0).
Qed.

(** X4.  [match_config_to_visual] returns -1 or the index of a
    configuration of the list whose native visual is the probed format or
    its fallback, and never one whose visual is 0 or could not be queried.
    It returns -1 only if no configuration has either visual (or the format
    is 0, which ends the search before it starts). *)
Theorem match_config_to_visual_result (p : priv) (configs : list (option Z)) :
  (match_config_to_visual p configs = -1
   ∧ (to_EGLint (gbm_format p) = 0
      ∨ ((Some (to_EGLint (gbm_format p)) ∉ configs)
         ∧ (to_EGLint (fallback_format_for (gbm_format p)) = 0
            ∨ (Some (to_EGLint (fallback_format_for (gbm_format p))) ∉ configs)))))
  ∨ (0 ≤ match_config_to_visual p configs < Z.of_nat (length configs)
     ∧ ∃ id, configs !! Z.to_nat (match_config_to_visual p configs) = Some (Some id)
             ∧ id ≠ 0
             ∧ (id = to_EGLint (gbm_format p)
                ∨ id = to_EGLint (fallback_format_for (gbm_format p)))).
Proof.
  unfold match_config_to_visual. rewrite try_visuals_two.
  set (format := to_EGLint (gbm_format p)).
  set (fallback := to_EGLint (fallback_format_for (gbm_format p))).
  destruct (Z.eqb_spec format 0) as [E0|E0]; [left; auto|].
  destruct (find_config format configs 0) as [j|] eqn:E1.
  { right. apply find_config_bounds in E1 as (Hb & Hl & _).
    rewrite Z.sub_0_r in Hl. split; [lia|]. exists format. auto. }
  apply find_config_None in E1.
  destruct (Z.eqb_spec fallback 0) as [F0|F0]; [left; auto|].
  destruct (find_config fallback configs 0) as [j|] eqn:E2.
  { right. apply find_config_bounds in E2 as (Hb & Hl & _).
    rewrite Z.sub_0_r in Hl. split; [lia|]. exists fallback. auto. }
  apply find_config_None in E2. left. auto.
Qed.

(** X5.  The probed format is preferred to its fallback, and the first
    match wins: when some configuration has the format's visual,
    [match_config_to_visual] returns the index of the first such
    configuration, also when a configuration with the fallback's visual
    comes earlier in the list. *)
Theorem match_config_to_visual_prefers_format (p : priv)
    (configs : list (option Z)) (j : nat) :
  to_EGLint (gbm_format p) ≠ 0 →
  configs !! j = Some (Some (to_EGLint (gbm_format p))) →
  ∃ i, match_config_to_visual p configs = Z.of_nat i
       ∧ (i ≤ j)%nat
       ∧ configs !! i = Some (Some (to_EGLint (gbm_format p)))
       ∧ ∀ k, (k < i)%nat → configs !! k ≠ Some (Some (to_EGLint (gbm_format p))).
Proof.
  intros Hnz Hj. unfold match_config_to_visual. rewrite try_visuals_two.
  destruct (Z.eqb_spec (to_EGLint (gbm_format p)) 0) as [?|_]; [done|].
  destruct (find_config_is_Some (to_EGLint (gbm_format p)) configs 0) as [r Hr].
  { by eapply list_elem_of_lookup_2. }
  rewrite Hr. apply find_config_bounds in Hr as (Hb & Hl & Hf).
  rewrite Z.sub_0_r in Hl, Hf. exists (Z.to_nat r).
  split; [lia|]. split; [|split; [exact Hl|exact Hf]].
  destruct (decide (Z.to_nat r ≤ j)%nat) as [|Hgt]; [done|].
  exfalso. apply (Hf j); [lia|exact Hj].
Qed.

(** A list to apply the theorem to: the first configuration has the
    fallback's visual, the second cannot be queried, the third and the
    fourth have the format's; the third is chosen. *)
Lemma match_config_to_visual_prefers_format_witness :
  ∃ i, match_config_to_visual (set_gbm_format GBM_FORMAT_XRGB8888 priv_zero)
         [Some GBM_FORMAT_ARGB8888; None; Some GBM_FORMAT_XRGB8888;
          Some GBM_FORMAT_XRGB8888] = Z.of_nat i
       ∧ (i ≤ 3)%nat
       ∧ [Some GBM_FORMAT_ARGB8888; None; Some GBM_FORMAT_XRGB8888;
          Some GBM_FORMAT_XRGB8888] !! i = Some (Some GBM_FORMAT_XRGB8888)
       ∧ ∀ k, (k < i)%nat →
              [Some GBM_FORMAT_ARGB8888; None; Some GBM_FORMAT_XRGB8888;
               Some GBM_FORMAT_XRGB8888] !! k ≠ Some (Some GBM_FORMAT_XRGB8888).
Proof.
  apply (match_config_to_visual_prefers_format
           (set_gbm_format GBM_FORMAT_XRGB8888 priv_zero)
           [Some GBM_FORMAT_ARGB8888; None; Some GBM_FORMAT_XRGB8888;
            Some GBM_FORMAT_XRGB8888] 3).
  - vm_compute. discriminate.
  - vm_compute. reflexivity.
Defined.

(** ** Modifier negotiation *)

Lemma modifier_has_format_spec fmts formats offset fmt ks :
  Forall (λ k, Z.testbit formats k = true →
               is_Some (fmts !! Z.to_nat (k + offset))) ks →
  modifier_has_format fmts formats offset fmt ks
  = Some (existsb (mask_names fmts formats offset fmt) ks).
Proof.
  induction 1 as [|k ks Hk _ IH]; cbn [modifier_has_format existsb]; [done|].
  unfold mask_names at 1. destruct (Z.testbit formats k); cbn [andb orb]; [|exact IH].
  destruct (Hk eq_refl) as [f Hf]. rewrite Hf.
  destruct (Z.eqb_spec f fmt) as [->|Hne].
  - by rewrite bool_decide_eq_true_2.
  - rewrite bool_decide_eq_false_2 by congruence. exact IH.
Qed.

Lemma scan_modifiers_spec fmts fmt mods : ∀ acc,
  blob_in_bounds fmts mods →
  scan_modifiers fmts mods fmt acc
  = Some (acc ++ supported_modifiers fmts mods fmt).
Proof.
  unfold supported_modifiers.
  induction mods as [|[[formats offset] modifier] mods IH]; intros acc Hb;
    cbn [scan_modifiers List.filter].
  - cbn [fmap list_fmap]. by rewrite app_nil_r.
  - apply Forall_cons in Hb as [Hm Hb]. cbn [fst snd] in Hm.
    rewrite (modifier_has_format_spec _ _ _ _ _ Hm).
    unfold modifier_supports at 1. cbn [fst snd].
    destruct (existsb _ _).
    + rewrite IH by done. unfold MP_TARRAY_APPEND.
      rewrite fmap_cons. cbn [snd]. by rewrite <- app_assoc.
    + by apply IH.
Qed.

(** X6.  Given an IN_FORMATS blob whose masks stay inside its format array,
    [probe_gbm_modifiers] appends to [gbm_modifiers] exactly the modifiers
    of the entries that have a mask bit naming the negotiated format, once
    per entry and in the blob's order, and returns true (also when none is
    supported). *)
Theorem probe_gbm_modifiers_collects_supported (K : platform) (c : ra_ctx)
    (fmts : list Z) (mods : list (Z * Z * Z)) :
  env_GetInFormats K (ctx_history c) = Some (fmts, mods) →
  blob_in_bounds fmts mods →
  probe_gbm_modifiers K c
  = Done (true,
          set_ctx_priv
            (set_gbm_modifiers
               (gbm_modifiers (ctx_priv c)
                ++ supported_modifiers fmts mods (gbm_format (ctx_priv c)))
               (ctx_priv c))
            (log (EvGetInFormats (Some (fmts, mods))) c)).
Proof.
  intros Hblob Hb. unfold probe_gbm_modifiers. engine_cbv. rewrite Hblob.
  engine_cbv. by rewrite (scan_modifiers_spec _ _ _ _ Hb).
Qed.

(** A blob to apply the theorem to: of its three modifiers the first and
    the second support XRGB8888. *)
Lemma probe_gbm_modifiers_collects_supported_witness :
  probe_gbm_modifiers with_in_formats
    (set_ctx_priv (set_gbm_format GBM_FORMAT_XRGB8888 priv_zero)
       (ctx_zero default_opts))
  = Done (true,
          set_ctx_priv
            (set_gbm_modifiers [0; 0x0100000000000001]
               (set_gbm_format GBM_FORMAT_XRGB8888 priv_zero))
            (log (EvGetInFormats (Some in_formats_blob))
               (set_ctx_priv (set_gbm_format GBM_FORMAT_XRGB8888 priv_zero)
                  (ctx_zero default_opts)))).
Proof.
  apply (probe_gbm_modifiers_collects_supported with_in_formats
           (set_ctx_priv (set_gbm_format GBM_FORMAT_XRGB8888 priv_zero)
              (ctx_zero default_opts))
           in_formats_blob.1 in_formats_blob.2).
  - reflexivity.
  - vm_compute. repeat constructor; intros Hbit;
      first [discriminate Hbit | eexists; reflexivity].
Defined.

(** ** What each function touches *)

Lemma released_quiet evs : quiet evs → released evs = [].
Proof.
  unfold released. induction 1 as [|e evs He _ IH]; [done|].
  destruct e; try discriminate He; simpl; exact IH.
Qed.

Lemma locked_quiet evs : quiet evs → locked evs = [].
Proof.
  unfold locked. induction 1 as [|e evs He _ IH]; [done|].
  destruct e; try discriminate He; simpl; exact IH.
Qed.

Lemma locked_app h1 h2 : locked (h1 ++ h2) = locked h1 ++ locked h2.
Proof. unfold locked. apply omap_app. Qed.

Lemma fence_events_quiet fs : quiet (fence_events fs).
Proof. induction fs; simpl; solve_quiet. Qed.

(** *** The fence FIFO *)

Lemma wait_fence_loop_exact n : ∀ c,
  (num_vsync_fences (ctx_priv c) ≤ n)%nat →
  wait_fence_loop n c
  = Done (tt,
      let k := (num_vsync_fences (ctx_priv c) - Nat.pred (num_bos (ctx_priv c)))%nat in
      mk_ctx (set_vsync_fences (drop k (vsync_fences (ctx_priv c))) (ctx_priv c))
        (ctx_opts c) (ctx_closures c) (ctx_bo_user_data c)
        (ctx_history c ++ fence_events (take k (vsync_fences (ctx_priv c))))).
Proof.
  induction n as [|n IH]; intros [p o cl ud h] Hn; cbn [wait_fence_loop];
    engine_cbv; unfold num_vsync_fences, num_bos in *; cbn [ctx_priv] in Hn.
  - destruct (vsync_fences p) as [|f fs] eqn:Ef; [|simpl in Hn; lia].
    cbn [length Nat.eqb negb andb Nat.sub drop take fence_events flat_map].
    rewrite app_nil_r. repeat f_equal. destruct p; simpl in *; by subst.
  - destruct (vsync_fences p) as [|f fs] eqn:Ef.
    { cbn [length Nat.eqb negb andb Nat.sub drop take fence_events flat_map].
      rewrite app_nil_r. repeat f_equal. destruct p; simpl in *; by subst. }
    cbn [length Nat.eqb negb andb].
    destruct (length (gbm_bo_queue p) <=? S (length fs))%nat eqn:Ele.
    + apply Nat.leb_le in Ele. engine_cbv.
      rewrite MP_TARRAY_REMOVE_AT_head. engine_cbv.
      rewrite IH; [|cbn [ctx_priv]; engine_fields; simpl in Hn; lia].
      engine_fields. unfold num_vsync_fences, num_bos. engine_fields.
      replace (S (length fs) - Nat.pred (length (gbm_bo_queue p)))%nat
        with (S (length fs - Nat.pred (length (gbm_bo_queue p))))%nat by lia.
      cbn [drop take fence_events flat_map]. cbv zeta.
      rewrite <- !app_assoc. unfold set_vsync_fences. engine_fields. reflexivity.
    + apply Nat.leb_gt in Ele.
      replace (S (length fs) - Nat.pred (length (gbm_bo_queue p)))%nat
        with 0%nat by lia.
      cbn [drop take fence_events flat_map]. rewrite app_nil_r.
      repeat f_equal. destruct p; simpl in *; by subst.
Qed.

Lemma wait_fence_exact c :
  wait_fence c
  = Done (tt,
      let k := (num_vsync_fences (ctx_priv c) - Nat.pred (num_bos (ctx_priv c)))%nat in
      mk_ctx (set_vsync_fences (drop k (vsync_fences (ctx_priv c))) (ctx_priv c))
        (ctx_opts c) (ctx_closures c) (ctx_bo_user_data c)
        (ctx_history c ++ fence_events (take k (vsync_fences (ctx_priv c))))).
Proof.
  unfold wait_fence. engine_cbv. fold (num_vsync_fences (ctx_priv c)).
  by apply wait_fence_loop_exact.
Qed.

(** *** Framebuffers and page flips *)

Lemma update_framebuffer_frame K bo c c' :
  update_framebuffer_from_bo K bo c = Done (tt, c') →
  ∃ b f evs,
    bo = Some b
    ∧ c' = mk_ctx (set_fb (Some f) (ctx_priv c)) (ctx_opts c) (ctx_closures c)
             (<[b := f]> (ctx_bo_user_data c)) (ctx_history c ++ evs)
    ∧ ((evs = [] ∧ ctx_bo_user_data c !! b = Some f)
       ∨ (ctx_bo_user_data c !! b = None
          ∧ ∃ m hs ss os ms ret id,
              evs = [EvAddFB2 b m hs ss os ms ret id]
              ∧ f = mk_framebuffer (kms_fd (p_kms (ctx_priv c)))
                      (env_bo_width K b) (env_bo_height K b)
                      (fb_id_written ret id))).
Proof.
  intros H. unfold update_framebuffer_from_bo in H.
  run H with drmModeAddFB2_spec; simplify_eq.
  all: eexists _, _, _; split; [reflexivity|].
  all: split; [ctx_eq|].
  all: try (left; split; [reflexivity|eassumption]).
  all: try (right; split; [eassumption|]; eexists _, _, _, _, _, _, _;
            split; reflexivity).
  all: symmetry; by apply insert_id.
Qed.

Lemma queue_flip_frame K frame c c' :
  queue_flip K frame c = Done (tt, c') →
  ∃ f ud evs ret ok,
    c' = mk_ctx
           (set_kms_request (if ok : bool then Some [] else None)
              (set_waiting_for_flip (ret =? 0) (set_fb (Some f) (ctx_priv c))))
           (ctx_opts c)
           (if ret =? 0 then ctx_closures c ++ [mk_closure (frame_vsync frame)]
            else ctx_closures c)
           ud (ctx_history c ++ evs)
    ∧ quiet evs
    ∧ is_Some (frame_bo frame).
Proof.
  intros H. unfold queue_flip in H.
  run H with (update_framebuffer_frame, drm_object_set_property_spec,
              drmModeAtomicCommit_spec, drmModeAtomicAlloc_spec); simplify_eq.
  all: engine_fields_all.
  all: match goal with Hb : frame_bo _ = Some _ |- _ => rewrite Hb end.
  all: match goal with
       | Hz : negb (?z =? 0) = _ |- _ =>
           eexists _, _, _, z, _; destruct (z =? 0); try discriminate Hz
       end.
  all: split; [ctx_eq; try apply removelast_last|].
  all: split; [|eauto].
  all: match goal with
       | Hc : _ ∨ _ |- _ =>
           destruct Hc as [[-> _]|[_ (?&?&?&?&?&?&?&->&_)]]
       end.
  all: solve_quiet.
Qed.

(** *** Retirement *)

Lemma retires_refl c : retires 0 c c.
Proof.
  unfold retires. rewrite drop_0. repeat split; auto.
  exists []. by rewrite app_nil_r.
Qed.

Lemma retires_trans k1 k2 c c1 c2 :
  retires k1 c c1 → retires k2 c1 c2 → retires (k1 + k2) c c2.
Proof.
  intros (Hq1 & Ho1 & Hf1 & evs1 & Hh1 & Hl1 & Hr1)
         (Hq2 & Ho2 & Hf2 & evs2 & Hh2 & Hl2 & Hr2).
  unfold retires. rewrite Hq2, Hq1, drop_drop, Ho2, Ho1.
  repeat split; auto.
  exists (evs1 ++ evs2). rewrite Hh2, Hh1, app_assoc. split; [done|].
  rewrite locked_app, released_app, Hl1, Hl2, Hr1, Hr2, Hq1.
  split; [done|]. rewrite <- omap_app. f_equal.
  by rewrite take_take_drop.
Qed.

(** A step that leaves the queue alone and makes quiet calls only. *)
Lemma retires_quiet c c' evs :
  gbm_bo_queue (ctx_priv c') = gbm_bo_queue (ctx_priv c) →
  ctx_opts c' = ctx_opts c →
  (is_Some (fb (ctx_priv c)) → is_Some (fb (ctx_priv c'))) →
  ctx_history c' = ctx_history c ++ evs →
  quiet evs →
  retires 0 c c'.
Proof.
  intros Hq Ho Hf Hh He. unfold retires. rewrite drop_0.
  repeat split; auto. exists evs.
  by rewrite (locked_quiet _ He), (released_quiet _ He).
Qed.

(** The same for calls that hand no buffer over: a failed lock counts. *)
Lemma retires_silent c c' evs :
  gbm_bo_queue (ctx_priv c') = gbm_bo_queue (ctx_priv c) →
  ctx_opts c' = ctx_opts c →
  (is_Some (fb (ctx_priv c)) → is_Some (fb (ctx_priv c'))) →
  ctx_history c' = ctx_history c ++ evs →
  locked evs = [] →
  released evs = [] →
  retires 0 c c'.
Proof.
  intros Hq Ho Hf Hh Hl Hr. unfold retires. rewrite drop_0.
  repeat split; auto. exists evs. by rewrite Hl, Hr.
Qed.

Lemma retires_retire_head c : retires 1 c (retire_head c).
Proof.
  unfold retires, retire_head.
  destruct (gbm_bo_queue (ctx_priv c)) as [|f q] eqn:Hq.
  - rewrite Hq. repeat split; auto. exists []. by rewrite app_nil_r.
  - cbn [drop take omap list_omap]. rewrite drop_0, take_0.
    destruct (frame_bo f) eqn:Hf; engine_fields; cbn [omap list_omap];
      repeat split; auto.
    + eexists. split; [reflexivity|]. done.
    + exists []. by rewrite app_nil_r.
Qed.

(** What a retirement means for the accounts. *)
Lemma retires_facts k c c' :
  retires k c c' →
  num_bos (ctx_priv c') = (num_bos (ctx_priv c) - k)%nat
  ∧ in_flight c' = in_flight c
  ∧ locked (ctx_history c') = locked (ctx_history c)
  ∧ (no_holes c → no_holes c')
  ∧ ctx_opts c' = ctx_opts c
  ∧ (is_Some (fb (ctx_priv c)) → is_Some (fb (ctx_priv c'))).
Proof.
  intros (Hq & Ho & Hf & evs & Hh & Hl & Hr).
  unfold num_bos, in_flight, queued, no_holes. rewrite Hq, Hh.
  split; [apply length_drop|]. split; [|split; [|split; [|split]]]; auto.
  - rewrite released_app, Hr, <- app_assoc, <- omap_app.
    by rewrite take_drop.
  - by rewrite locked_app, Hl, app_nil_r.
  - apply Forall_drop.
Qed.

(** *** The steps of the swap loop *)

Lemma swap_condition_retires K drain c again c' :
  swap_condition K drain c = Done (again, c') →
  retires 0 c c'
  ∧ ctx_priv c' = ctx_priv c
  ∧ (again = false →
     drain = false
     ∧ Z.of_nat (num_bos (ctx_priv c)) ≤ to_unsigned (swapchain_depth (ctx_opts c))).
Proof.
  intros H. unfold swap_condition in H.
  run H with has_free_buffers_spec; simplify_eq.
  - split; [apply retires_refl|]. split; [done|]. discriminate.
  - split; [|split; [done|]].
    + eapply retires_quiet; try reflexivity; [auto|]. solve_quiet.
    + intros _. apply orb_false_iff in E as [-> E]. split; [done|].
      unfold num_bos. by apply Z.ltb_ge in E.
Qed.

Lemma wait_on_flip_retires K fuel : ∀ c c',
  wait_on_flip K fuel c = Done (tt, c') → retires 0 c c'.
Proof.
  induction fuel as [|fuel IH]; intros c c' H; cbn [wait_on_flip] in H.
  - exec H. simplify_eq. apply retires_refl.
  - run H with (drmHandleEvent_spec, poll_spec); simplify_eq.
    all: try match goal with E : wait_on_flip _ _ _ = Done _ |- _ =>
           apply IH in E; refine (retires_trans 0 0 _ _ _ _ E)
         end.
    all: try apply retires_refl.
    all: eapply retires_quiet; engine_fields; try reflexivity; try (by auto).
    all: try (rewrite <- app_assoc; reflexivity).
    all: solve_quiet.
Qed.

Lemma swapchain_step_retires c c' :
  swapchain_step c = Done (tt, c') → retires 1 c c'.
Proof. intros ->%swapchain_step_inv. apply retires_retire_head. Qed.

Lemma queue_flip_retires K frame c c' :
  queue_flip K frame c = Done (tt, c') →
  retires 0 c c' ∧ is_Some (frame_bo frame) ∧ is_Some (fb (ctx_priv c')).
Proof.
  intros (f & ud & evs & ret & ok & -> & Hq & Hb)%queue_flip_frame.
  split; [|split; [done|engine_fields; eauto]].
  eapply retires_quiet; engine_fields; try reflexivity; eauto.
Qed.

(** *** The swap loop *)

Lemma no_holes_lookup c i g :
  no_holes c → gbm_bo_queue (ctx_priv c) !! i = Some g → frame_bo g ≠ None.
Proof.
  unfold no_holes. rewrite Forall_lookup. intros Hn Hl Hg.
  destruct (Hn _ _ Hl) as [b Hb]. congruence.
Qed.

Lemma swap_loop_retires K drain fuel : ∀ c c',
  swap_loop K drain fuel c = Done (tt, c') →
  ∃ k, retires k c c'
       ∧ (no_holes c → (2 ≤ num_bos (ctx_priv c))%nat →
          (1 ≤ num_bos (ctx_priv c'))%nat)
       ∧ ((num_bos (ctx_priv c') ≤ 1)%nat
          ∨ (drain = false
             ∧ Z.of_nat (num_bos (ctx_priv c'))
               ≤ to_unsigned (swapchain_depth (ctx_opts c)))).
Proof.
  induction fuel as [|fuel IH]; intros c c' H; cbn [swap_loop] in H.
  - run H with swap_condition_retires. simplify_eq.
    exists 0%nat. split; [done|]. apply negb_true_iff in E.
    destruct (H2 E) as [-> Hd]. unfold num_bos in *. rewrite H1.
    split; [lia|by right].
  - unfold swap_body, retire_flipped, flip_next in H.
    run H with (swap_condition_retires, wait_on_flip_retires,
                swapchain_step_retires, queue_flip_retires).
    all: simplify_eq.
    all: try (apply IH in H as (k' & Hr & Hne & Hd)).
    all: repeat match goal with
         | R : retires _ ?a ?b |- _ =>
             lazymatch goal with
             | _ : in_flight b = in_flight a |- _ => fail
             | _ => pose proof (retires_facts _ _ _ R) as (? & ? & ? & ? & ? & ?)
             end
         end.
    all: repeat match goal with
         | R1 : retires _ ?a ?b, R2 : retires _ ?b ?d |- _ =>
             pose proof (retires_trans _ _ _ _ _ R1 R2); clear R1 R2
         end.
    all: match goal with
         | R : retires ?k ?a ?b |- ∃ _, retires _ ?a ?b ∧ _ =>
             exists k; split; [exact R|]
         end.
    all: repeat match goal with
         | E : (_ <=? _)%nat = true |- _ => apply Nat.leb_le in E
         | E : (_ <=? _)%nat = false |- _ => apply Nat.leb_gt in E
         end.
    all: unfold num_bos in *.
    all: split;
      [ intros Hnh Hn;
        repeat match goal with
               | Hi : no_holes ?a → no_holes ?b, Ha : no_holes ?a |- _ =>
                   specialize (Hi Ha)
               end;
        try (exfalso;
             match goal with
             | El : gbm_bo_queue (ctx_priv ?a) !! _ = Some ?g,
               Eg : frame_bo ?g = None, Ha : no_holes ?a |- _ =>
                 exact (no_holes_lookup _ _ _ Ha El Eg)
             end);
        try (apply Hne; [assumption|]); lia
      | ].
    all: try (left; lia).
    all: try match goal with
         | E : negb ?b = true, Hx : ?b = false → _ |- _ =>
             apply negb_true_iff in E; destruct (Hx E) as [-> ?];
             right; split; [done|];
             match goal with Hp : ctx_priv _ = ctx_priv _ |- _ => rewrite Hp end;
             assumption
         end.
    all: destruct Hd as [Hd|[-> Hd]]; [by left|right; split; [done|]].
    all: match goal with
         | Hd : _ ≤ to_unsigned (swapchain_depth (ctx_opts ?a)) |- _ =>
             match goal with
             | |- _ ≤ to_unsigned (swapchain_depth (ctx_opts ?b)) =>
                 replace (ctx_opts b) with (ctx_opts a) by congruence
             end
         end; exact Hd.
Qed.

(** *** A call of swap-buffers *)

Lemma wait_fence_retires c c' : wait_fence c = Done (tt, c') → retires 0 c c'.
Proof.
  rewrite wait_fence_exact. intros [= <-].
  eapply retires_quiet; engine_fields; try reflexivity; [auto|].
  apply fence_events_quiet.
Qed.

Lemma new_fence_retires K c c' : new_fence K c = Done (tt, c') → retires 0 c c'.
Proof.
  intros [->|[[r ->]|[f ->]]]%new_fence_spec; [apply retires_refl|..].
  all: eapply retires_quiet; engine_fields; try reflexivity; [auto|].
  all: solve_quiet.
Qed.

Lemma enqueue_accounts c c2 b v evs :
  gbm_bo_queue (ctx_priv c2) = gbm_bo_queue (ctx_priv c) ++ [mk_frame (Some b) v] →
  ctx_history c2 = ctx_history c ++ evs →
  locked evs = [b] →
  released evs = [] →
  in_flight c2 = in_flight c ++ [b]
  ∧ locked (ctx_history c2) = locked (ctx_history c) ++ [b]
  ∧ num_bos (ctx_priv c2) = S (num_bos (ctx_priv c))
  ∧ (no_holes c → no_holes c2).
Proof.
  intros Hq Hh Hl Hr. unfold in_flight, queued, num_bos, no_holes.
  rewrite Hq, Hh, released_app, locked_app, Hl, Hr, omap_app, length_app.
  simpl. rewrite app_nil_r, app_assoc. repeat split; [lia|].
  intros Hn. apply Forall_app_2; [done|]. repeat constructor. by eexists.
Qed.

Lemma swap_buffers_accounts K fuel c c' :
  drm_egl_swap_buffers K fuel c = Done (tt, c') →
  ∃ new,
    in_flight c' = in_flight c ++ new
    ∧ locked (ctx_history c') = locked (ctx_history c) ++ new
    ∧ (length new ≤ 1)%nat
    ∧ ctx_opts c' = ctx_opts c
    ∧ (is_Some (fb (ctx_priv c)) → is_Some (fb (ctx_priv c')))
    ∧ (no_holes c → (1 ≤ num_bos (ctx_priv c))%nat →
       no_holes c' ∧ (1 ≤ num_bos (ctx_priv c'))%nat)
    ∧ (new ≠ [] →
       (num_bos (ctx_priv c') ≤ 1)%nat
       ∨ (paused (ctx_priv c) || still (ctx_priv c) = false
          ∧ Z.of_nat (num_bos (ctx_priv c'))
            ≤ to_unsigned (swapchain_depth (ctx_opts c)))).
Proof.
  intros H. unfold drm_egl_swap_buffers in H.
  run H with (wait_fence_retires, lock_front_buffer_spec, enqueue_bo_inv,
              new_fence_retires, swap_loop_retires).
  all: simplify_eq.
  - exists []. rewrite !app_nil_r. repeat split; auto. done.
  - match type of E1 with retires _ ?c2 _ =>
      destruct (enqueue_accounts r c2 g (next_vsync (ctx_priv r))
                  [EvSwapBuffers; EvLockFrontBuffer (Some g)])
        as (Hi2 & Hl2 & Hn2 & Hh2);
        [engine_fields; try reflexivity; by rewrite <- app_assoc..|];
      assert (Ho2 : ctx_opts c2 = ctx_opts r) by reflexivity;
      assert (Hf2 : fb (ctx_priv c2) = fb (ctx_priv r)) by reflexivity
    end.
    destruct (retires_facts _ _ _ E0) as (Hn0 & Hi0 & Hl0 & Hh0 & Ho0 & Hf0).
    destruct (retires_facts _ _ _ E1) as (Hn1 & Hi1 & Hl1 & Hh1 & Ho1 & Hf1).
    destruct (retires_facts _ _ _ H) as (Hn3 & Hi3 & Hl3 & Hh3 & Ho3 & Hf3).
    exists [g]. split; [congruence|]. split; [congruence|]. split; [simpl; lia|].
    split; [congruence|]. split; [rewrite Hf2 in Hf1; auto|]. split.
    + intros Hnh Hn. split; [auto|]. apply H0; [auto|]. lia.
    + intros _. destruct H1 as [?|[? Hd]]; [by left|right]. split; [done|].
      replace (ctx_opts c) with (ctx_opts r0) by congruence. exact Hd.
  - match goal with |- context [in_flight ?X = _] =>
      assert (R : retires 0 r X)
        by (eapply retires_silent; engine_fields;
            [reflexivity|reflexivity|auto|by rewrite <- app_assoc|done|done]);
      pose proof (retires_trans _ _ _ _ _ E0 R) as R';
      destruct (retires_facts _ _ _ R') as (Hn & Hi & Hl & Hh & Ho & Hf)
    end.
    exists []. rewrite !app_nil_r. repeat split; auto; try done.
    rewrite Hn. lia.
Qed.

(** *** The session and the other calls *)

Section MoreCalls.

Variable K : platform.

Lemma init_step_spec name c r c' :
  init_step K name c = Done (r, c') → c' = log (EvInitStep name r) c.
Proof. intros H. unfold init_step in H. exec H. by simplify_eq. Qed.

Lemma drmSetMaster_spec c r c' :
  drmSetMaster K c = Done (r, c') → c' = log (EvSetMaster r) c.
Proof. intros H. unfold drmSetMaster in H. exec H. by simplify_eq. Qed.

Lemma drmDropMaster_spec c r c' :
  drmDropMaster K c = Done (r, c') → c' = log (EvDropMaster r) c.
Proof. intros H. unfold drmDropMaster in H. exec H. by simplify_eq. Qed.

End MoreCalls.

Lemma set_properties_quiet K props : ∀ req c req' c',
  set_properties K req props c = Done (req', c') →
  ∃ evs, c' = set_ctx_history (ctx_history c ++ evs) c
         ∧ quiet evs ∧ all_plain evs.
Proof.
  induction props as [|[[o name] v] props IH]; intros req c req' c' H;
    cbn [set_properties] in H.
  - engine_cbv_in H. simplify_eq. exists []. rewrite app_nil_r.
    split; [|split; constructor]. by match goal with |- ?x = _ => destruct x end.
  - run H with drm_object_set_property_spec.
    apply IH in H as (evs & -> & Hq & Hp).
    exists (EvSetProperty o name v z :: evs). engine_fields.
    split; [by rewrite <- app_assoc|split; by constructor].
Qed.

Lemma crtc_setup_frame K c r c' :
  crtc_setup K c = Done (r, c') →
  (active (ctx_priv c) = true ∧ r = true ∧ c' = c)
  ∨ (active (ctx_priv c) = false
     ∧ ∃ saved blob evs,
         c' = mk_ctx
                (set_active true
                   (set_kms_old_state_saved saved
                      (set_kms_mode_blob_id blob (ctx_priv c))))
                (ctx_opts c) (ctx_closures c) (ctx_bo_user_data c)
                (ctx_history c ++ evs)
         ∧ quiet evs
         ∧ (r = true → modeset_commits evs = 1%nat)).
Proof.
  intros H. unfold crtc_setup in H.
  run H with (save_old_state_spec, drmModeAtomicAlloc_spec,
              drm_object_set_property_spec, ensure_blob_spec,
              drm_object_get_property_spec, set_properties_quiet,
              drmModeAtomicCommit_spec); simplify_eq.
  { left. auto. }
  all: right; split; [done|].
  all: eexists _, _, _; split; [ctx_eq|].
  all: split; [solve_quiet|].
  all: try (intros [=]; fail).
  all: intros _; unfold modeset_commits; rewrite !List.filter_app, !length_app.
  all: match goal with
       | Hp : all_plain ?evs |- _ =>
           pose proof (modeset_commits_plain [] evs Hp) as Hc;
           unfold modeset_commits in Hc; simpl in Hc; rewrite Hc
       end.
  all: reflexivity.
Qed.

Lemma crtc_release_frame K c c' :
  crtc_release K c = Done (tt, c') →
  active (ctx_priv c) = true →
  ∃ saved evs,
    c' = mk_ctx (set_active false (set_kms_old_state_saved saved (ctx_priv c)))
           (ctx_opts c) (ctx_closures c) (ctx_bo_user_data c)
           (ctx_history c ++ evs)
    ∧ quiet evs.
Proof.
  intros H Ha. unfold crtc_release in H.
  run H with (drmModeAtomicAlloc_spec, restore_old_state_spec,
              drmModeAtomicCommit_spec); simplify_eq; unnegb.
  all: try congruence.
  all: eexists _, _; split; [ctx_eq|].
  all: solve_quiet.
Qed.

Lemma crtc_setup_retires K c r c' :
  crtc_setup K c = Done (r, c') → retires 0 c c'.
Proof.
  intros H. destruct (active (ctx_priv c)) eqn:Ha.
  - rewrite crtc_setup_active in H by done. simplify_eq. apply retires_refl.
  - destruct (crtc_setup_frame _ _ _ _ H) as [[? _]|(_ & s & b & evs & -> & Hq & _)];
      [congruence|].
    eapply retires_quiet; engine_fields; try reflexivity; auto.
Qed.

Lemma crtc_release_retires K c c' :
  crtc_release K c = Done (tt, c') → retires 0 c c'.
Proof.
  intros H. destruct (active (ctx_priv c)) eqn:Ha.
  - destruct (crtc_release_frame _ _ _ H Ha) as (s & evs & -> & Hq).
    eapply retires_quiet; engine_fields; try reflexivity; auto.
  - rewrite crtc_release_inactive in H by done. simplify_eq. apply retires_refl.
Qed.

Lemma release_vt_retires K c c' :
  release_vt K c = Done (tt, c') → retires 0 c c'.
Proof.
  intros H. unfold release_vt in H.
  run H with (crtc_release_retires, drmDropMaster_spec). simplify_eq.
  match goal with R : retires 0 _ _ |- _ => refine (retires_trans 0 0 _ _ _ R _) end.
  eapply retires_quiet; engine_fields; try reflexivity; [auto|solve_quiet].
Qed.

Lemma acquire_vt_retires K c c' :
  acquire_vt K c = Done (tt, c') → retires 0 c c'.
Proof.
  intros H. unfold acquire_vt in H.
  run H with (crtc_setup_retires, drmSetMaster_spec). simplify_eq.
  match goal with R : retires 0 _ _ |- _ => refine (retires_trans 0 0 _ _ _ _ R) end.
  eapply retires_quiet; engine_fields; try reflexivity; [auto|solve_quiet].
Qed.

Lemma start_frame_retires K c r c' :
  drm_egl_start_frame K c = Done (r, c') → retires 0 c c'.
Proof.
  intros H. unfold drm_egl_start_frame in H.
  run H with (drmModeAtomicAlloc_spec, init_step_spec); simplify_eq.
  all: eapply retires_quiet; engine_fields; try reflexivity;
    try (rewrite <- app_assoc; reflexivity); try solve_quiet; auto.
Qed.

Lemma submit_frame_retires K s c r c' :
  drm_egl_submit_frame K s c = Done (r, c') → retires 0 c c'.
Proof.
  intros H. unfold drm_egl_submit_frame in H.
  run H with init_step_spec; simplify_eq.
  eapply retires_quiet; engine_fields; try reflexivity; [auto|solve_quiet].
Qed.

Lemma control_retires request c c' :
  drm_egl_control request c = Done (tt, c') → retires 0 c c'.
Proof.
  intros H. unfold drm_egl_control in H. destruct request; exec H; simplify_eq.
  all: eapply (retires_quiet _ _ []); engine_fields; try reflexivity;
    [auto|by rewrite app_nil_r|constructor].
Qed.

(** *** Initialisation *)

Lemma kms_create_spec K c ok c' :
  kms_create K c = Done (ok, c') →
  (ok = false ∧ c' = log (EvKmsCreate None) c)
  ∨ (ok = true
     ∧ ∃ k, c' = set_ctx_priv (set_p_kms k (ctx_priv c))
                   (log (EvKmsCreate (Some k)) c)).
Proof.
  intros H. unfold kms_create in H. exec H; simplify_eq; [right|left]; eauto.
Qed.

Lemma probe_gbm_format_spec K argb xrgb c ok c' :
  probe_gbm_format K argb xrgb c = Done (ok, c') →
  (ok = false ∧ ∃ formats, c' = log (EvGetPlane (Some formats)) c)
  ∨ (ok = true
     ∧ ∃ formats fmt,
         (fmt = argb ∨ fmt = xrgb)
         ∧ c' = set_ctx_priv (set_gbm_format fmt (ctx_priv c))
                  (log (EvGetPlane (Some formats)) c)).
Proof.
  intros H. unfold probe_gbm_format, drmModeGetPlane in H.
  exec H; simplify_eq; [right|right|left]; eauto 10.
Qed.

Lemma probe_gbm_modifiers_spec K c ok c' :
  probe_gbm_modifiers K c = Done (ok, c') →
  ∃ ms blob, c' = mk_ctx (set_gbm_modifiers ms (ctx_priv c)) (ctx_opts c)
                    (ctx_closures c) (ctx_bo_user_data c)
                    (ctx_history c ++ [EvGetInFormats blob]).
Proof.
  intros H. unfold probe_gbm_modifiers in H.
  exec H; simplify_eq; [eexists _, _; ctx_eq|].
  exists (gbm_modifiers (ctx_priv c)), None.
  destruct c as [p o cl ud h]; destruct p. reflexivity.
Qed.

Lemma init_gbm_spec K c ok c' :
  init_gbm K c = Done (ok, c') →
  ∃ evs, c' = mk_ctx (ctx_priv c) (ctx_opts c) (ctx_closures c)
                (ctx_bo_user_data c) (ctx_history c ++ evs)
         ∧ quiet evs ∧ all_plain evs.
Proof.
  intros H. unfold init_gbm in H.
  run H with init_step_spec; simplify_eq.
  all: eexists; split; [ctx_eq|split; [solve_quiet|solve_plain]].
Qed.

Lemma init_egl_spec K c ok c' :
  init_egl K c = Done (ok, c') →
  ∃ evs, c' = mk_ctx (ctx_priv c) (ctx_opts c) (ctx_closures c)
                (ctx_bo_user_data c) (ctx_history c ++ evs)
         ∧ quiet evs ∧ all_plain evs.
Proof.
  intros H. unfold init_egl in H.
  run H with init_step_spec; simplify_eq.
  all: eexists; split; [ctx_eq|split; [solve_quiet|solve_plain]].
Qed.

Lemma crtc_setup_frame_inactive K c r c' :
  crtc_setup K c = Done (r, c') →
  active (ctx_priv c) = false →
  ∃ saved blob evs,
    c' = mk_ctx
           (set_active true
              (set_kms_old_state_saved saved
                 (set_kms_mode_blob_id blob (ctx_priv c))))
           (ctx_opts c) (ctx_closures c) (ctx_bo_user_data c)
           (ctx_history c ++ evs)
    ∧ quiet evs
    ∧ (r = true → modeset_commits evs = 1%nat).
Proof.
  intros H Ha. destruct (crtc_setup_frame _ _ _ _ H) as [[? _]|[_ Hf]];
    [congruence|exact Hf].
Qed.

Lemma drm_egl_init_frame K c c' :
  drm_egl_init K c = Done (true, c') →
  active (ctx_priv c) = false →
  ∃ vt k fmt ms sync b f saved blob evs,
    c' = mk_ctx
           (set_vsync_info (mk_vsync_info 0 (-1) (-1))
              (set_active true
                 (set_kms_old_state_saved saved
                    (set_kms_mode_blob_id blob
                       (set_fb (Some f)
                          (set_gbm_bo_queue
                             (gbm_bo_queue (ctx_priv c)
                              ++ [mk_frame (Some b) (next_vsync (ctx_priv c))])
                             (set_vsync (next_vsync (ctx_priv c))
                                (set_gl_FenceSync sync
                                   (set_gbm_modifiers ms
                                      (set_gbm_format fmt
                                         (set_draw_surface_size
                                            (default (mode_hdisplay k, mode_vdisplay k)
                                               (drm_draw_surface_size (ctx_opts c)))
                                            (set_p_kms k
                                               (set_vt_switcher_active vt
                                                  (ctx_priv c))))))))))))))
           (ctx_opts c) (ctx_closures c) (<[b := f]> (ctx_bo_user_data c))
           (ctx_history c ++ evs)
    ∧ fb_id f ≠ 0
    ∧ (ctx_bo_user_data c !! b = None →
       fb_fd f = kms_fd k
       ∧ fb_width f = env_bo_width K b ∧ fb_height f = env_bo_height K b)
    ∧ (fmt = (formats_for (drm_format (ctx_opts c))).1
       ∨ fmt = (formats_for (drm_format (ctx_opts c))).2)
    ∧ released evs = []
    ∧ locked evs = [b]
    ∧ modeset_commits evs = 1%nat.
Proof.
  intros H Ha. unfold drm_egl_init in H.
  destruct c as [p o cl ud h]. destruct p. simpl in Ha. subst.
  exec_flat H ltac:(fun E =>
    first [ apply crtc_setup_frame_inactive in E; [|reflexivity]
          | apply_any (init_step_spec, kms_create_spec, probe_gbm_format_spec,
                       probe_gbm_modifiers_spec, init_gbm_spec, init_egl_spec,
                       lock_front_buffer_spec, enqueue_bo_inv,
                       update_framebuffer_frame) E ]).
  all: simplify_eq.
  engine_flat_all.
  repeat match goal with
         | E : negb ?b = false |- _ => apply negb_false_iff in E; try subst b
         | E : negb ?b = true |- _ => apply negb_true_iff in E
         end.
  match goal with
  | Hc : true = true → modeset_commits ?evs = _ |- _ => specialize (Hc eq_refl)
  end.
  match goal with E : (fb_id _ =? 0) = false |- _ => apply Z.eqb_neq in E end.
  eexists _, _, _, _, _, _, _, _, _, _.
  split; [repeat rewrite <- app_assoc; reflexivity|].
  split; [assumption|].
  split.
  { intros Hud.
    match goal with
    | Hc : _ ∨ _ |- _ =>
        destruct Hc as [[_ Hc]|[_ (?&?&?&?&?&?&?&_&->)]]; [congruence|done]
    end. }
  split.
  { match goal with E : formats_for _ = _ |- _ => rewrite E end. assumption. }
  assert (Hfb : ∀ evs, (evs = [] ∨ ∃ b' m hs ss os ms ret id,
                          evs = [EvAddFB2 b' m hs ss os ms ret id]) →
                       quiet evs ∧ all_plain evs).
  { intros evs [->|(?&?&?&?&?&?&?&?&->)]; split; repeat constructor. }
  match goal with
  | Hc : _ ∨ _ |- _ =>
      match type of Hc with
      | (?evs = [] ∧ _) ∨ _ =>
          destruct (Hfb evs) as [Hq8 Hp8];
            [destruct Hc as [[-> _]|[_ (?&?&?&?&?&?&?&->&_)]]; eauto 12|]
      end
  end.
  repeat match goal with
         | Hq : quiet ?evs |- _ =>
             pose proof (released_quiet _ Hq); pose proof (locked_quiet _ Hq);
             clear Hq
         end.
  repeat match goal with
         | Hp : all_plain ?evs |- _ =>
             pose proof (modeset_commits_plain [] _ Hp); clear Hp
         end.
  unfold modeset_commits in *.
  rewrite !released_app, !locked_app, !List.filter_app, !length_app.
  repeat match goal with
         | Hr : _ = _ |- _ => rewrite Hr
         end.
  cbn [app List.filter length] in *.
  split; [reflexivity|]. split; [reflexivity|]. cbn. lia.
Qed.

(** ** Invariants of the engine *)

Lemma retires_inv c c' : retires 0 c c' → swapchain_inv c → swapchain_inv c'.
Proof.
  intros (Hn & Hi & Hl & Hh & Ho & Hf)%retires_facts (Ia & Ih & In & If).
  unfold swapchain_inv. rewrite Hi, Hl, Hn. repeat split; auto. lia.
Qed.

Lemma run_call_inv K fuel call c c' :
  run_call K fuel call c = Done (tt, c') → swapchain_inv c → swapchain_inv c'.
Proof.
  intros H Hinv. destruct call; cbn [run_call] in H.
  - destruct (swap_buffers_accounts _ _ _ _ H)
      as (new & Hi & Hl & _ & _ & Hf & Hh & _).
    destruct Hinv as (Ia & Ih & In & If). destruct (Hh Ih In) as [Ih' In'].
    unfold swapchain_inv. rewrite Hi, Hl, Ia. auto.
  - run H with start_frame_retires. simplify_eq. by eapply retires_inv.
  - run H with submit_frame_retires. simplify_eq. by eapply retires_inv.
  - apply control_retires in H. by eapply retires_inv.
  - apply release_vt_retires in H. by eapply retires_inv.
  - apply acquire_vt_retires in H. by eapply retires_inv.
Qed.

Lemma run_calls_inv K fuel calls : ∀ c c',
  run_calls K fuel calls c = Done (tt, c') → swapchain_inv c → swapchain_inv c'.
Proof.
  induction calls as [|call calls IH]; intros c c' H Hinv; cbn [run_calls] in H.
  - engine_cbv_in H. by simplify_eq.
  - engine_cbv_in H.
    destruct (run_call K fuel call c) as [[[] c1]| |] eqn:E; try discriminate.
    eapply IH; [exact H|]. by eapply run_call_inv.
Qed.

Lemma init_inv K o c :
  drm_egl_init K (ctx_zero o) = Done (true, c) → swapchain_inv c.
Proof.
  intros H. apply drm_egl_init_frame in H; [|reflexivity].
  destruct H as (vt & k & fmt & ms & sync & b & f & saved & blob & evs
                 & -> & _ & _ & _ & Hr & Hl & _).
  unfold swapchain_inv, in_flight, queued, no_holes, num_bos. engine_fields.
  change (ctx_history (ctx_zero o)) with (@nil event).
  change (gbm_bo_queue (ctx_priv (ctx_zero o))) with (@nil gbm_frame).
  rewrite !app_nil_l, Hr, Hl. repeat split; eauto.
Qed.

Lemma reachable_inv K c : reachable K c → swapchain_inv c.
Proof.
  intros (o & fuel & calls & c0 & Hinit & Hrun).
  eapply run_calls_inv; [exact Hrun|]. by eapply init_inv.
Qed.

(** X7.  In every reachable context the buffers handed back to the producer
    followed by the buffers still queued are exactly the buffers locked from
    it, in the order they were locked: through initialisation, swaps, flips,
    drains, pauses and VT switches no buffer is lost, released twice or
    reordered. *)
Theorem locked_buffers_are_released_or_queued (K : platform) (c : ra_ctx) :
  reachable K c →
  released (ctx_history c) ++ queued c = locked (ctx_history c).
Proof. intros H. by destruct (reachable_inv _ _ H) as (Ha & _). Qed.

(** A run to apply the theorem to: three frames presented, one buffer
    already handed back. *)
Lemma locked_buffers_are_released_or_queued_witness :
  released (ctx_history (ctx_after cooperative 10 steady_calls))
  ++ queued (ctx_after cooperative 10 steady_calls)
  = locked (ctx_history (ctx_after cooperative 10 steady_calls)).
Proof.
  apply (locked_buffers_are_released_or_queued cooperative).
  apply (after_calls_reachable _ default_opts 10 steady_calls).
  vm_compute. reflexivity.
Defined.

(** X8.  In every reachable context the queue holds at least one buffer,
    no entry of it lacks its buffer, and [p->fb] is set: the "hole in
    swapchain" branch of the swap loop is never taken, and neither
    [crtc_setup] nor a flip reads a NULL framebuffer. *)
Theorem reachable_queue_has_no_hole (K : platform) (c : ra_ctx) :
  reachable K c →
  (1 ≤ num_bos (ctx_priv c))%nat
  ∧ (∀ i entry, gbm_bo_queue (ctx_priv c) !! i = Some entry →
                is_Some (frame_bo entry))
  ∧ is_Some (fb (ctx_priv c)).
Proof.
  intros H. destruct (reachable_inv _ _ H) as (_ & Hh & Hn & Hf).
  split; [done|]. split; [|done]. intros i entry Hl.
  unfold no_holes in Hh. rewrite Forall_lookup in Hh. by eapply Hh.
Qed.

(** A run to apply the theorem to: two frames presented, playback paused,
    and the queue drained by the next swap. *)
Lemma reachable_queue_has_no_hole_witness :
  (1 ≤ num_bos (ctx_priv (ctx_after cooperative 10 (paused_calls ++ [SwapBuffers]))))%nat
  ∧ (∀ i entry,
       gbm_bo_queue (ctx_priv (ctx_after cooperative 10 (paused_calls ++ [SwapBuffers])))
         !! i = Some entry →
       is_Some (frame_bo entry))
  ∧ is_Some (fb (ctx_priv (ctx_after cooperative 10 (paused_calls ++ [SwapBuffers])))).
Proof.
  apply (reachable_queue_has_no_hole cooperative).
  apply (after_calls_reachable _ default_opts 10 (paused_calls ++ [SwapBuffers])).
  vm_compute. reflexivity.
Defined.

(** X9.  A call of swap-buffers locks at most one buffer, and when it locked
    one it returns with at most one buffer queued or, outside a drain, with
    at most [swapchain_depth] buffers queued (the option read as an
    unsigned number). *)
Theorem swap_buffers_respects_swapchain_depth (K : platform) (fuel : nat)
    (c c' : ra_ctx) :
  drm_egl_swap_buffers K fuel c = Done (tt, c') →
  ∃ new,
    locked (ctx_history c') = locked (ctx_history c) ++ new
    ∧ (length new ≤ 1)%nat
    ∧ (new ≠ [] →
       (num_bos (ctx_priv c') ≤ 1)%nat
       ∨ (paused (ctx_priv c) || still (ctx_priv c) = false
          ∧ Z.of_nat (num_bos (ctx_priv c'))
            ≤ to_unsigned (swapchain_depth (ctx_opts c)))).
Proof.
  intros H. destruct (swap_buffers_accounts _ _ _ _ H)
    as (new & _ & Hl & Hn & _ & _ & _ & Hd).
  exists new. auto.
Qed.

(** A call to apply the theorem to: the fourth swap of a steady run, which
    finds four buffers queued and retires one. *)
Lemma swap_buffers_respects_swapchain_depth_witness :
  ∃ new,
    locked (ctx_history (ctx_after cooperative 10 (steady_calls ++ [SwapBuffers])))
    = locked (ctx_history (ctx_after cooperative 10 steady_calls)) ++ new
    ∧ (length new ≤ 1)%nat
    ∧ (new ≠ [] →
       (num_bos (ctx_priv (ctx_after cooperative 10 (steady_calls ++ [SwapBuffers])))
        ≤ 1)%nat
       ∨ (paused (ctx_priv (ctx_after cooperative 10 steady_calls))
          || still (ctx_priv (ctx_after cooperative 10 steady_calls)) = false
          ∧ Z.of_nat
              (num_bos
                 (ctx_priv (ctx_after cooperative 10 (steady_calls ++ [SwapBuffers]))))
            ≤ to_unsigned
                (swapchain_depth (ctx_opts (ctx_after cooperative 10 steady_calls))))).
Proof.
  apply (swap_buffers_respects_swapchain_depth cooperative 10
           (ctx_after cooperative 10 steady_calls)).
  vm_compute. reflexivity.
Defined.

(** ** Initialisation and teardown *)

(** X10.  A successful [drm_egl_init] leaves exactly one buffer queued: the
    one it locked, stamped with swap count 1, with its framebuffer created
    at the buffer's size, given a nonzero id and cached on the buffer.  The
    session is active after exactly one modeset commit, nothing was handed
    back, no flip is pending, no fence is recorded, the negotiated format is
    one of the two the [drm-format] option stands for, and the vsync info is
    reset to (0, -1, -1). *)
Theorem drm_egl_init_postcondition (K : platform) (o : mp_vo_opts) (c : ra_ctx) :
  drm_egl_init K (ctx_zero o) = Done (true, c) →
  ∃ b f,
    gbm_bo_queue (ctx_priv c) = [mk_frame (Some b) (mk_vsync_tuple 0 0 1)]
    ∧ locked (ctx_history c) = [b]
    ∧ released (ctx_history c) = []
    ∧ fb (ctx_priv c) = Some f
    ∧ ctx_bo_user_data c !! b = Some f
    ∧ fb_id f ≠ 0
    ∧ fb_width f = env_bo_width K b
    ∧ fb_height f = env_bo_height K b
    ∧ active (ctx_priv c) = true
    ∧ modeset_commits (ctx_history c) = 1%nat
    ∧ waiting_for_flip (ctx_priv c) = false
    ∧ ctx_closures c = []
    ∧ vsync_fences (ctx_priv c) = []
    ∧ (gbm_format (ctx_priv c) = (formats_for (drm_format o)).1
       ∨ gbm_format (ctx_priv c) = (formats_for (drm_format o)).2)
    ∧ vsync_info (ctx_priv c) = mk_vsync_info 0 (-1) (-1).
Proof.
  intros H. apply drm_egl_init_frame in H; [|reflexivity].
  destruct H as (vt & k & fmt & ms & sync & b & f & saved & blob & evs
                 & -> & Hid & Hsize & Hfmt & Hr & Hl & Hc).
  destruct (Hsize eq_refl) as (_ & Hw & Hh).
  exists b, f. engine_fields.
  change (ctx_history (ctx_zero o)) with (@nil event).
  rewrite !app_nil_l, Hr, Hl, Hc.
  repeat split; try done. apply lookup_insert_eq.
Qed.

(** A run to apply the theorem to: initialisation on the cooperative
    platform. *)
Lemma drm_egl_init_postcondition_witness :
  ∃ b f,
    gbm_bo_queue (ctx_priv (ctx_after cooperative 10 []))
    = [mk_frame (Some b) (mk_vsync_tuple 0 0 1)]
    ∧ locked (ctx_history (ctx_after cooperative 10 [])) = [b]
    ∧ released (ctx_history (ctx_after cooperative 10 [])) = []
    ∧ fb (ctx_priv (ctx_after cooperative 10 [])) = Some f
    ∧ ctx_bo_user_data (ctx_after cooperative 10 []) !! b = Some f
    ∧ fb_id f ≠ 0
    ∧ fb_width f = env_bo_width cooperative b
    ∧ fb_height f = env_bo_height cooperative b
    ∧ active (ctx_priv (ctx_after cooperative 10 [])) = true
    ∧ modeset_commits (ctx_history (ctx_after cooperative 10 [])) = 1%nat
    ∧ waiting_for_flip (ctx_priv (ctx_after cooperative 10 [])) = false
    ∧ ctx_closures (ctx_after cooperative 10 []) = []
    ∧ vsync_fences (ctx_priv (ctx_after cooperative 10 [])) = []
    ∧ (gbm_format (ctx_priv (ctx_after cooperative 10 []))
       = (formats_for (drm_format default_opts)).1
       ∨ gbm_format (ctx_priv (ctx_after cooperative 10 []))
         = (formats_for (drm_format default_opts)).2)
    ∧ vsync_info (ctx_priv (ctx_after cooperative 10 []))
      = mk_vsync_info 0 (-1) (-1).
Proof.
  apply (drm_egl_init_postcondition cooperative default_opts).
  vm_compute. reflexivity.
Defined.

(** ** The outside calls always answer *)

Section CallEquations.

Variable K : platform.

Lemma glFenceSync_eq c :
  glFenceSync K c
  = Done (env_FenceSync K (ctx_history c),
          log (EvFenceSync (env_FenceSync K (ctx_history c))) c).
Proof. reflexivity. Qed.

Lemma lock_front_buffer_eq c :
  gbm_surface_lock_front_buffer K c
  = Done (env_lock_front_buffer K (ctx_history c),
          log (EvLockFrontBuffer (env_lock_front_buffer K (ctx_history c))) c).
Proof. reflexivity. Qed.

Lemma has_free_buffers_eq c :
  gbm_surface_has_free_buffers K c
  = Done (env_has_free_buffers K (ctx_history c),
          log (EvHasFreeBuffers (env_has_free_buffers K (ctx_history c))) c).
Proof. reflexivity. Qed.

Lemma drmModeAddFB2_eq b m hs ss os ms c :
  drmModeAddFB2 K b m hs ss os ms c
  = Done (env_AddFB2 K (ctx_history c),
          log (EvAddFB2 b m hs ss os ms (env_AddFB2 K (ctx_history c)).1
                 (env_AddFB2 K (ctx_history c)).2) c).
Proof.
  unfold drmModeAddFB2. engine_cbv. by destruct (env_AddFB2 K (ctx_history c)).
Qed.

Lemma drmModeAtomicAlloc_eq c :
  drmModeAtomicAlloc K c
  = Done (if env_AtomicAlloc K (ctx_history c) then Some [] else None,
          log (EvAtomicAlloc (env_AtomicAlloc K (ctx_history c))) c).
Proof. reflexivity. Qed.

Lemma drmModeAtomicCommit_eq req flags data c :
  drmModeAtomicCommit K req flags data c
  = Done (env_AtomicCommit K (ctx_history c) flags req,
          log (EvAtomicCommit flags req data (waiting_for_flip (ctx_priv c))
                 (env_AtomicCommit K (ctx_history c) flags req)) c).
Proof. reflexivity. Qed.

Lemma drm_object_set_property_eq req o name v c :
  drm_object_set_property K req o name v c
  = Done ((env_set_property K (ctx_history c) o name v,
           request_after (env_set_property K (ctx_history c) o name v)
             req o name v),
          log (EvSetProperty o name v
                 (env_set_property K (ctx_history c) o name v)) c).
Proof. reflexivity. Qed.

Lemma drm_atomic_restore_old_state_eq c :
  drm_atomic_restore_old_state K c
  = Done ((env_restore_old_state K (ctx_history c)).1,
          set_ctx_priv
            (set_kms_old_state_saved (env_restore_old_state K (ctx_history c)).2
               (ctx_priv c))
            (log (EvRestoreOldState (env_restore_old_state K (ctx_history c)).1) c)).
Proof.
  unfold drm_atomic_restore_old_state. engine_cbv.
  by destruct (env_restore_old_state K (ctx_history c)).
Qed.

Lemma poll_drm_fd_eq c :
  poll_drm_fd K c
  = Done (env_poll K (ctx_history c), log (EvPoll (env_poll K (ctx_history c))) c).
Proof. reflexivity. Qed.

Lemma init_step_eq name c :
  init_step K name c
  = Done (env_init_step K (ctx_history c) name,
          log (EvInitStep name (env_init_step K (ctx_history c) name)) c).
Proof. reflexivity. Qed.

End CallEquations.

#[export] Hint Rewrite glFenceSync_eq lock_front_buffer_eq has_free_buffers_eq
  drmModeAddFB2_eq drmModeAtomicAlloc_eq drmModeAtomicCommit_eq
  drm_object_set_property_eq drm_atomic_restore_old_state_eq poll_drm_fd_eq
  init_step_eq : calls.

(** ** Teardown *)

Lemma crtc_release_total K c : ∃ c', crtc_release K c = Done (tt, c').
Proof.
  unfold crtc_release. repeat fwd_split; fwd; eauto.
Qed.

Lemma release_all_exact n : ∀ c,
  (num_bos (ctx_priv c) ≤ n)%nat →
  release_all n c
  = Done (tt, mk_ctx (set_gbm_bo_queue [] (ctx_priv c)) (ctx_opts c)
                (ctx_closures c) (ctx_bo_user_data c)
                (ctx_history c ++ (EvReleaseBuffer <$> queued c))).
Proof.
  induction n as [|n IH]; intros c Hn; cbn [release_all]; engine_cbv;
    unfold num_bos, queued in *.
  - destruct c as [p o cl ud h]. destruct p as [? ? ? ? ? q ? ? ? ? ? ? ? ? ? ? ? ?].
    cbn in Hn. destruct q; [|simpl in Hn; lia]. cbn. by rewrite app_nil_r.
  - destruct (gbm_bo_queue (ctx_priv c)) as [|f q] eqn:Hq.
    + destruct c as [p o cl ud h].
      destruct p as [? ? ? ? ? q ? ? ? ? ? ? ? ? ? ? ? ?].
      cbn in Hq. subst q. cbn. by rewrite app_nil_r.
    + cbn [length Nat.eqb negb]. rewrite swapchain_step_total.
      rewrite IH.
      2:{ pose proof (retire_head_num_bos c) as Hp. unfold num_bos in Hp.
          rewrite Hp, Hq. simpl in *. lia. }
      unfold retire_head. rewrite Hq.
      destruct (frame_bo f) eqn:Hf; engine_fields; cbn [omap list_omap];
        rewrite Hf; cbn [fmap list_fmap]; f_equal; f_equal; ctx_eq.
Qed.

Lemma crtc_release_keeps K c c' :
  crtc_release K c = Done (tt, c') →
  ∃ saved evs,
    c' = mk_ctx (set_active false (set_kms_old_state_saved saved (ctx_priv c)))
           (ctx_opts c) (ctx_closures c) (ctx_bo_user_data c)
           (ctx_history c ++ evs)
    ∧ quiet evs.
Proof.
  intros H. destruct (active (ctx_priv c)) eqn:Ha.
  - by eapply crtc_release_frame.
  - rewrite crtc_release_inactive in H by done. simplify_eq.
    exists (kms_old_state_saved (ctx_priv c')), []. split; [|constructor].
    destruct c' as [p o cl ud h]. destruct p. simpl in Ha. subst.
    cbn. by rewrite app_nil_r.
Qed.

Lemma released_release_events l : released (EvReleaseBuffer <$> l) = l.
Proof. induction l as [|b l IH]; [done|]. cbn. by f_equal. Qed.

Lemma locked_release_events l : locked (EvReleaseBuffer <$> l) = [].
Proof. by induction l. Qed.

(** X11.  [drm_egl_uninit] always returns.  It commits the live request
    with no flags and frees it, tears the session down, and hands every
    queued buffer back in queue order, which leaves the queue empty and the
    session inactive.  It locks no buffer, does not wait for a pending flip
    and deletes none of the recorded fences. *)
Theorem drm_egl_uninit_postcondition (K : platform) (c : ra_ctx) :
  ∃ c' ret evs,
    drm_egl_uninit K c = Done (tt, c')
    ∧ ctx_history c'
      = ctx_history c
        ++ [EvAtomicCommit 0 (kms_request (ctx_priv c)) None
              (waiting_for_flip (ctx_priv c)) ret;
            EvAtomicFree]
        ++ evs
    ∧ gbm_bo_queue (ctx_priv c') = []
    ∧ released (ctx_history c') = released (ctx_history c) ++ queued c
    ∧ locked (ctx_history c') = locked (ctx_history c)
    ∧ active (ctx_priv c') = false
    ∧ waiting_for_flip (ctx_priv c') = waiting_for_flip (ctx_priv c)
    ∧ vsync_fences (ctx_priv c') = vsync_fences (ctx_priv c)
    ∧ ctx_closures c' = ctx_closures c.
Proof.
  unfold drm_egl_uninit. fwd.
  match goal with
  | |- context [crtc_release K ?X] =>
      destruct (crtc_release_total K X) as [c1 E]; rewrite E;
      apply crtc_release_keeps in E as (saved & evs1 & -> & Hq)
  end.
  engine_cbv. rewrite release_all_exact by (unfold num_bos; engine_fields; lia).
  eexists _, _, _. split; [reflexivity|].
  unfold queued. engine_fields.
  split; [rewrite <- !app_assoc; reflexivity|].
  split; [reflexivity|].
  rewrite !released_app, !locked_app.
  rewrite (released_quiet _ Hq), (locked_quiet _ Hq).
  rewrite released_release_events, locked_release_events.
  repeat split; simpl; by rewrite ?app_nil_r.
Qed.

(** ** Fences and framebuffers *)

(** X12.  [wait_fence] always returns.  It waits for and then deletes the
    oldest fences, one after the other in FIFO order, until fewer fences
    than queued buffers are left (all of them when the queue is empty): the
    number left is the smaller of the number of fences and the queue length
    less one.  Nothing else of the context changes. *)
Theorem wait_fence_drains_oldest_first (c : ra_ctx) :
  ∃ waited c',
    wait_fence c = Done (tt, c')
    ∧ vsync_fences (ctx_priv c) = waited ++ vsync_fences (ctx_priv c')
    ∧ ctx_history c' = ctx_history c ++ fence_events waited
    ∧ num_vsync_fences (ctx_priv c')
      = (num_vsync_fences (ctx_priv c) `min` Nat.pred (num_bos (ctx_priv c)))%nat
    ∧ c' = set_ctx_history (ctx_history c')
             (set_ctx_priv
                (set_vsync_fences (vsync_fences (ctx_priv c')) (ctx_priv c)) c).
Proof.
  eexists _, _. split; [apply wait_fence_exact|]. cbv zeta. engine_fields.
  split; [by rewrite take_drop|]. split; [done|].
  split; [|reflexivity].
  unfold num_vsync_fences, num_bos. engine_fields. rewrite length_drop. lia.
Qed.

(** X13.  [update_framebuffer_from_bo] creates a framebuffer for a buffer at
    most once.  After a call for a buffer, [p->fb] is the framebuffer cached
    on that buffer, a second call makes no outside call and changes nothing,
    and so does a call in any later context that still holds the cache
    entry.  A framebuffer whose creation failed is cached like any other,
    with id 0. *)
Theorem framebuffer_created_once (K : platform) (b : gbm_bo) (c c1 : ra_ctx) :
  update_framebuffer_from_bo K (Some b) c = Done (tt, c1) →
  ∃ f,
    fb (ctx_priv c1) = Some f
    ∧ ctx_bo_user_data c1 !! b = Some f
    ∧ update_framebuffer_from_bo K (Some b) c1 = Done (tt, c1)
    ∧ (∀ c2, ctx_bo_user_data c2 !! b = Some f →
             update_framebuffer_from_bo K (Some b) c2
             = Done (tt, set_ctx_priv (set_fb (Some f) (ctx_priv c2)) c2))
    ∧ (ctx_bo_user_data c !! b = Some f → ctx_history c1 = ctx_history c)
    ∧ (ctx_bo_user_data c !! b = None →
       ∃ m hs ss os ms ret id,
         ctx_history c1 = ctx_history c ++ [EvAddFB2 b m hs ss os ms ret id]
         ∧ fb_id f = (if ret =? 0 then id else 0)).
Proof.
  intros (b' & f & evs & [= <-] & -> & Hc)%update_framebuffer_frame.
  exists f. engine_fields.
  assert (Hhit : ∀ c2, ctx_bo_user_data c2 !! b = Some f →
            update_framebuffer_from_bo K (Some b) c2
            = Done (tt, set_ctx_priv (set_fb (Some f) (ctx_priv c2)) c2)).
  { intros c2 Hl. unfold update_framebuffer_from_bo. engine_cbv. by rewrite Hl. }
  split; [done|]. split; [apply lookup_insert_eq|].
  split; [|split; [exact Hhit|]].
  - rewrite Hhit by (engine_fields; apply lookup_insert_eq). reflexivity.
  - destruct Hc as [[-> Hl]|(Hl & m & hs & ss & os & ms & ret & id & -> & ->)].
    + split; [intros _; apply app_nil_r|congruence].
    + split; [congruence|]. intros _. eexists _, _, _, _, _, _, _. split; done.
Qed.

(** A call to apply the theorem to: the second buffer of a run, for which
    the flip of the first swap created the framebuffer. *)
Lemma framebuffer_created_once_witness :
  ∃ f,
    fb (ctx_priv (result_ctx (update_framebuffer_from_bo cooperative (Some 2%nat)
                                (ctx_after cooperative 10 steady_calls))))
    = Some f
    ∧ ctx_bo_user_data
        (result_ctx (update_framebuffer_from_bo cooperative (Some 2%nat)
                       (ctx_after cooperative 10 steady_calls))) !! 2%nat
      = Some f
    ∧ update_framebuffer_from_bo cooperative (Some 2%nat)
        (result_ctx (update_framebuffer_from_bo cooperative (Some 2%nat)
                       (ctx_after cooperative 10 steady_calls)))
      = Done (tt, result_ctx (update_framebuffer_from_bo cooperative (Some 2%nat)
                                (ctx_after cooperative 10 steady_calls)))
    ∧ (∀ c2, ctx_bo_user_data c2 !! 2%nat = Some f →
             update_framebuffer_from_bo cooperative (Some 2%nat) c2
             = Done (tt, set_ctx_priv (set_fb (Some f) (ctx_priv c2)) c2))
    ∧ (ctx_bo_user_data (ctx_after cooperative 10 steady_calls) !! 2%nat = Some f →
       ctx_history
         (result_ctx (update_framebuffer_from_bo cooperative (Some 2%nat)
                        (ctx_after cooperative 10 steady_calls)))
       = ctx_history (ctx_after cooperative 10 steady_calls))
    ∧ (ctx_bo_user_data (ctx_after cooperative 10 steady_calls) !! 2%nat = None →
       ∃ m hs ss os ms ret id,
         ctx_history
           (result_ctx (update_framebuffer_from_bo cooperative (Some 2%nat)
                          (ctx_after cooperative 10 steady_calls)))
         = ctx_history (ctx_after cooperative 10 steady_calls)
           ++ [EvAddFB2 2%nat m hs ss os ms ret id]
         ∧ fb_id f = (if ret =? 0 then id else 0)).
Proof.
  apply (framebuffer_created_once cooperative 2%nat
           (ctx_after cooperative 10 steady_calls)).
  vm_compute. reflexivity.
Defined.

(** ** Waiting for the flip *)

Lemma drmHandleEvent_idle K c :
  env_HandleEvent K (ctx_history c) = (0, None) →
  drmHandleEvent K c = Done (0, log (EvHandleEvent 0 false) c).
Proof. intros H. unfold drmHandleEvent. engine_cbv. by rewrite H. Qed.

(** X14.  With a flip pending and a kernel that never delivers its
    completion (the device never becomes readable, or what is dispatched is
    not the completion), [wait_on_flip] never returns: the timeout of its
    poll is not a way out of the loop. *)
Theorem wait_on_flip_never_gives_up (K : platform) (fuel : nat) (c : ra_ctx) :
  (∀ h, env_poll K h = true → env_HandleEvent K (h ++ [EvPoll true]) = (0, None)) →
  waiting_for_flip (ctx_priv c) = true →
  wait_on_flip K fuel c = OutOfFuel.
Proof.
  intros HK. revert c. induction fuel as [|fuel IH]; intros c Hw;
    cbn [wait_on_flip]; fwd; rewrite Hw; [done|].
  fwd. destruct (env_poll K (ctx_history c)) eqn:Hp.
  - rewrite drmHandleEvent_idle by (engine_fields; by apply HK).
    engine_cbv. cbn [Z.eqb negb]. by apply IH.
  - by apply IH.
Qed.

(** A context to apply the theorem to: three frames were presented and a
    flip is pending; from then on the device never becomes readable. *)
Lemma wait_on_flip_never_gives_up_witness :
  wait_on_flip never_readable 1000 (ctx_after cooperative 10 steady_calls)
  = OutOfFuel.
Proof.
  apply (wait_on_flip_never_gives_up never_readable 1000
           (ctx_after cooperative 10 steady_calls)).
  - intros h Hp. vm_compute in Hp. discriminate Hp.
  - vm_compute. reflexivity.
Defined.

(** X15.  [wait_on_flip] makes no call when no flip is pending.  With a flip
    pending it returns only right after a [drmHandleEvent] that failed or
    after which the flag is clear; in every round before that one it polled
    and, if it dispatched, the dispatch returned 0. *)
Theorem wait_on_flip_returns_after_dispatch (K : platform) (fuel : nat)
    (c c' : ra_ctx) :
  wait_on_flip K fuel c = Done (tt, c') →
  (waiting_for_flip (ctx_priv c) = false ∧ c' = c)
  ∨ (waiting_for_flip (ctx_priv c) = true
     ∧ ∃ evs r d,
         ctx_history c' = ctx_history c ++ evs ++ [EvPoll true; EvHandleEvent r d]
         ∧ Forall (λ e, waiting_round e = true) evs
         ∧ (r ≠ 0 ∨ waiting_for_flip (ctx_priv c') = false)).
Proof.
  revert c c'. induction fuel as [|fuel IH]; intros c c' H;
    cbn [wait_on_flip] in H.
  - exec H. simplify_eq. by left.
  - run H with (drmHandleEvent_spec, poll_spec); simplify_eq; unnegb.
    all: try (left; split; reflexivity).
    all: right; split; [reflexivity|].
    all: try match goal with
         | E : wait_on_flip _ _ _ = Done _ |- _ =>
             apply IH in E; engine_fields_in E;
             destruct E as [[Hf ->]|(Hw & evs & r & d & Hh & Hr & Hd)];
             try congruence
         end.
    all: engine_fields_all.
    + exists [], z, false. split; [by rewrite <- app_assoc|].
      split; [constructor|left]. by apply Z.eqb_neq.
    + exists ([EvPoll true; EvHandleEvent z false] ++ evs), r, d.
      split; [rewrite Hh, <- !app_assoc; reflexivity|]. split; [|done].
      repeat constructor; [exact E0|exact Hr].
    + exists [], z, true. split; [by rewrite <- app_assoc|].
      split; [constructor|left]. by apply Z.eqb_neq.
    + exists [], z, true. split; [by rewrite <- app_assoc|].
      split; [constructor|by right].
    + exists (EvPoll false :: evs), r, d.
      split; [rewrite Hh, <- !app_assoc; reflexivity|]. split; [|done].
      by constructor.
Qed.

(** A call to apply the theorem to: the flip pending after three frames
    completes at the first poll. *)
Lemma wait_on_flip_returns_after_dispatch_witness :
  (waiting_for_flip (ctx_priv (ctx_after cooperative 10 steady_calls)) = false
   ∧ result_ctx (wait_on_flip cooperative 10 (ctx_after cooperative 10 steady_calls))
     = ctx_after cooperative 10 steady_calls)
  ∨ (waiting_for_flip (ctx_priv (ctx_after cooperative 10 steady_calls)) = true
     ∧ ∃ evs r d,
         ctx_history
           (result_ctx (wait_on_flip cooperative 10
                          (ctx_after cooperative 10 steady_calls)))
         = ctx_history (ctx_after cooperative 10 steady_calls)
           ++ evs ++ [EvPoll true; EvHandleEvent r d]
         ∧ Forall (λ e, waiting_round e = true) evs
         ∧ (r ≠ 0
            ∨ waiting_for_flip
                (ctx_priv (result_ctx (wait_on_flip cooperative 10
                                         (ctx_after cooperative 10 steady_calls))))
              = false)).
Proof.
  apply (wait_on_flip_returns_after_dispatch cooperative 10
           (ctx_after cooperative 10 steady_calls)).
  vm_compute. reflexivity.
Defined.

(** ** Atomic requests of the session *)

Lemma set_properties_plane K props : ∀ req c req' c',
  set_properties K req props c = Done (req', c') →
  ∃ evs, c' = set_ctx_history (ctx_history c ++ evs) c
         ∧ (Forall (λ p, p.1.1 = DrawPlane) props →
            Forall (λ e, is_plane_property e = true) evs).
Proof.
  induction props as [|[[o name] v] props IH]; intros req c req' c' H;
    cbn [set_properties] in H.
  - engine_cbv_in H. simplify_eq. exists []. rewrite app_nil_r.
    split; [|constructor]. by match goal with |- ?x = _ => destruct x end.
  - run H with drm_object_set_property_spec.
    apply IH in H as (evs & -> & Hp).
    exists (EvSetProperty o name v z :: evs). engine_fields.
    split; [by rewrite <- app_assoc|].
    intros [Ho Hrest]%Forall_cons. simpl in Ho. subst o.
    constructor; [done|by apply Hp].
Qed.

Lemma plane_properties_count evs :
  Forall (λ e, is_plane_property e = true) evs →
  allocated evs = 0%nat ∧ freed evs = 0%nat ∧ connector_refused evs = false.
Proof.
  unfold allocated, freed, connector_refused.
  induction 1 as [|e evs He _ (Ha & Hf & Hc)]; [done|].
  destruct e as [| | | | | | | | | | | | |[] ? ? ?| | | | | | | | | |];
    try discriminate He; cbn; auto.
Qed.

Lemma count_app (f : event → bool) h1 h2 :
  length (List.filter f (h1 ++ h2))
  = (length (List.filter f h1) + length (List.filter f h2))%nat.
Proof. by rewrite List.filter_app, length_app. Qed.

(** X16.  [crtc_setup] on an inactive session allocates at most one atomic
    request and frees it before it returns, on every path but one: when the
    connector refuses CRTC_ID it returns false and the request it allocated
    is never freed.  [crtc_release] frees the request it allocated on every
    path. *)
Theorem session_requests_are_freed_unless_connector_refuses (K : platform)
    (c c1 d d1 : ra_ctx) (r : bool) :
  crtc_setup K c = Done (r, c1) →
  crtc_release K d = Done (tt, d1) →
  (∃ evs, ctx_history c1 = ctx_history c ++ evs
          ∧ (allocated evs ≤ 1)%nat
          ∧ (connector_refused evs = false → freed evs = allocated evs)
          ∧ (connector_refused evs = true →
             r = false ∧ allocated evs = 1%nat ∧ freed evs = 0%nat))
  ∧ (∃ evs, ctx_history d1 = ctx_history d ++ evs
            ∧ (allocated evs ≤ 1)%nat
            ∧ freed evs = allocated evs).
Proof.
  intros Hs Hr. split.
  - unfold crtc_setup in Hs.
    run Hs with (save_old_state_spec, drmModeAtomicAlloc_spec,
                 drm_object_set_property_spec, ensure_blob_spec,
                 drm_object_get_property_spec, set_properties_plane,
                 drmModeAtomicCommit_spec); simplify_eq.
    { exists []. rewrite app_nil_r. repeat split; auto. discriminate. }
    all: engine_fields.
    all: eexists; split; [repeat rewrite <- app_assoc; reflexivity|].
    all: try match goal with
         | Hp : Forall _ _ → Forall _ _ |- _ =>
             destruct (plane_properties_count _ (Hp ltac:(repeat constructor)))
               as (Ha & Hf & Hc)
         end.
    all: unfold allocated, freed, connector_refused in *.
    all: rewrite ?count_app, ?existsb_app, ?Ha, ?Hf, ?Hc.
    all: cbn - [Z.ltb].
    all: repeat match goal with E : (_ <? 0) = _ |- _ => rewrite E end.
    all: cbn.
    all: repeat split; try lia; try discriminate; auto.
  - unfold crtc_release in Hr.
    run Hr with (drmModeAtomicAlloc_spec, restore_old_state_spec,
                 drmModeAtomicCommit_spec); simplify_eq.
    all: try (exists []; rewrite app_nil_r; repeat split; auto; fail).
    all: engine_fields.
    all: eexists; split; [repeat rewrite <- app_assoc; reflexivity|].
    all: cbn; auto.
Qed.

(** A run to apply the theorem to: after a VT switch-away the session is
    set up again on a connector that refuses CRTC_ID, and a session that was
    set up is released. *)
Lemma session_requests_are_freed_unless_connector_refuses_witness :
  (∃ evs,
     ctx_history (result_ctx (crtc_setup connector_refuses inactive_ctx))
     = ctx_history inactive_ctx ++ evs
     ∧ (allocated evs ≤ 1)%nat
     ∧ (connector_refused evs = false → freed evs = allocated evs)
     ∧ (connector_refused evs = true →
        false = false ∧ allocated evs = 1%nat ∧ freed evs = 0%nat))
  ∧ (∃ evs, ctx_history torn_down_ctx = ctx_history set_up_ctx ++ evs
            ∧ (allocated evs ≤ 1)%nat
            ∧ freed evs = allocated evs).
Proof.
  apply (session_requests_are_freed_unless_connector_refuses connector_refuses
           inactive_ctx (result_ctx (crtc_setup connector_refuses inactive_ctx))
           set_up_ctx torn_down_ctx false).
  - vm_compute. reflexivity.
  - vm_compute. reflexivity.
Defined.

(** ** VT switches *)

(** X17.  [release_vt] leaves the session inactive and [acquire_vt] leaves
    it active, whatever the kernel answers to the master calls and whether
    or not the modeset succeeds.  Between the two every swap is dropped
    without a call, and across the switch the queue, the fences, the
    pending-flip flag and the closures are what they were: a flip that was
    pending when the VT was released is still waited for after it is
    acquired again. *)
Theorem vt_switch_keeps_the_swapchain (K : platform) (c c1 c2 : ra_ctx) :
  release_vt K c = Done (tt, c1) →
  acquire_vt K c1 = Done (tt, c2) →
  active (ctx_priv c1) = false
  ∧ (∀ fuel, drm_egl_swap_buffers K fuel c1 = Done (tt, c1))
  ∧ active (ctx_priv c2) = true
  ∧ gbm_bo_queue (ctx_priv c2) = gbm_bo_queue (ctx_priv c)
  ∧ vsync_fences (ctx_priv c2) = vsync_fences (ctx_priv c)
  ∧ waiting_for_flip (ctx_priv c2) = waiting_for_flip (ctx_priv c)
  ∧ ctx_closures c2 = ctx_closures c
  ∧ released (ctx_history c2) = released (ctx_history c)
  ∧ locked (ctx_history c2) = locked (ctx_history c).
Proof.
  intros Hr Ha. unfold release_vt in Hr.
  run Hr with (crtc_release_keeps, drmDropMaster_spec). simplify_eq.
  unfold acquire_vt in Ha.
  run Ha with (crtc_setup_frame, drmSetMaster_spec); simplify_eq.
  engine_fields. split; [done|].
  split; [intros fuel; by apply swap_buffers_inactive|].
  repeat split.
  all: rewrite !released_app || rewrite !locked_app.
  all: repeat match goal with
       | Hq : quiet _ |- _ =>
           rewrite ?(released_quiet _ Hq), ?(locked_quiet _ Hq); clear Hq
       end.
  all: cbn; by rewrite ?app_nil_r.
Qed.

(** A run to apply the theorem to: three frames were presented and a flip
    is pending when the VT is switched away and back. *)
Lemma vt_switch_keeps_the_swapchain_witness :
  active (ctx_priv (ctx_after cooperative 10 (steady_calls ++ [ReleaseVT]))) = false
  ∧ (∀ fuel,
       drm_egl_swap_buffers cooperative fuel
         (ctx_after cooperative 10 (steady_calls ++ [ReleaseVT]))
       = Done (tt, ctx_after cooperative 10 (steady_calls ++ [ReleaseVT])))
  ∧ active (ctx_priv (ctx_after cooperative 10
                        (steady_calls ++ [ReleaseVT; AcquireVT]))) = true
  ∧ gbm_bo_queue (ctx_priv (ctx_after cooperative 10
                              (steady_calls ++ [ReleaseVT; AcquireVT])))
    = gbm_bo_queue (ctx_priv (ctx_after cooperative 10 steady_calls))
  ∧ vsync_fences (ctx_priv (ctx_after cooperative 10
                              (steady_calls ++ [ReleaseVT; AcquireVT])))
    = vsync_fences (ctx_priv (ctx_after cooperative 10 steady_calls))
  ∧ waiting_for_flip (ctx_priv (ctx_after cooperative 10
                                  (steady_calls ++ [ReleaseVT; AcquireVT])))
    = waiting_for_flip (ctx_priv (ctx_after cooperative 10 steady_calls))
  ∧ ctx_closures (ctx_after cooperative 10 (steady_calls ++ [ReleaseVT; AcquireVT]))
    = ctx_closures (ctx_after cooperative 10 steady_calls)
  ∧ released (ctx_history (ctx_after cooperative 10
                             (steady_calls ++ [ReleaseVT; AcquireVT])))
    = released (ctx_history (ctx_after cooperative 10 steady_calls))
  ∧ locked (ctx_history (ctx_after cooperative 10
                           (steady_calls ++ [ReleaseVT; AcquireVT])))
    = locked (ctx_history (ctx_after cooperative 10 steady_calls)).
Proof.
  apply (vt_switch_keeps_the_swapchain cooperative
           (ctx_after cooperative 10 steady_calls)).
  - vm_compute. reflexivity.
  - vm_compute. reflexivity.
Defined.

(** ** Refused flips *)

Lemma update_framebuffer_total K b c :
  env_bo_plane_count K b ≤ 4 →
  ∃ c', update_framebuffer_from_bo K (Some b) c = Done (tt, c').
Proof.
  intros Hp. unfold update_framebuffer_from_bo.
  repeat fwd_split; fwd; eauto.
  apply Z.ltb_lt in E1. lia.
Qed.

Lemma queue_flip_refused K frame b c :
  frame_bo frame = Some b →
  env_bo_plane_count K b ≤ 4 →
  (∀ h req,
     env_AtomicCommit K h (Z.lor DRM_MODE_ATOMIC_NONBLOCK DRM_MODE_PAGE_FLIP_EVENT)
       req ≠ 0) →
  ∃ c', queue_flip K frame c = Done (tt, c')
        ∧ waiting_for_flip (ctx_priv c') = false
        ∧ gbm_bo_queue (ctx_priv c') = gbm_bo_queue (ctx_priv c)
        ∧ ctx_opts c' = ctx_opts c.
Proof.
  intros Hbo Hp Hrefuse. unfold queue_flip. rewrite Hbo.
  destruct (update_framebuffer_total K b c Hp) as [c1 E].
  engine_cbv. rewrite E.
  apply update_framebuffer_frame in E as (b' & f & evs & _ & -> & _).
  fwd.
  match goal with
  | |- context [env_AtomicCommit K ?h ?fl ?req =? 0] =>
      destruct (env_AtomicCommit K h fl req =? 0) eqn:Hz;
        [apply Z.eqb_eq in Hz; by destruct (Hrefuse h req)|]
  end.
  fwd. eexists. split; [reflexivity|]. engine_fields. auto.
Qed.

Lemma swap_loop_spins K drain fuel : ∀ c second b,
  (∀ b, env_bo_plane_count K b ≤ 4) →
  (∀ h req,
     env_AtomicCommit K h (Z.lor DRM_MODE_ATOMIC_NONBLOCK DRM_MODE_PAGE_FLIP_EVENT)
       req ≠ 0) →
  drain || (to_unsigned (swapchain_depth (ctx_opts c))
            <? Z.of_nat (num_bos (ctx_priv c))) = true →
  waiting_for_flip (ctx_priv c) = false →
  gbm_bo_queue (ctx_priv c) !! 1%nat = Some second →
  frame_bo second = Some b →
  swap_loop K drain fuel c = OutOfFuel.
Proof.
  induction fuel as [|fuel IH]; intros c second b Hp Hrefuse Hcond Hw Hq Hb;
    cbn [swap_loop]; unfold swap_condition; fwd; unfold num_bos in Hcond;
    rewrite Hcond; cbn [negb]; fwd; [done|].
  unfold swap_body, retire_flipped, flip_next. fwd. rewrite Hw. fwd.
  assert (Hlen : (length (gbm_bo_queue (ctx_priv c)) <=? 1)%nat = false).
  { apply Nat.leb_gt. apply lookup_lt_Some in Hq. lia. }
  rewrite Hlen, Hq. fwd. rewrite Hb.
  destruct (queue_flip_refused K second b c Hb (Hp b) Hrefuse)
    as (c' & E & Hw' & Hq' & Ho').
  rewrite E. fwd.
  apply (IH c' second b); auto; [|congruence].
  unfold num_bos. by rewrite Hq', Ho'.
Qed.

(** X18.  When the kernel refuses every page-flip commit, a swap that has to
    drain, or that finds more buffers queued than [swapchain_depth] allows,
    never returns: with no flip pending nothing is retired, and every round
    of the loop queues the same flip again. *)
Theorem swap_buffers_spins_when_flips_are_refused (K : platform) (fuel : nat)
    (c : ra_ctx) :
  (∀ h req,
     env_AtomicCommit K h (Z.lor DRM_MODE_ATOMIC_NONBLOCK DRM_MODE_PAGE_FLIP_EVENT)
       req ≠ 0) →
  (∀ b, env_bo_plane_count K b ≤ 4) →
  (∀ h, is_Some (env_lock_front_buffer K h)) →
  active (ctx_priv c) = true →
  waiting_for_flip (ctx_priv c) = false →
  no_holes c →
  (1 ≤ num_bos (ctx_priv c))%nat →
  (paused (ctx_priv c) || still (ctx_priv c) = true
   ∨ to_unsigned (swapchain_depth (ctx_opts c)) ≤ Z.of_nat (num_bos (ctx_priv c))) →
  drm_egl_swap_buffers K fuel c = OutOfFuel.
Proof.
  intros Hrefuse Hp Hlock Ha Hw Hnh Hn Hcond.
  unfold drm_egl_swap_buffers. fwd. rewrite Ha. cbn [negb]. fwd.
  rewrite wait_fence_exact. fwd.
  match goal with
  | |- context [env_lock_front_buffer K ?h] =>
      destruct (Hlock h) as [b Hb]; rewrite Hb
  end.
  fwd. rewrite enqueue_bo_total. fwd.
  match goal with
  | |- context [new_fence K ?X] =>
      destruct (new_fence_total K X) as [c1 E]; rewrite E;
      assert (Hc1 : waiting_for_flip (ctx_priv c1) = false
                    ∧ gbm_bo_queue (ctx_priv c1) = gbm_bo_queue (ctx_priv X)
                    ∧ ctx_opts c1 = ctx_opts c)
        by (apply new_fence_spec in E as [->|[[r ->]|[f ->]]];
            engine_fields; auto)
  end.
  destruct Hc1 as (Hw1 & Hq1 & Ho1). engine_fields_in Hq1.
  assert (∃ second b', gbm_bo_queue (ctx_priv c1) !! 1%nat = Some second
                       ∧ frame_bo second = Some b') as (second & b' & Hs & Hb').
  { rewrite Hq1. unfold no_holes, num_bos in *.
    destruct (gbm_bo_queue (ctx_priv c)) as [|f0 [|f1 q]] eqn:Hq;
      [simpl in Hn; lia|..].
    - eexists _, _. split; reflexivity.
    - apply Forall_cons in Hnh as [_ [[b1 Hb1] _]%Forall_cons].
      exists f1, b1. by split. }
  eapply swap_loop_spins; eauto.
  rewrite Ho1. unfold num_bos in *. rewrite Hq1, length_app. cbn [length].
  destruct Hcond as [->|Hd]; [done|].
  apply orb_true_iff. right. apply Z.ltb_lt. lia.
Qed.

(** A call to apply the theorem to: playback was paused with two buffers
    queued, on a kernel that refuses every page flip. *)
Lemma swap_buffers_spins_when_flips_are_refused_witness :
  drm_egl_swap_buffers flips_refused 1000 (ctx_after flips_refused 10 paused_calls)
  = OutOfFuel.
Proof.
  apply (swap_buffers_spins_when_flips_are_refused flips_refused 1000
           (ctx_after flips_refused 10 paused_calls)).
  - intros h req. vm_compute. discriminate.
  - intros b. vm_compute. discriminate.
  - intros h. eexists. reflexivity.
  - vm_compute. reflexivity.
  - vm_compute. reflexivity.
  - vm_compute. repeat constructor; eexists; reflexivity.
  - vm_compute. lia.
  - left. vm_compute. reflexivity.
Defined.

(** ** Swapping on a kernel that completes every flip *)

Lemma wait_on_flip_idle K fuel c :
  waiting_for_flip (ctx_priv c) = false → wait_on_flip K fuel c = Done (tt, c).
Proof. intros Hw. destruct fuel; cbn [wait_on_flip]; fwd; by rewrite Hw. Qed.

Lemma wait_on_flip_one_round K fuel c :
  (∀ h, env_poll K h = true) →
  (∀ h, ∃ r e, env_HandleEvent K h = (r, Some e)) →
  waiting_for_flip (ctx_priv c) = true →
  ctx_closures c ≠ [] →
  ∃ c', wait_on_flip K (S fuel) c = Done (tt, c')
        ∧ waiting_for_flip (ctx_priv c') = false
        ∧ gbm_bo_queue (ctx_priv c') = gbm_bo_queue (ctx_priv c)
        ∧ ctx_opts c' = ctx_opts c.
Proof.
  intros Hpoll Hev Hw Hcl. cbn [wait_on_flip]. fwd. rewrite Hw. fwd.
  rewrite Hpoll. unfold drmHandleEvent. fwd.
  match goal with
  | |- context [env_HandleEvent K ?h] => destruct (Hev h) as (r & e & ->)
  end.
  destruct (ctx_closures c) as [|data rest] eqn:Hc; [done|]. fwd.
  rewrite ?Hc. fwd.
  destruct (negb (r =? 0)).
  - eexists. split; [reflexivity|]. engine_fields. auto.
  - rewrite wait_on_flip_idle by reflexivity.
    eexists. split; [reflexivity|]. engine_fields. auto.
Qed.

Lemma queue_flip_accepted K frame b c :
  frame_bo frame = Some b →
  env_bo_plane_count K b ≤ 4 →
  (∀ h req,
     env_AtomicCommit K h (Z.lor DRM_MODE_ATOMIC_NONBLOCK DRM_MODE_PAGE_FLIP_EVENT)
       req = 0) →
  ∃ c', queue_flip K frame c = Done (tt, c')
        ∧ waiting_for_flip (ctx_priv c') = true
        ∧ ctx_closures c' ≠ []
        ∧ gbm_bo_queue (ctx_priv c') = gbm_bo_queue (ctx_priv c)
        ∧ ctx_opts c' = ctx_opts c.
Proof.
  intros Hbo Hp Haccept. unfold queue_flip. rewrite Hbo.
  destruct (update_framebuffer_total K b c Hp) as [c1 E].
  engine_cbv. rewrite E.
  apply update_framebuffer_frame in E as (b' & f & evs & _ & -> & _).
  fwd. rewrite Haccept. fwd.
  eexists. split; [reflexivity|]. engine_fields.
  repeat split; auto. intros [_ [=]]%app_eq_nil.
Qed.

Lemma retire_flipped_returns K fuel c :
  (∀ h, env_poll K h = true) →
  (∀ h, ∃ r e, env_HandleEvent K h = (r, Some e)) →
  (waiting_for_flip (ctx_priv c) = true → ctx_closures c ≠ []) →
  (rounds_left c ≤ S fuel)%nat →
  ∃ c1, retire_flipped K (S fuel) c = Done (tt, c1)
        ∧ waiting_for_flip (ctx_priv c1) = false
        ∧ ctx_opts c1 = ctx_opts c
        ∧ (rounds_left c1 ≤ S (S fuel))%nat
        ∧ ((2 ≤ num_bos (ctx_priv c1))%nat → (rounds_left c1 ≤ S fuel)%nat).
Proof.
  intros Hpoll Hev Hcl0 Hfuel0. unfold retire_flipped. engine_cbv.
  destruct (waiting_for_flip (ctx_priv c)) eqn:Hw.
  - destruct (wait_on_flip_one_round K fuel c Hpoll Hev Hw (Hcl0 eq_refl))
      as (c' & E & Hw' & Hq' & Ho').
    engine_cbv. rewrite E.
    rewrite swapchain_step_total. eexists. split; [reflexivity|].
    destruct (retire_head_frame c') as (_ & Hrw & Hro & _).
    pose proof (retire_head_num_bos c') as Hn.
    unfold rounds_left, num_bos in *. rewrite !Hn, Hrw, Hro, Hw', Hq'.
    rewrite Hw in Hfuel0.
    split; [done|]. split; [done|]. split; [lia|]. intros; lia.
  - exists c. unfold rounds_left in *. rewrite Hw in *.
    split; [done|]. split; [done|]. split; [done|]. split; [lia|]. intros; lia.
Qed.

Lemma swap_loop_returns K drain :
  (∀ b, env_bo_plane_count K b ≤ 4) →
  (∀ h, env_poll K h = true) →
  (∀ h, ∃ r e, env_HandleEvent K h = (r, Some e)) →
  (∀ h req,
     env_AtomicCommit K h (Z.lor DRM_MODE_ATOMIC_NONBLOCK DRM_MODE_PAGE_FLIP_EVENT)
       req = 0) →
  ∀ fuel c,
    (waiting_for_flip (ctx_priv c) = true → ctx_closures c ≠ []) →
    (rounds_left c ≤ fuel)%nat →
    ∃ c', swap_loop K drain fuel c = Done (tt, c').
Proof.
  intros Hp Hpoll Hev Haccept.
  induction fuel as [|fuel IH]; intros c Hcl Hfuel.
  { unfold rounds_left in Hfuel. destruct (waiting_for_flip (ctx_priv c)); lia. }
  cbn [swap_loop].
  assert (∃ again c0, swap_condition K drain c = Done (again, c0)
                      ∧ ctx_priv c0 = ctx_priv c ∧ ctx_closures c0 = ctx_closures c
                      ∧ ctx_opts c0 = ctx_opts c) as (again & c0 & E & Hp0 & Hc0 & Ho0).
  { unfold swap_condition. fwd.
    destruct (drain || _); fwd; eexists _, _; (split; [reflexivity|]);
      engine_fields; auto. }
  engine_cbv. rewrite E. destruct again; cbn [negb]; [|eauto].
  assert (Hcl0 : waiting_for_flip (ctx_priv c0) = true → ctx_closures c0 ≠ [])
    by (by rewrite Hp0, Hc0).
  assert (Hfuel0 : (rounds_left c0 ≤ S fuel)%nat)
    by (unfold rounds_left in *; by rewrite Hp0).
  clear E Hp0 Hc0 Ho0 Hcl Hfuel c. rename c0 into c.
  destruct (retire_flipped_returns K fuel c Hpoll Hev Hcl0 Hfuel0)
    as (c1 & E & Hw1 & Ho1 & Hr1 & Hr1').
  unfold swap_body. engine_cbv.
  rewrite E. clear E. unfold flip_next. fwd.
  destruct (length (gbm_bo_queue (ctx_priv c1)) <=? 1)%nat eqn:Hlen; fwd; [eauto|].
  apply Nat.leb_gt in Hlen. specialize (Hr1' ltac:(unfold num_bos; lia)).
  destruct (gbm_bo_queue (ctx_priv c1) !! 1%nat) as [second|] eqn:Hs;
    [|apply lookup_ge_None in Hs; lia].
  fwd. destruct (frame_bo second) as [b|] eqn:Hb.
  - destruct (queue_flip_accepted K second b c1 Hb (Hp b) Haccept)
      as (c2 & -> & Hw2 & Hcl2 & Hq2 & Ho2).
    fwd. apply IH; [auto|].
    unfold rounds_left, num_bos in *. rewrite Hw2, Hq2. rewrite Hw1 in Hr1'. lia.
  - rewrite swapchain_step_total. fwd. apply IH.
    + destruct (retire_head_frame c1) as (_ & -> & _). by rewrite Hw1.
    + unfold rounds_left in *. rewrite retire_head_num_bos.
      destruct (retire_head_frame c1) as (_ & -> & _).
      rewrite Hw1 in *. unfold num_bos in *. lia.
Qed.

(** X19.  On a kernel that accepts every page-flip commit, whose device is
    always readable and whose every dispatch delivers a completion (the
    callback then clears the pending flag), [drm_egl_swap_buffers] returns,
    without a fault: its loop needs no more rounds than the number of
    buffers queued before the call plus three. *)
Theorem swap_buffers_returns_when_flips_complete (K : platform) (fuel : nat)
    (c : ra_ctx) :
  (∀ b, env_bo_plane_count K b ≤ 4) →
  (∀ h, env_poll K h = true) →
  (∀ h, ∃ r e, env_HandleEvent K h = (r, Some e)) →
  (∀ h req,
     env_AtomicCommit K h (Z.lor DRM_MODE_ATOMIC_NONBLOCK DRM_MODE_PAGE_FLIP_EVENT)
       req = 0) →
  (waiting_for_flip (ctx_priv c) = true → ctx_closures c ≠ []) →
  (num_bos (ctx_priv c) + 3 ≤ fuel)%nat →
  ∃ c', drm_egl_swap_buffers K fuel c = Done (tt, c').
Proof.
  intros Hp Hpoll Hev Haccept Hcl Hfuel.
  unfold drm_egl_swap_buffers. fwd.
  destruct (active (ctx_priv c)); cbn [negb]; [|eauto]. fwd.
  rewrite wait_fence_exact. fwd.
  match goal with
  | |- context [env_lock_front_buffer K ?h] =>
      destruct (env_lock_front_buffer K h) as [b|]; [|eauto]
  end.
  fwd. rewrite enqueue_bo_total. fwd.
  match goal with
  | |- context [new_fence K ?X] =>
      destruct (new_fence_total K X) as [c1 E]; rewrite E;
      assert (Hc1 : waiting_for_flip (ctx_priv c1) = waiting_for_flip (ctx_priv c)
                    ∧ gbm_bo_queue (ctx_priv c1) = gbm_bo_queue (ctx_priv X)
                    ∧ ctx_closures c1 = ctx_closures c)
        by (apply new_fence_spec in E as [->|[[r ->]|[f ->]]];
            engine_fields; auto)
  end.
  destruct Hc1 as (Hw1 & Hq1 & Hcl1). engine_fields_in Hq1.
  apply swap_loop_returns; auto.
  - by rewrite Hw1, Hcl1.
  - unfold rounds_left, num_bos in *. rewrite Hw1, Hq1, length_app. cbn [length].
    destruct (waiting_for_flip (ctx_priv c)); lia.
Qed.

(** A call to apply the theorem to: three frames were presented, a flip is
    pending and its closure is with the kernel. *)
Lemma swap_buffers_returns_when_flips_complete_witness :
  ∃ c', drm_egl_swap_buffers cooperative 10 (ctx_after cooperative 10 steady_calls)
        = Done (tt, c').
Proof.
  apply (swap_buffers_returns_when_flips_complete cooperative 10
           (ctx_after cooperative 10 steady_calls)).
  - intros b. vm_compute. discriminate.
  - intros h. reflexivity.
  - intros h. eexists _, _. reflexivity.
  - intros h req. reflexivity.
  - intros _. vm_compute. discriminate.
  - vm_compute. lia.
Defined.
